(** * secureAuth: permission model, roles, sessions and the auth service

    A shallow embedding of the TypeScript sources

      - [src/domain/permission.ts]  (module [Permission])
      - [src/domain/role.ts]        (module [Role])
      - [src/domain/session.ts]     (module [Session])
      - [src/domain/user.ts]        (module [UserDomain])
      - library calls and the environment (module [Env])
      - [src/storage/*.repository.ts], [src/services/auth.service.ts]
                                    (modules [Auth], [Storage], [RoleRepository])
      - [src/services/rbac.service.ts], [src/services/password.service.ts]
                                    (modules [Rbac], [Password])

    Conventions of the embedding.

      - JS strings are [string]; [undefined] is [None].
      - JS numbers that hold counters and epoch milliseconds are integers,
        modelled as [Z].  The number of minutes a session lives comes
        unchecked from the caller ([Number(opts.ttl)]) and is a [Js.Number]:
        any binary64 value.
      - A [Date] and an ISO-8601 timestamp string are modelled by the time
        value (epoch milliseconds) they denote: [toISOString] and
        [new Date(iso).getTime()] are inverse to each other.  The dates the
        program is given or reads from the clock are valid dates; a date it
        computes from a number need not be one ([Js.timeValue]), and
        [toISOString] throws on it.
      - The JSONL files are modelled by the list of records they parse to. *)

From Stdlib Require Import List String Ascii ZArith Lia Bool Arith.
From Stdlib Require Import Sorting.Permutation Sorting.Sorted.
From Stdlib Require Floats.PrimFloat Floats.SpecFloat Floats.FloatOps.
From Stdlib Require Floats.FloatAxioms.
Import ListNotations.

Local Open Scope string_scope.
Local Open Scope list_scope.

(** ** Thrown values *)

(** The [code] of [AuthError] (auth.service.ts); the human-readable message
    is not modelled. *)
Inductive AuthCode : Type :=
  | INVALID_EMAIL
  | WEAK_PASSWORD
  | EMAIL_TAKEN
  | USER_NOT_FOUND
  | INVALID_CREDENTIALS
  | ACCOUNT_LOCKED
  | MFA_REQUIRED
  | MFA_NOT_ENABLED
  | MFA_INVALID
  | SESSION_NOT_FOUND
  | SESSION_INACTIVE.

(** What a [throw] carries: an [AuthError] with its code, a plain [Error]
    with its message (the repositories throw those), or the [RangeError] of
    the language ([toISOString] of an invalid date). *)
Inductive Exn : Type :=
  | AuthError (code : AuthCode)
  | Error (message : string)
  | RangeError (message : string).

Inductive Outcome (A : Type) : Type :=
  | Ok (a : A)
  | Throw (e : Exn).

Arguments Ok {A} a.
Arguments Throw {A} e.

(** ** JavaScript primitives used by the sources *)

Module Js.

(** [s.split(sep)] for a one-character separator: never the empty array. *)
Fixpoint split (sep : ascii) (s : string) : list string :=
  match s with
  | EmptyString => [EmptyString]
  | String c s' =>
      if Ascii.eqb c sep then EmptyString :: split sep s'
      else match split sep s' with
           | [] => [String c EmptyString]
           | h :: t => String c h :: t
           end
  end.

(** [!v] for [v : string | undefined]: [undefined] and [''] are falsy. *)
Definition falsy (v : option string) : bool :=
  match v with
  | None => true
  | Some s => String.eqb s ""
  end.

(** [a === b] for [a, b : string | undefined]. *)
Definition strictEq (a b : option string) : bool :=
  match a, b with
  | None, None => true
  | Some x, Some y => String.eqb x y
  | _, _ => false
  end.

(** [set.has(x)] for a [Set<string>] given by its elements. *)
Definition has (set : list string) (x : string) : bool :=
  existsb (String.eqb x) set.

(** [set.add(x)]: a [Set] keeps insertion order and ignores a repeated add. *)
Definition add (set : list string) (x : string) : list string :=
  if has set x then set else set ++ [x].

Definition MAX_SAFE_INTEGER : Z := 9007199254740991.

(** [arr.sort(cmp)].  The sort of ECMAScript is stable; for a comparator that
    is the difference of a numeric key the sorted array is determined, and it
    is the one that stable insertion computes. *)
Fixpoint insertSorted {A} (cmp : A -> A -> Z) (x : A) (l : list A) : list A :=
  match l with
  | [] => [x]
  | y :: t => if (cmp x y <=? 0)%Z then x :: y :: t else y :: insertSorted cmp x t
  end.

Definition sort {A} (cmp : A -> A -> Z) (l : list A) : list A :=
  fold_right (insertSorted cmp) [] l.

(** [Object.fromEntries(entries)] and property lookup [obj[k]]: a later entry
    with the same key replaces an earlier one. *)
Fixpoint setProp {V} (obj : list (string * V)) (k : string) (v : V) : list (string * V) :=
  match obj with
  | [] => [(k, v)]
  | (k', v') :: t => if String.eqb k k' then (k, v) :: t else (k', v') :: setProp t k v
  end.

Definition fromEntries {V} (entries : list (string * V)) : list (string * V) :=
  fold_left (fun obj kv => setProp obj (fst kv) (snd kv)) entries [].

Fixpoint getProp {V} (obj : list (string * V)) (k : string) : option V :=
  match obj with
  | [] => None
  | (k', v) :: t => if String.eqb k k' then Some v else getProp t k
  end.

(** [arr.map((p, i) => [p, i])]. *)
Fixpoint withIndex {A} (i : Z) (l : list A) : list (A * Z) :=
  match l with
  | [] => []
  | x :: t => (x, i) :: withIndex (i + 1)%Z t
  end.

(** *** Numbers and dates

    A JS number is a binary64 value.  [Integer z] is the number of integral
    value [z]; a [Double] is any binary64 value, the fractions, [NaN] and the
    infinities included.  The sum and the product of two integral numbers
    are taken in [Z]; every other sum and product is the binary64 one.  For
    the one arithmetic expression of the sources,
    [now.getTime() + ttlMinutes * 60_000] with an integral [ttlMinutes], the
    binary64 result is the exact one whenever that is a time value (all
    integers up to 2^53 and all multiples of 32 up to 2^58 are binary64
    values), and lies outside the range of time values whenever the exact
    result does. *)
Inductive Number : Type :=
  | Integer (z : Z)
  | Double (f : PrimFloat.float).

(** The binary64 value nearest to an integer (the integer itself up to
    2^53). *)
Definition doubleOfZ (z : Z) : PrimFloat.float :=
  FloatOps.SF2Prim
    (SpecFloat.binary_normalize FloatOps.prec FloatOps.emax z 0 false).

Definition toDouble (n : Number) : PrimFloat.float :=
  match n with
  | Integer z => doubleOfZ z
  | Double f => f
  end.

(** [a + b] and [a * b] on numbers. *)
Definition plus (a b : Number) : Number :=
  match a, b with
  | Integer x, Integer y => Integer (x + y)
  | _, _ => Double (PrimFloat.add (toDouble a) (toDouble b))
  end.

Definition times (a b : Number) : Number :=
  match a, b with
  | Integer x, Integer y => Integer (x * y)
  | _, _ => Double (PrimFloat.mul (toDouble a) (toDouble b))
  end.

(** The largest time value: 100,000,000 days on either side of the epoch. *)
Definition MAX_TIME : Z := 8640000000000000.

Definition validTime (t : Z) : bool :=
  ((- MAX_TIME <=? t) && (t <=? MAX_TIME))%Z.

(** [TimeClip] on a binary64 value: [NaN], the infinities and the values
    beyond [MAX_TIME] give no time value; any other value is truncated
    towards zero.  (Next to [MAX_TIME] the binary64 values are integers, so
    the test of the range can be made after the truncation.) *)
Definition timeClip (f : PrimFloat.float) : option Z :=
  match FloatOps.Prim2SF f with
  | SpecFloat.S754_zero _ => Some 0%Z
  | SpecFloat.S754_finite negative m e =>
      let magnitude :=
        if (0 <=? e)%Z then Z.shiftl (Z.pos m) e else Z.shiftr (Z.pos m) (- e) in
      if (magnitude <=? MAX_TIME)%Z
      then Some (if negative then (- magnitude)%Z else magnitude)
      else None
  | SpecFloat.S754_infinity _ => None
  | SpecFloat.S754_nan => None
  end.

(** The time value of [new Date(value)]: [None] is the invalid date. *)
Definition timeValue (value : Number) : option Z :=
  match value with
  | Integer z => if validTime z then Some z else None
  | Double f => timeClip f
  end.

(** [date.toISOString()] throws a [RangeError] on the invalid date. *)
Definition toISOString (date : option Z) : Outcome Z :=
  match date with
  | Some t => Ok t
  | None => Throw (RangeError "Invalid time value")
  end.

End Js.

(** ** src/domain/permission.ts *)

Module Permission.

(** [type Permission = `${Resource}:${Action | '*'}`]: a string at run time. *)
Abbreviation Permission := string (only parsing).

Definition PERMISSIONS : list Permission :=
  [ "user:create"; "user:read"; "user:update"; "user:delete"; "user:list";
    "role:read"; "role:list"; "role:assign";
    "session:read"; "session:list"; "session:invalidate";
    "mfa:setup"; "mfa:verify";
    "auth:login"; "auth:logout";
    "audit:read";
    "oauth:read"; "oauth:list"; "oauth:delete" ].

Definition VALID_RESOURCES : list string :=
  [ "user"; "role"; "session"; "mfa"; "auth"; "audit"; "oauth" ].

Definition VALID_ACTIONS : list string :=
  [ "create"; "read"; "update"; "delete"; "assign"; "verify"; "setup";
    "login"; "logout"; "list"; "invalidate"; "rotate" ].

Definition ALL_PERMISSIONS_SET : list Permission := PERMISSIONS.

(** [const [res, act] = value.split(':')]. *)
Definition resourceOf (value : string) : option string :=
  nth_error (Js.split ":" value) 0.

Definition actionOf (value : string) : option string :=
  nth_error (Js.split ":" value) 1.

Definition isPermission (value : string) : bool :=
  let res := resourceOf value in
  let act := actionOf value in
  if Js.falsy res || Js.falsy act then false
  else
    match res, act with
    | Some res, Some act =>
        if negb (Js.has VALID_RESOURCES res) then false
        else if String.eqb act "*" then true
        else Js.has VALID_ACTIONS act
             && Js.has ALL_PERMISSIONS_SET (res ++ ":" ++ act)
    | _, _ => false
    end.

Definition permissionImplies (grant required : Permission) : bool :=
  let gRes := resourceOf grant in
  let gAct := actionOf grant in
  let rRes := resourceOf required in
  let rAct := actionOf required in
  if negb (Js.strictEq gRes rRes) then false
  else if Js.strictEq gAct (Some "*") then true
  else Js.strictEq gAct rAct.

Definition hasPermission (granted : list Permission) (required : Permission) : bool :=
  existsb (fun g => permissionImplies g required) granted.

Definition hasAllPermissions (granted requiredAll : list Permission) : bool :=
  forallb (fun req => hasPermission granted req) requiredAll.

Definition hasAnyPermission (granted requiredAny : list Permission) : bool :=
  existsb (fun req => hasPermission granted req) requiredAny.

(** [ROLE_PRESETS]: a record with exactly these four own properties. *)
Definition ROLE_PRESETS : list (string * list Permission) :=
  [ ("admin",
      [ "user:*"; "role:assign"; "role:read"; "role:list"; "session:list";
        "session:invalidate"; "mfa:setup"; "mfa:verify"; "auth:login";
        "auth:logout"; "audit:read"; "oauth:list"; "oauth:read"; "oauth:delete" ]);
    ("security-analyst",
      [ "user:read"; "user:list"; "role:read"; "role:list"; "session:list";
        "session:read"; "session:invalidate"; "audit:read" ]);
    ("support",
      [ "user:read"; "user:list"; "mfa:verify"; "auth:login"; "auth:logout" ]);
    ("user",
      [ "auth:login"; "auth:logout"; "mfa:setup"; "mfa:verify"; "user:read";
        "user:update" ]) ].

End Permission.

(** ** src/domain/role.ts *)

Module Role.

Import Permission.

Record Role : Type := mkRole {
  name : string;
  permissions : list Permission;
  description : option string
}.

(** [Object.prototype.hasOwnProperty.call(ROLE_PRESETS, name)]. *)
Definition isRoleName (name : string) : bool :=
  match Js.getProp ROLE_PRESETS name with
  | Some _ => true
  | None => false
  end.

Definition getPresetPermissions (name : string) : list Permission :=
  if isRoleName name then
    match Js.getProp ROLE_PRESETS name with
    | Some perms => perms
    | None => []
    end
  else [].

(** [orderIndex]: the position of every catalog permission. *)
Definition orderIndex : list (string * Z) :=
  Js.fromEntries (Js.withIndex 0%Z PERMISSIONS).

(** [orderIndex[a] ?? Number.MAX_SAFE_INTEGER]. *)
Definition orderKey (a : string) : Z :=
  match Js.getProp orderIndex a with
  | Some i => i
  | None => Js.MAX_SAFE_INTEGER
  end.

(** The [for] loop that fills the [Set]. *)
Definition collectUnique (perms : list string) : list Permission :=
  fold_left (fun unique p => if isPermission p then Js.add unique p else unique)
            perms [].

Definition normalizePermissions (perms : list string) : list Permission :=
  let unique := collectUnique perms in
  Js.sort (fun a b => (orderKey a - orderKey b)%Z) unique.

Definition createRole (name : string) (description : option string)
    (extraPermissions : option (list string)) : Role :=
  let base := getPresetPermissions name in
  let extras := match extraPermissions with Some e => e | None => [] end in
  let merged := normalizePermissions (base ++ extras) in
  {| name := name; permissions := merged; description := description |}.

(** An element of the argument of [mergeRolesPermissions]: a [Role], or a
    bare array of permission strings ([isRole] tells them apart). *)
Inductive MergeInput : Type :=
  | OfRole (r : Role)
  | OfList (perms : list string).

Definition mergeRolesPermissions (inputs : list MergeInput) : list Permission :=
  let all :=
    fold_left (fun all i =>
                 match i with
                 | OfRole r => all ++ permissions r
                 | OfList l => all ++ l
                 end) inputs [] in
  normalizePermissions all.

End Role.

(** ** src/domain/session.ts *)

Module Session.

Record Session : Type := mkSession {
  id : string;
  userId : string;
  issuedAt : Z;
  expiresAt : Z;
  lastUsedAt : Z;
  (** a falsy [revokedAt] (absent, [null], ['']) is [None] *)
  revokedAt : option Z;
  ipHash : option string;
  userAgent : option string
}.

Record PublicSession : Type := mkPublicSession {
  pub_id : string;
  pub_userId : string;
  pub_issuedAt : Z;
  pub_expiresAt : Z;
  pub_lastUsedAt : Z;
  pub_isActive : bool
}.

Record CreateParams : Type := mkCreateParams {
  p_id : string;
  p_userId : string;
  p_ttlMinutes : option Js.Number;
  p_now : option Z;
  p_ipHash : option string;
  p_userAgent : option string
}.

(** [createSession(params)]; [clock] is what [new Date()] returns, read only
    when [params.now] is absent. *)
Definition createSession (params : CreateParams) (clock : Z) : Outcome Session :=
  let now := match p_now params with Some d => d | None => clock end in
  let issued := now in
  match
    Js.toISOString
      (Js.timeValue
         (Js.plus (Js.Integer now)
            (Js.times (match p_ttlMinutes params with
                       | Some m => m
                       | None => Js.Integer 60
                       end)
                      (Js.Integer 60000))))
  with
  | Throw e => Throw e
  | Ok exp =>
      Ok {| id := p_id params;
            userId := p_userId params;
            issuedAt := issued;
            expiresAt := exp;
            lastUsedAt := issued;
            revokedAt := None;
            ipHash := p_ipHash params;
            userAgent := p_userAgent params |}
  end.

Definition touchSession (s : Session) (when : Z) : Session :=
  {| id := id s; userId := userId s; issuedAt := issuedAt s;
     expiresAt := expiresAt s; lastUsedAt := when; revokedAt := revokedAt s;
     ipHash := ipHash s; userAgent := userAgent s |}.

Definition revokeSession (s : Session) (when : Z) : Session :=
  {| id := id s; userId := userId s; issuedAt := issuedAt s;
     expiresAt := expiresAt s; lastUsedAt := lastUsedAt s; revokedAt := Some when;
     ipHash := ipHash s; userAgent := userAgent s |}.

Definition isExpired (s : Session) (at_ : Z) : bool :=
  (expiresAt s <=? at_)%Z.

Definition isActive (s : Session) (at_ : Z) : bool :=
  negb (match revokedAt s with Some _ => true | None => false end)
  && negb (isExpired s at_).

Definition toPublicSession (s : Session) (at_ : Z) : PublicSession :=
  {| pub_id := id s; pub_userId := userId s; pub_issuedAt := issuedAt s;
     pub_expiresAt := expiresAt s; pub_lastUsedAt := lastUsedAt s;
     pub_isActive := isActive s at_ |}.

End Session.

(** ** What the sources take from outside

    Library calls and ambient values, as functions.  An observation that can
    differ from call to call (the clock, random bytes, the TOTP window) is a
    function of the number of the observation: the [n]-th observation a run
    makes of the outside has index [n]. *)

Module Env.

Record Runtime : Type := mkRuntime {
  (** [String.prototype.trim] and [toLowerCase]; the test of the e-mail
      regular expression [/^[^\s@]+@[^\s@]+\.[^\s@]+$/] *)
  trim : string -> string;
  toLowerCase : string -> string;
  emailRegExp_test : string -> bool;
  (** [new Date()] and [Date.now()]: the system clock *)
  clock : nat -> Z;
  (** [crypto.randomUUID()] *)
  randomUUID : nat -> string;
  (** bcrypt: [genSalt(rounds)], [hash(plain, salt)], [compare(plain, hash)],
      [getRounds(hash)] ([None] when it throws) *)
  bcrypt_genSalt : nat -> Z -> string;
  bcrypt_hash : string -> string -> string;
  bcrypt_compare : string -> string -> bool;
  bcrypt_getRounds : string -> option Z;
  (** otplib's [authenticator]: [generateSecret()], [keyuri(account, issuer,
      secret)], [verify({token, secret})] *)
  authenticator_generateSecret : nat -> string;
  authenticator_keyuri : string -> string -> string -> string;
  authenticator_verify : nat -> string -> string -> bool;
  (** [process.env]: [HASH_SALT_ROUNDS ?? 10] and
      [SESSION_EXPIRATION_MINUTES ?? 60], as numbers *)
  SALT_ROUNDS : Z;
  DEFAULT_TTL_MIN : Js.Number
}.

End Env.

(** ** src/domain/user.ts *)

Module UserDomain.

Import Permission.

Record User : Type := mkUser {
  id : string;
  email : string;
  passHash : string;
  salt : option string;
  roles : list string;
  extraPermissions : option (list Permission);
  mfaEnabled : option bool;
  mfaSecret : option string;
  recoveryCodes : option (list string);
  failedLoginAttempts : option Z;
  lockedUntil : option Z;
  createdAt : Z;
  updatedAt : Z
}.

Record PublicUser : Type := mkPublicUser {
  pub_id : string;
  pub_email : string;
  pub_roles : list string;
  pub_permissions : list Permission;
  pub_mfaEnabled : bool;
  pub_createdAt : Z;
  pub_updatedAt : Z
}.

(** Field assignments [u.f = v]. *)
Definition set_passHash (v : string) (u : User) : User :=
  mkUser (id u) (email u) v (salt u) (roles u) (extraPermissions u)
         (mfaEnabled u) (mfaSecret u) (recoveryCodes u)
         (failedLoginAttempts u) (lockedUntil u) (createdAt u) (updatedAt u).

Definition set_mfaEnabled (v : option bool) (u : User) : User :=
  mkUser (id u) (email u) (passHash u) (salt u) (roles u) (extraPermissions u)
         v (mfaSecret u) (recoveryCodes u)
         (failedLoginAttempts u) (lockedUntil u) (createdAt u) (updatedAt u).

Definition set_mfaSecret (v : option string) (u : User) : User :=
  mkUser (id u) (email u) (passHash u) (salt u) (roles u) (extraPermissions u)
         (mfaEnabled u) v (recoveryCodes u)
         (failedLoginAttempts u) (lockedUntil u) (createdAt u) (updatedAt u).

Definition set_failedLoginAttempts (v : option Z) (u : User) : User :=
  mkUser (id u) (email u) (passHash u) (salt u) (roles u) (extraPermissions u)
         (mfaEnabled u) (mfaSecret u) (recoveryCodes u)
         v (lockedUntil u) (createdAt u) (updatedAt u).

Definition set_lockedUntil (v : option Z) (u : User) : User :=
  mkUser (id u) (email u) (passHash u) (salt u) (roles u) (extraPermissions u)
         (mfaEnabled u) (mfaSecret u) (recoveryCodes u)
         (failedLoginAttempts u) v (createdAt u) (updatedAt u).

Definition set_updatedAt (v : Z) (u : User) : User :=
  mkUser (id u) (email u) (passHash u) (salt u) (roles u) (extraPermissions u)
         (mfaEnabled u) (mfaSecret u) (recoveryCodes u)
         (failedLoginAttempts u) (lockedUntil u) (createdAt u) v.

Definition getEffectivePermissions (user : User)
    (roleCatalog : option (list Role.Role)) : list Permission :=
  let useCatalog :=
    match roleCatalog with
    | Some catalog => negb (Nat.eqb (List.length catalog) 0)
    | None => false
    end in
  let catalog := match roleCatalog with Some c => c | None => [] end in
  let rolesFromCatalog :=
    if useCatalog then
      fold_left
        (fun acc rName =>
           match find (fun r => String.eqb (Role.name r) rName) catalog with
           | Some r => acc ++ [r]
           | None =>
               if Role.isRoleName rName
               then acc ++ [Role.createRole rName None None]
               else acc
           end)
        (roles user) []
    else
      fold_left
        (fun acc rName =>
           if Role.isRoleName rName
           then acc ++ [Role.createRole rName None None]
           else acc ++ [Role.mkRole rName [] None])
        (roles user) [] in
  Role.mergeRolesPermissions
    (map Role.OfRole rolesFromCatalog
     ++ [Role.OfList (match extraPermissions user with Some e => e | None => [] end)]).

Definition toPublicUser (u : User) (roleCatalog : option (list Role.Role)) : PublicUser :=
  let perms := getEffectivePermissions u roleCatalog in
  {| pub_id := id u;
     pub_email := email u;
     pub_roles := roles u;
     pub_permissions := perms;
     pub_mfaEnabled := match mfaEnabled u with Some b => b | None => false end;
     pub_createdAt := createdAt u;
     pub_updatedAt := updatedAt u |}.

(** user.ts has its own copy of [normalizePermissions]. *)
Definition normalizePermissions (perms : list string) : list Permission :=
  let set := fold_left (fun set p => if isPermission p then Js.add set p else set)
                       perms [] in
  let orderIndex := Js.fromEntries (Js.withIndex 0%Z PERMISSIONS) in
  Js.sort (fun a b =>
             let ai := match Js.getProp orderIndex a with
                       | Some i => i
                       | None => Js.MAX_SAFE_INTEGER
                       end in
             let bi := match Js.getProp orderIndex b with
                       | Some i => i
                       | None => Js.MAX_SAFE_INTEGER
                       end in
             (ai - bi)%Z) set.

Definition normalizeEmail (rt : Env.Runtime) (email : string) : string :=
  Env.toLowerCase rt (Env.trim rt email).

Definition isValidEmail (rt : Env.Runtime) (email : string) : bool :=
  Env.emailRegExp_test rt (normalizeEmail rt email).

(** [touchUpdated(u, when)]; the caller reads the clock for the default. *)
Definition touchUpdated (u : User) (when : Z) : User :=
  set_updatedAt when u.

End UserDomain.

(** ** The repositories and src/services/auth.service.ts *)

Module Auth.

Import Env.

(** What a run does to the outside, in order. *)
Inductive Effect : Type :=
  | UsersWritten (lines : list UserDomain.User)
  | SessionsWritten (lines : list Session.Session)
  | SessionAppended (s : Session.Session)
  | PasswordCompared (plain hash : string)
  | PasswordHashed (plain : string)
  | OtpChecked (token secret : string)
  | SecretGenerated (secret : string).

(** [users] and [sessions]: the records of data/users.txt and
    data/sessions.txt; [tick]: how many observations of the outside were
    made; [effects]: the calls made so far. *)
Record World : Type := mkWorld {
  users : list UserDomain.User;
  sessions : list Session.Session;
  tick : nat;
  effects : list Effect
}.

(** An [async] function: it runs on the world and returns or throws. *)
Definition M (A : Type) : Type := World -> Outcome A * World.

Definition ret {A} (a : A) : M A := fun w => (Ok a, w).

Definition throw {A} (e : Exn) : M A := fun w => (Throw e, w).

Definition bind {A B} (c : M A) (k : A -> M B) : M B :=
  fun w =>
    match c w with
    | (Ok a, w') => k a w'
    | (Throw e, w') => (Throw e, w')
    end.

Notation "x <- c ;; k" := (bind c (fun x => k))
  (at level 61, c at next level, right associativity).
Notation "c ;;; k" := (bind c (fun _ => k))
  (at level 61, right associativity).

(** A call of a synchronous function that returns or throws. *)
Definition call {A} (o : Outcome A) : M A := fun w => (o, w).

Definition observe : M nat :=
  fun w => (Ok (tick w), mkWorld (users w) (sessions w) (S (tick w)) (effects w)).

Definition emit (e : Effect) : M unit :=
  fun w => (Ok tt, mkWorld (users w) (sessions w) (tick w) (effects w ++ [e])).

Definition MAX_FAILED : Z := 5.
Definition LOCK_MINUTES : Z := 15.

Record LoginParams : Type := mkLoginParams {
  l_email : string;
  l_password : string;
  l_otpCode : option string;
  l_ttlMinutes : option Js.Number;
  l_ipHash : option string;
  l_userAgent : option string
}.

Section WithRuntime.

Variable rt : Runtime.

Definition newDate : M Z :=
  n <- observe ;; ret (clock rt n).

(** *** src/storage/user.repository.ts *)

Definition listUsers : M (list UserDomain.User) :=
  fun w => (Ok (users w), w).

Definition writeUsers (lines : list UserDomain.User) : M unit :=
  fun w => (Ok tt, mkWorld lines (sessions w) (tick w)
                           (effects w ++ [UsersWritten lines])).

Definition getUserById (id : string) : M (option UserDomain.User) :=
  users <- listUsers ;;
  ret (find (fun u => String.eqb (UserDomain.id u) id) users).

Definition getUserByEmail (email : string) : M (option UserDomain.User) :=
  let target := UserDomain.normalizeEmail rt email in
  if negb (UserDomain.isValidEmail rt target) then ret None
  else
    users <- listUsers ;;
    ret (find (fun u => String.eqb (UserDomain.normalizeEmail rt (UserDomain.email u))
                                   target) users).

Definition updateUser (updated : UserDomain.User) : M unit :=
  users <- listUsers ;;
  let found :=
    existsb (fun u => String.eqb (UserDomain.id u) (UserDomain.id updated)) users in
  let newLines :=
    map (fun u => if String.eqb (UserDomain.id u) (UserDomain.id updated)
                  then updated else u) users in
  if negb found then throw (Error "USER_NOT_FOUND")
  else writeUsers newLines.

(** *** src/storage/session.repository.ts *)

Definition listSessions : M (list Session.Session) :=
  fun w => (Ok (sessions w), w).

Definition getSessionById (id : string) : M (option Session.Session) :=
  sessions <- listSessions ;;
  ret (find (fun s => String.eqb (Session.id s) id) sessions).

Definition appendSession (session : Session.Session) : M unit :=
  fun w => (Ok tt, mkWorld (users w) (sessions w ++ [session]) (tick w)
                           (effects w ++ [SessionAppended session])).

Definition writeSessions (lines : list Session.Session) : M unit :=
  fun w => (Ok tt, mkWorld (users w) lines (tick w)
                           (effects w ++ [SessionsWritten lines])).

Definition updateSession (updated : Session.Session) : M unit :=
  sessions <- listSessions ;;
  let found :=
    existsb (fun s => String.eqb (Session.id s) (Session.id updated)) sessions in
  let newLines :=
    map (fun s => if String.eqb (Session.id s) (Session.id updated)
                  then updated else s) sessions in
  if negb found then throw (Error "SESSION_NOT_FOUND")
  else writeSessions newLines.

(** *** src/services/password.service.ts *)

Definition hashPassword (plain : string) : M string :=
  n <- observe ;;
  let salt := bcrypt_genSalt rt n (SALT_ROUNDS rt) in
  emit (PasswordHashed plain) ;;;
  ret (bcrypt_hash rt plain salt).

Definition verifyPassword (plain hash : string) : M bool :=
  emit (PasswordCompared plain hash) ;;;
  ret (bcrypt_compare rt plain hash).

Definition needsRehash (hash : string) : bool :=
  match bcrypt_getRounds rt hash with
  | Some rounds => (rounds <? SALT_ROUNDS rt)%Z
  | None => true
  end.

(** *** otplib *)

Definition authenticatorVerify (token secret : string) : M bool :=
  n <- observe ;;
  emit (OtpChecked token secret) ;;;
  ret (authenticator_verify rt n token secret).

Definition authenticatorGenerateSecret : M string :=
  n <- observe ;;
  let secret := authenticator_generateSecret rt n in
  emit (SecretGenerated secret) ;;;
  ret secret.

(** *** src/services/auth.service.ts *)

Definition verifyTotp (user : UserDomain.User) (code : string) : M bool :=
  if Js.falsy (UserDomain.mfaSecret user) then ret false
  else
    match UserDomain.mfaSecret user with
    | Some secret => authenticatorVerify code secret
    | None => ret false
    end.

Definition bumpFailed (user : UserDomain.User) : M unit :=
  let fails :=
    ((match UserDomain.failedLoginAttempts user with Some n => n | None => 0 end) + 1)%Z in
  let user := UserDomain.set_failedLoginAttempts (Some fails) user in
  user <- (if (MAX_FAILED <=? fails)%Z then
             dateNow <- newDate ;;
             let until := (dateNow + LOCK_MINUTES * 60000)%Z in
             ret (UserDomain.set_lockedUntil (Some until) user)
           else ret user) ;;
  when <- newDate ;;
  let user := UserDomain.touchUpdated user when in
  updateUser user.

(** [user.lockedUntil && user.lockedUntil > 0 && user.lockedUntil > now.getTime()] *)
Definition isLocked (user : UserDomain.User) (now : Z) : bool :=
  match UserDomain.lockedUntil user with
  | Some l => negb (l =? 0)%Z && (0 <? l)%Z && (now <? l)%Z
  | None => false
  end.

Definition loginUser (params : LoginParams)
    : M (Session.PublicSession * UserDomain.PublicUser) :=
  let email := UserDomain.normalizeEmail rt (l_email params) in
  found <- getUserByEmail email ;;
  match found with
  | None => throw (AuthError USER_NOT_FOUND)
  | Some user =>
      now <- newDate ;;
      if isLocked user now then throw (AuthError ACCOUNT_LOCKED)
      else
        ok <- verifyPassword (l_password params) (UserDomain.passHash user) ;;
        if negb ok then
          bumpFailed user ;;;
          throw (AuthError INVALID_CREDENTIALS)
        else
          user <- (if needsRehash (UserDomain.passHash user) then
                     h <- hashPassword (l_password params) ;;
                     ret (UserDomain.set_passHash h user)
                   else ret user) ;;
          (if match UserDomain.mfaEnabled user with Some b => b | None => false end
           then
             if Js.falsy (l_otpCode params) then throw (AuthError MFA_REQUIRED)
             else
               mfaOk <- verifyTotp user
                          (match l_otpCode params with Some c => c | None => "" end) ;;
               if negb mfaOk then
                 bumpFailed user ;;;
                 throw (AuthError MFA_INVALID)
               else ret tt
           else ret tt) ;;;
          let user := UserDomain.set_failedLoginAttempts (Some 0%Z) user in
          let user := UserDomain.set_lockedUntil (Some 0%Z) user in
          when <- newDate ;;
          let user := UserDomain.touchUpdated user when in
          updateUser user ;;;
          n <- observe ;;
          clockNow <- newDate ;;
          session <- call
            (Session.createSession
               {| Session.p_id := randomUUID rt n;
                  Session.p_userId := UserDomain.id user;
                  Session.p_ttlMinutes :=
                    Some (match l_ttlMinutes params with
                          | Some m => m
                          | None => DEFAULT_TTL_MIN rt
                          end);
                  Session.p_now := None;
                  Session.p_ipHash := l_ipHash params;
                  Session.p_userAgent := l_userAgent params |}
               clockNow) ;;
          appendSession session ;;;
          at_ <- newDate ;;
          ret (Session.toPublicSession session at_,
               UserDomain.toPublicUser user None)
  end.

Definition logoutSession (sessionId : string) : M Session.PublicSession :=
  found <- getSessionById sessionId ;;
  match found with
  | None => throw (AuthError SESSION_NOT_FOUND)
  | Some s =>
      at_ <- newDate ;;
      if negb (Session.isActive s at_) then throw (AuthError SESSION_INACTIVE)
      else
        when <- newDate ;;
        let s := Session.revokeSession s when in
        updateSession s ;;;
        at' <- newDate ;;
        ret (Session.toPublicSession s at')
  end.

Definition setupMfa (userId : string) (issuer : string) : M (string * string) :=
  found <- getUserById userId ;;
  match found with
  | None => throw (AuthError USER_NOT_FOUND)
  | Some user =>
      secret <- authenticatorGenerateSecret ;;
      let otpauth := authenticator_keyuri rt (UserDomain.email user) issuer secret in
      let user := UserDomain.set_mfaSecret (Some secret) user in
      let user := UserDomain.set_mfaEnabled (Some false) user in
      when <- newDate ;;
      let user := UserDomain.touchUpdated user when in
      updateUser user ;;;
      ret (secret, otpauth)
  end.

Definition verifyMfa (userId : string) (code : string) : M bool :=
  found <- getUserById userId ;;
  match found with
  | None => throw (AuthError USER_NOT_FOUND)
  | Some user =>
      if Js.falsy (UserDomain.mfaSecret user) then throw (AuthError MFA_NOT_ENABLED)
      else
        ok <- authenticatorVerify code
                (match UserDomain.mfaSecret user with Some s => s | None => "" end) ;;
        (if ok then
           let user := UserDomain.set_mfaEnabled (Some true) user in
           when <- newDate ;;
           let user := UserDomain.touchUpdated user when in
           updateUser user
         else ret tt) ;;;
        ret ok
  end.

End WithRuntime.

End Auth.

(** ** src/domain/role.ts and src/domain/user.ts: the remaining functions *)

Module RoleChecks.

(** [isValidRole(obj)] for an object of the shape of a [Role]: the tests on
    the types of [name] and [permissions] pass, and every permission is
    checked. *)
Definition isValidRole (obj : Role.Role) : bool :=
  forallb Permission.isPermission (Role.permissions obj).

End RoleChecks.

Module UserCreation.

Import Permission.

Record CreateUserParams : Type := mkCreateUserParams {
  c_id : string;
  c_email : string;
  c_passHash : string;
  c_roles : option (list string);
  c_extraPermissions : option (list string);
  c_mfaEnabled : option bool;
  c_mfaSecret : option string;
  c_recoveryCodes : option (list string);
  c_now : option Z
}.

(** [Array.from(new Set(roles.map(r => r.trim()).filter(Boolean)))] *)
Definition normalizeRoles (rt : Env.Runtime) (roles : list string) : list string :=
  fold_left Js.add
    (filter (fun r => negb (String.eqb r "")) (map (Env.trim rt) roles)) [].

(** [createUser(params)]; [clock] is what [new Date()] returns, read only
    when [params.now] is absent. *)
Definition createUser (rt : Env.Runtime) (params : CreateUserParams) (clock : Z)
    : UserDomain.User :=
  let now := match c_now params with Some d => d | None => clock end in
  let normalizedExtras :=
    UserDomain.normalizePermissions
      (match c_extraPermissions params with Some e => e | None => [] end) in
  {| UserDomain.id := c_id params;
     UserDomain.email := UserDomain.normalizeEmail rt (c_email params);
     UserDomain.passHash := c_passHash params;
     UserDomain.salt := None;
     UserDomain.roles :=
       normalizeRoles rt (match c_roles params with Some r => r | None => ["user"] end);
     UserDomain.extraPermissions := Some normalizedExtras;
     UserDomain.mfaEnabled :=
       Some (match c_mfaEnabled params with Some b => b | None => false end);
     UserDomain.mfaSecret := c_mfaSecret params;
     UserDomain.recoveryCodes := c_recoveryCodes params;
     UserDomain.failedLoginAttempts := Some 0%Z;
     UserDomain.lockedUntil := Some 0%Z;
     UserDomain.createdAt := now;
     UserDomain.updatedAt := now |}.

Definition userCan (user : UserDomain.User) (required : Permission)
    (roleCatalog : option (list Role.Role)) : bool :=
  let perms := UserDomain.getEffectivePermissions user roleCatalog in
  hasPermission perms required.

End UserCreation.

(** ** src/services/rbac.service.ts *)

Module Rbac.

Import Permission.

Definition userHasAll (user : UserDomain.User) (requiredAll : list Permission)
    (roleCatalog : option (list Role.Role)) : bool :=
  let granted := UserDomain.getEffectivePermissions user roleCatalog in
  hasAllPermissions granted requiredAll.

Definition userHasAny (user : UserDomain.User) (requiredAny : list Permission)
    (roleCatalog : option (list Role.Role)) : bool :=
  let granted := UserDomain.getEffectivePermissions user roleCatalog in
  hasAnyPermission granted requiredAny.

(** The two assertions return, or throw a plain [Error] whose message lists
    what was required ([requiredAll.join(', ')]). *)
Definition assertAllPermissions (user : UserDomain.User)
    (requiredAll : list Permission) (roleCatalog : option (list Role.Role))
    : Outcome unit :=
  if negb (userHasAll user requiredAll roleCatalog) then
    let missing := String.concat ", " requiredAll in
    Throw (Error ("Permisos insuficientes. Requiere: [" ++ missing ++ "]"))
  else Ok tt.

Definition assertAnyPermission (user : UserDomain.User)
    (requiredAny : list Permission) (roleCatalog : option (list Role.Role))
    : Outcome unit :=
  if negb (userHasAny user requiredAny roleCatalog) then
    let list := String.concat ", " requiredAny in
    Throw (Error ("Permisos insuficientes. Requiere alguno de: [" ++ list ++ "]"))
  else Ok tt.

End Rbac.

(** ** src/services/password.service.ts: validatePasswordStrength

    A password is a string of code units below 256; the character classes of
    the regular expressions are read on them. *)

Module Password.

(** The error messages of [validatePasswordStrength], in the order it
    pushes them: too short, no lower-case letter, no upper-case letter, no
    digit, no symbol. *)
Inductive StrengthError : Type :=
  | TooShort
  | NoLowercase
  | NoUppercase
  | NoDigit
  | NoSymbol.

(** [re.test(s)] for a regular expression that is one character class. *)
Fixpoint testClass (class : ascii -> bool) (s : string) : bool :=
  match s with
  | EmptyString => false
  | String c s' => class c || testClass class s'
  end.

Definition between (lo hi : nat) (c : ascii) : bool :=
  Nat.leb lo (nat_of_ascii c) && Nat.leb (nat_of_ascii c) hi.

(** [[a-z]], [[A-Z]], [[0-9]] *)
Definition lowercase (c : ascii) : bool := between 97 122 c.
Definition uppercase (c : ascii) : bool := between 65 90 c.
Definition digit (c : ascii) : bool := between 48 57 c.

(** [\w] is [[A-Za-z0-9_]]; [\s] below 256 is tab, line feed, vertical tab,
    form feed, carriage return, space and the no-break space. *)
Definition wordChar (c : ascii) : bool :=
  lowercase c || uppercase c || digit c || Nat.eqb (nat_of_ascii c) 95.

Definition spaceChar (c : ascii) : bool :=
  between 9 13 c || Nat.eqb (nat_of_ascii c) 32 || Nat.eqb (nat_of_ascii c) 160.

(** [[^\w\s]] *)
Definition symbol (c : ascii) : bool := negb (wordChar c || spaceChar c).

Record Strength : Type := mkStrength {
  ok : bool;
  errors : list StrengthError
}.

Definition validatePasswordStrength (pass : string) : Strength :=
  let errors := [] in
  let errors := if Nat.ltb (String.length pass) 8 then errors ++ [TooShort] else errors in
  let errors := if negb (testClass lowercase pass) then errors ++ [NoLowercase] else errors in
  let errors := if negb (testClass uppercase pass) then errors ++ [NoUppercase] else errors in
  let errors := if negb (testClass digit pass) then errors ++ [NoDigit] else errors in
  let errors := if negb (testClass symbol pass) then errors ++ [NoSymbol] else errors in
  {| ok := Nat.eqb (List.length errors) 0; errors := errors |}.

End Password.

(** ** The repositories: the remaining functions; registerUser *)

Module Storage.

Import Env Auth.

Section WithRuntime.

Variable rt : Runtime.

(** *** src/storage/user.repository.ts *)

(** [appendLine]: the effect recorded is the file after the append. *)
Definition appendUser (user : UserDomain.User) : M unit :=
  fun w => (Ok tt, mkWorld (users w ++ [user]) (sessions w) (tick w)
                           (effects w ++ [UsersWritten (users w ++ [user])])).

Definition addUser (user : UserDomain.User) : M unit :=
  existing <- getUserByEmail rt (UserDomain.email user) ;;
  match existing with
  | Some _ => throw (Error "EMAIL_ALREADY_EXISTS")
  | None => appendUser user
  end.

(** *** src/storage/session.repository.ts *)

Definition listSessionsByUser (userId : string) : M (list Session.Session) :=
  sessions <- listSessions ;;
  ret (filter (fun s => String.eqb (Session.userId s) userId) sessions).

(** [listActiveSessionsByUser(userId, at)]; the caller reads the clock for
    the default of [at]. *)
Definition listActiveSessionsByUser (userId : string) (at_ : Z)
    : M (list Session.Session) :=
  sessions <- listSessionsByUser userId ;;
  ret (filter (fun s => Session.isActive s at_) sessions).

(** *** src/services/auth.service.ts: registerUser *)

Record RegisterParams : Type := mkRegisterParams {
  r_email : string;
  r_password : string;
  r_roles : option (list string);
  r_extraPermissions : option (list string)
}.

Definition registerUser (params : RegisterParams) : M UserDomain.PublicUser :=
  let email := UserDomain.normalizeEmail rt (r_email params) in
  if negb (UserDomain.isValidEmail rt email) then throw (AuthError INVALID_EMAIL)
  else
    let strength := Password.validatePasswordStrength (r_password params) in
    if negb (Password.ok strength) then throw (AuthError WEAK_PASSWORD)
    else
      existing <- getUserByEmail rt email ;;
      match existing with
      | Some _ => throw (AuthError EMAIL_TAKEN)
      | None =>
          passHash <- hashPassword rt (r_password params) ;;
          n <- observe ;;
          clockNow <- newDate rt ;;
          let user :=
            UserCreation.createUser rt
              {| UserCreation.c_id := randomUUID rt n;
                 UserCreation.c_email := email;
                 UserCreation.c_passHash := passHash;
                 UserCreation.c_roles :=
                   Some (match r_roles params with Some r => r | None => ["user"] end);
                 UserCreation.c_extraPermissions :=
                   Some (match r_extraPermissions params with
                         | Some e => e
                         | None => []
                         end);
                 UserCreation.c_mfaEnabled := None;
                 UserCreation.c_mfaSecret := None;
                 UserCreation.c_recoveryCodes := None;
                 UserCreation.c_now := None |}
              clockNow in
          addUser user ;;;
          ret (UserDomain.toPublicUser user None)
      end.

End WithRuntime.

End Storage.

(** ** src/storage/role.repository.ts

    data/roles.txt is the list of the role-shaped objects its lines parse
    to; a line that does not parse is not in the list. *)

Module RoleRepository.

Import Env.

(** A function of the repository runs on the lines of the file. *)
Definition Lines : Type := list Role.Role.

Definition R (A : Type) : Type := Lines -> Outcome A * Lines.

Definition ret {A} (a : A) : R A := fun lines => (Ok a, lines).

Definition throw {A} (e : Exn) : R A := fun lines => (Throw e, lines).

Definition bind {A B} (c : R A) (k : A -> R B) : R B :=
  fun lines =>
    match c lines with
    | (Ok a, lines') => k a lines'
    | (Throw e, lines') => (Throw e, lines')
    end.

Notation "x <- c ;; k" := (bind c (fun x => k))
  (at level 61, c at next level, right associativity).
Notation "c ;;; k" := (bind c (fun _ => k))
  (at level 61, right associativity).

Definition readLines : R Lines := fun lines => (Ok lines, lines).

Definition writeLines (updated : Lines) : R unit := fun _ => (Ok tt, updated).

Definition appendLine (role : Role.Role) : R unit :=
  fun lines => (Ok tt, lines ++ [role]).

Record UpsertParams : Type := mkUpsertParams {
  u_name : string;
  u_permissions : option (list string);
  u_description : option string
}.

Section WithRuntime.

Variable rt : Runtime.

Definition normalizeRoleRecord (obj : Role.Role) : option Role.Role :=
  let name := trim rt (Role.name obj) in
  if String.eqb name "" then None
  else
    let perms := Role.permissions obj in
    let normalized := Role.normalizePermissions perms in
    let out := Role.mkRole name normalized (Role.description obj) in
    if RoleChecks.isValidRole out then Some out else None.

Definition listRoles : R (list Role.Role) :=
  lines <- readLines ;;
  ret (fold_left
         (fun out ln =>
            match normalizeRoleRecord ln with
            | Some norm => out ++ [norm]
            | None => out
            end) lines []).

(** [String(r.name).trim() === String(name).trim()] *)
Definition sameName (name : string) (r : Role.Role) : bool :=
  String.eqb (trim rt (Role.name r)) (trim rt name).

Definition getRoleByName (name : string) : R (option Role.Role) :=
  roles <- listRoles ;;
  ret (find (sameName name) roles).

(** [upsertRole]; its result is [null] ([None]) when the role it wrote is
    not found again. *)
Definition upsertRole (params : UpsertParams) : R (option Role.Role) :=
  let name := trim rt (u_name params) in
  if String.eqb name "" then throw (Error "ROLE_NAME_REQUIRED")
  else
    let perms :=
      Role.normalizePermissions
        (match u_permissions params with Some p => p | None => [] end) in
    all <- listRoles ;;
    let found := existsb (fun r => String.eqb (trim rt (Role.name r)) name) all in
    let updated :=
      map (fun r =>
             if String.eqb (trim rt (Role.name r)) name
             then Role.mkRole name perms
                    (match u_description params with
                     | Some d => Some d
                     | None => Role.description r
                     end)
             else r) all in
    let updated :=
      if negb found
      then updated ++ [Role.mkRole name perms (u_description params)]
      else updated in
    if negb (forallb RoleChecks.isValidRole updated)
    then throw (Error "INVALID_ROLE_RECORD")
    else
      writeLines updated ;;;
      getRoleByName name.

Definition addRole (role : Role.Role) : R unit :=
  if negb (RoleChecks.isValidRole role) then throw (Error "INVALID_ROLE_RECORD")
  else
    existing <- getRoleByName (Role.name role) ;;
    match existing with
    | Some _ => throw (Error "ROLE_ALREADY_EXISTS")
    | None => appendLine role
    end.

Definition deleteRole (name : string) : R bool :=
  all <- listRoles ;;
  let remaining := filter (fun r => negb (sameName name r)) all in
  let changed := negb (Nat.eqb (List.length remaining) (List.length all)) in
  (if changed then writeLines remaining else ret tt) ;;;
  ret changed.

Definition seedRolePresetsIfEmpty : R unit :=
  curr <- listRoles ;;
  if Nat.ltb 0 (List.length curr) then ret tt
  else
    let toWrite :=
      map (fun entry =>
             Role.createRole (fst entry) (Some ("Preset " ++ fst entry)%string)
                             (Some (snd entry)))
          Permission.ROLE_PRESETS in
    writeLines toWrite.

Definition addPermissionsToRole (name : string) (extras : list string)
    : R (option Role.Role) :=
  current <- getRoleByName name ;;
  match current with
  | None => throw (Error "ROLE_NOT_FOUND")
  | Some current =>
      let merged := Role.normalizePermissions (Role.permissions current ++ extras) in
      upsertRole {| u_name := name;
                    u_permissions := Some merged;
                    u_description := Role.description current |}
  end.

Definition replaceRolePermissions (name : string) (permissions : list string)
    : R (option Role.Role) :=
  let perms := Role.normalizePermissions permissions in
  upsertRole {| u_name := name; u_permissions := Some perms; u_description := None |}.

End WithRuntime.

End RoleRepository.

(** * The vocabulary of the statements

    Definitions the lemmas are stated with: what a sub-step leaves behind,
    closed forms, and the wording of the specification where a result is
    compared with it. *)

Section StringVocabulary.

(** A string without the separator. *)
Fixpoint freeOf (sep : ascii) (s : string) : bool :=
  match s with
  | EmptyString => true
  | String c s' => negb (Ascii.eqb c sep) && freeOf sep s'
  end.

End StringVocabulary.

Section SortVocabulary.

Context {A : Type}.
Variable key : A -> Z.

Definition leKey (a b : A) : Prop := (key a <= key b)%Z.

End SortVocabulary.

Section NormalizeVocabulary.

Import Permission.

(** One turn of the loop that fills the [Set], and the loop from a given
    state of the [Set]. *)
Definition collectStep (unique : list Permission) (p : string) : list Permission :=
  if isPermission p then Js.add unique p else unique.

Definition collectFrom (unique : list Permission) (perms : list string) : list Permission :=
  fold_left collectStep perms unique.

(** Outside of the catalog: the entries that sort last. *)
Definition outsideCatalog (p : string) : bool := negb (Js.has PERMISSIONS p).

(** The catalog entries that occur in the input, in catalog order. *)
Definition catalogPart (perms : list string) : list Permission :=
  filter (Js.has perms) PERMISSIONS.

(** The valid entries outside of the catalog (the wildcards), each once, in
    the order of their first occurrence in the input. *)
Definition wildcardPart (perms : list string) : list Permission :=
  filter outsideCatalog (Role.collectUnique perms).

End NormalizeVocabulary.

Section EffectivePermissionsVocabulary.

Import Permission.

(** The permissions one role name of the user stands for, in the words of
    the specification: the catalog entry of that name if there is one,
    otherwise the built-in preset of that name, otherwise nothing. *)
Definition resolveRole (roleCatalog : list Role.Role) (rName : string)
    : list Permission :=
  match find (fun r => String.eqb (Role.name r) rName) roleCatalog with
  | Some r => Role.permissions r
  | None =>
      match Js.getProp ROLE_PRESETS rName with
      | Some preset => preset
      | None => []
      end
  end.

(** The effective permissions in the words of the specification. *)
Definition effectivePermissionsSpec (user : UserDomain.User)
    (roleCatalog : list Role.Role) : list Permission :=
  Role.normalizePermissions
    (flat_map (resolveRole roleCatalog) (UserDomain.roles user)
     ++ match UserDomain.extraPermissions user with Some e => e | None => [] end).

(** What the loop over [user.roles] pushes for one role name. *)
Definition pushedRoles (roleCatalog : list Role.Role) (rName : string)
    : list Role.Role :=
  match find (fun r => String.eqb (Role.name r) rName) roleCatalog with
  | Some r => [r]
  | None => if Role.isRoleName rName then [Role.createRole rName None None] else []
  end.

Definition inputPermissions (i : Role.MergeInput) : list string :=
  match i with
  | Role.OfRole r => Role.permissions r
  | Role.OfList l => l
  end.

End EffectivePermissionsVocabulary.

Section SessionVocabulary.

Import Session.

Local Open Scope Z_scope.

(** What can happen to a session record: the two mutators of session.ts. *)
Inductive evolves : Session -> Session -> Prop :=
  | evolves_refl (s : Session) : evolves s s
  | evolves_touch (s s' : Session) (when : Z) :
      evolves s s' -> evolves s (touchSession s' when)
  | evolves_revoke (s s' : Session) (when : Z) :
      evolves s s' -> evolves s (revokeSession s' when).

(** The TTL [createSession] works with: [params.ttlMinutes ?? 60]. *)
Definition effectiveTtl (params : CreateParams) : Js.Number :=
  match p_ttlMinutes params with Some m => m | None => Js.Integer 60 end.


End SessionVocabulary.

Section AuthVocabulary.

Import Env Auth.

Local Open Scope Z_scope.

Variable rt : Runtime.

(** [updateUser] and [updateSession] replace every record of that id. *)
Definition replaceUser (updated : UserDomain.User) (l : list UserDomain.User)
    : list UserDomain.User :=
  map (fun u => if String.eqb (UserDomain.id u) (UserDomain.id updated)
                then updated else u) l.

Definition replaceSession (updated : Session.Session) (l : list Session.Session)
    : list Session.Session :=
  map (fun s => if String.eqb (Session.id s) (Session.id updated)
                then updated else s) l.

(** The world after one more observation of the outside. *)
Definition observed (w : World) : World :=
  mkWorld (users w) (sessions w) (S (tick w)) (effects w).

(** The world after a call was recorded. *)
Definition emitted (e : Effect) (w : World) : World :=
  mkWorld (users w) (sessions w) (tick w) (effects w ++ [e]).

Definition byEmail (target : string) (u : UserDomain.User) : bool :=
  String.eqb (UserDomain.normalizeEmail rt (UserDomain.email u)) target.

Definition byId (id : string) (u : UserDomain.User) : bool :=
  String.eqb (UserDomain.id u) id.

(** [user.failedLoginAttempts ?? 0] *)
Definition attempts (u : UserDomain.User) : Z :=
  match UserDomain.failedLoginAttempts u with Some n => n | None => 0 end.

(** The record [bumpFailed] writes when its first observation of the
    outside has index [n], and the number of observations it makes. *)
Definition bumped (user : UserDomain.User) (n : nat) : UserDomain.User :=
  let u1 := UserDomain.set_failedLoginAttempts (Some (attempts user + 1)) user in
  if MAX_FAILED <=? attempts user + 1
  then UserDomain.touchUpdated
         (UserDomain.set_lockedUntil (Some (clock rt n + LOCK_MINUTES * 60000)) u1)
         (clock rt (S n))
  else UserDomain.touchUpdated u1 (clock rt n).

Definition bumpReads (user : UserDomain.User) : nat :=
  if MAX_FAILED <=? attempts user + 1 then 2%nat else 1%nat.

Definition afterBump (user : UserDomain.User) (w : World) : World :=
  mkWorld (replaceUser (bumped user (tick w)) (users w)) (sessions w)
          (tick w + bumpReads user)
          (effects w ++ [UsersWritten (replaceUser (bumped user (tick w)) (users w))]).

(** What [bumpFailed] does to the record, field by field: [user'] is [user]
    with one more failed attempt, locked for 15 minutes from [t] when that
    makes five or more. *)
Definition isBumpOf (user user' : UserDomain.User) (t : Z) : Prop :=
  UserDomain.failedLoginAttempts user' = Some (attempts user + 1)
  /\ (attempts user + 1 >= 5 ->
      UserDomain.lockedUntil user' = Some (t + 15 * 60000))
  /\ (attempts user + 1 < 5 ->
      UserDomain.lockedUntil user' = UserDomain.lockedUntil user)
  /\ UserDomain.id user' = UserDomain.id user
  /\ UserDomain.email user' = UserDomain.email user
  /\ UserDomain.roles user' = UserDomain.roles user
  /\ UserDomain.extraPermissions user' = UserDomain.extraPermissions user
  /\ UserDomain.mfaEnabled user' = UserDomain.mfaEnabled user
  /\ UserDomain.mfaSecret user' = UserDomain.mfaSecret user.

(** The record after the re-hash stage; [n] is the index of the observation
    that draws the salt. *)
Definition rehashed (params : LoginParams) (user : UserDomain.User) (n : nat)
    : UserDomain.User :=
  if needsRehash rt (UserDomain.passHash user)
  then UserDomain.set_passHash
         (bcrypt_hash rt (l_password params) (bcrypt_genSalt rt n (SALT_ROUNDS rt)))
         user
  else user.

(** The world after the password was compared and, if need be, hashed anew. *)
Definition afterPassword (params : LoginParams) (user : UserDomain.User) (w : World)
    : World :=
  let w1 := emitted (PasswordCompared (l_password params) (UserDomain.passHash user))
                    (observed w) in
  if needsRehash rt (UserDomain.passHash user)
  then emitted (PasswordHashed (l_password params)) (observed w1)
  else w1.

(** [verifyTotp]: its answer when the provider is asked at observation [n],
    and the world after it. *)
Definition totpAccepts (user : UserDomain.User) (code : string) (n : nat) : bool :=
  match UserDomain.mfaSecret user with
  | Some secret => negb (String.eqb secret "") && authenticator_verify rt n code secret
  | None => false
  end.

Definition afterTotp (user : UserDomain.User) (code : string) (w : World) : World :=
  match UserDomain.mfaSecret user with
  | Some secret =>
      if String.eqb secret "" then w
      else emitted (OtpChecked code secret) (observed w)
  | None => w
  end.

(** The end of [loginUser], once the credentials are accepted. *)
Definition completeLogin (params : LoginParams) (user : UserDomain.User)
    : M (Session.PublicSession * UserDomain.PublicUser) :=
  let user := UserDomain.set_failedLoginAttempts (Some 0) user in
  let user := UserDomain.set_lockedUntil (Some 0) user in
  bind (newDate rt) (fun when =>
  let user := UserDomain.touchUpdated user when in
  bind (updateUser user) (fun _ =>
  bind observe (fun n =>
  bind (newDate rt) (fun clockNow =>
  bind (call
          (Session.createSession
             {| Session.p_id := randomUUID rt n;
                Session.p_userId := UserDomain.id user;
                Session.p_ttlMinutes :=
                  Some (match l_ttlMinutes params with
                        | Some m => m
                        | None => DEFAULT_TTL_MIN rt
                        end);
                Session.p_now := None;
                Session.p_ipHash := l_ipHash params;
                Session.p_userAgent := l_userAgent params |}
             clockNow)) (fun session =>
  bind (appendSession session) (fun _ =>
  bind (newDate rt) (fun at_ =>
  ret (Session.toPublicSession session at_,
       UserDomain.toPublicUser user None)))))))).

Definition mfaOn (user : UserDomain.User) : bool :=
  match UserDomain.mfaEnabled user with Some b => b | None => false end.

Definition otpCodeOf (params : LoginParams) : string :=
  match l_otpCode params with Some c => c | None => "" end.

Fixpoint runLogins (attemptsList : list LoginParams) (w : World)
    : list (Outcome (Session.PublicSession * UserDomain.PublicUser)) * World :=
  match attemptsList with
  | [] => ([], w)
  | params :: rest =>
      let (outcome, w1) := loginUser rt params w in
      let (outcomes, w2) := runLogins rest w1 in
      (outcome :: outcomes, w2)
  end.

(** A login that failed on the password or on the MFA code. *)
Definition credentialFailure
    (o : Outcome (Session.PublicSession * UserDomain.PublicUser)) : Prop :=
  o = Throw (AuthError INVALID_CREDENTIALS) \/ o = Throw (AuthError MFA_INVALID).

Definition sessionById (id : string) (s : Session.Session) : bool :=
  String.eqb (Session.id s) id.

(** The world after a logout that went through. *)
Definition afterLogout (s : Session.Session) (w : World) : World :=
  let s' := Session.revokeSession s (clock rt (S (tick w))) in
  mkWorld (users w) (replaceSession s' (sessions w)) (S (S (S (tick w))))
          (effects w ++ [SessionsWritten (replaceSession s' (sessions w))]).

(** The records [setupMfa] and a successful [verifyMfa] write. *)
Definition withPendingSecret (user : UserDomain.User) (secret : string) (when : Z)
    : UserDomain.User :=
  UserDomain.touchUpdated
    (UserDomain.set_mfaEnabled (Some false)
       (UserDomain.set_mfaSecret (Some secret) user)) when.

Definition withMfaEnabled (user : UserDomain.User) (when : Z) : UserDomain.User :=
  UserDomain.touchUpdated (UserDomain.set_mfaEnabled (Some true) user) when.

Definition afterSetupMfa (user : UserDomain.User) (w : World) : World :=
  let secret := authenticator_generateSecret rt (tick w) in
  let user' := withPendingSecret user secret (clock rt (S (tick w))) in
  mkWorld (replaceUser user' (users w)) (sessions w) (S (S (tick w)))
          (effects w ++ [SecretGenerated secret;
                         UsersWritten (replaceUser user' (users w))]).

Definition afterVerifyMfa (user : UserDomain.User) (code secret : string) (w : World)
    : World :=
  let user' := withMfaEnabled user (clock rt (S (tick w))) in
  mkWorld (replaceUser user' (users w)) (sessions w) (S (S (tick w)))
          (effects w ++ [OtpChecked code secret;
                         UsersWritten (replaceUser user' (users w))]).

End AuthVocabulary.

(** ** A concrete runtime and store, and runs on them *)

Module Demo.

Import Env Auth.

Local Open Scope Z_scope.

(** A runtime whose clock advances one second per observation, whose bcrypt
    prefixes the password, and whose authenticator accepts the code 123456. *)
Definition runtime : Runtime :=
  {| trim := fun s => s;
     toLowerCase := fun s => s;
     emailRegExp_test := fun s => negb (String.eqb s "");
     clock := fun n => 1700000000000 + 1000 * Z.of_nat n;
     randomUUID := fun _ => "6f1c";
     bcrypt_genSalt := fun _ _ => "salt";
     bcrypt_hash := fun plain _ => ("hash:" ++ plain)%string;
     bcrypt_compare := fun plain hash => String.eqb hash ("hash:" ++ plain)%string;
     bcrypt_getRounds := fun _ => Some 10;
     authenticator_generateSecret := fun _ => "JBSWY3DP";
     authenticator_keyuri :=
       fun account issuer secret => ("otpauth://totp/" ++ issuer ++ ":" ++ account)%string;
     authenticator_verify := fun _ token _ => String.eqb token "123456";
     SALT_ROUNDS := 10;
     DEFAULT_TTL_MIN := Js.Integer 60 |}.

Definition alice : UserDomain.User :=
  {| UserDomain.id := "u1";
     UserDomain.email := "alice@example.com";
     UserDomain.passHash := "hash:S3gura!2024";
     UserDomain.salt := None;
     UserDomain.roles := ["user"];
     UserDomain.extraPermissions := Some [];
     UserDomain.mfaEnabled := Some true;
     UserDomain.mfaSecret := Some "JBSWY3DP";
     UserDomain.recoveryCodes := None;
     UserDomain.failedLoginAttempts := Some 0;
     UserDomain.lockedUntil := Some 0;
     UserDomain.createdAt := 1690000000000;
     UserDomain.updatedAt := 1690000000000 |}.

(** [alice], locked until half an hour after the first clock reading. *)
Definition lockedAlice : UserDomain.User :=
  UserDomain.set_lockedUntil (Some 1700001800000)
    (UserDomain.set_failedLoginAttempts (Some 5) alice).

Definition session1 : Session.Session :=
  {| Session.id := "s1";
     Session.userId := "u1";
     Session.issuedAt := 1699999000000;
     Session.expiresAt := 1700002600000;
     Session.lastUsedAt := 1699999000000;
     Session.revokedAt := None;
     Session.ipHash := None;
     Session.userAgent := Some "auth-cli" |}.

Definition world : World := mkWorld [alice] [session1] 0 [].

Definition lockedWorld : World := mkWorld [lockedAlice] [session1] 0 [].

Definition wrongPassword : LoginParams :=
  mkLoginParams "alice@example.com" "guess" None None None None.

Definition wrongCode : LoginParams :=
  mkLoginParams "alice@example.com" "S3gura!2024" (Some "000000") None None None.

Definition rightLogin : LoginParams :=
  mkLoginParams "alice@example.com" "S3gura!2024" (Some "123456") None None None.

(** A stored catalog with one custom role, and a user that names it, a
    preset that the catalog lacks and a role nobody defines. *)
Definition roleCatalog : list Role.Role :=
  [ Role.mkRole "auditor" ["audit:read"; "session:*"] (Some "Reads the trail") ].


End Demo.


(** ** More vocabulary: the rest of the code *)

Section MoreVocabulary.

Import Permission.

(** What [getEffectivePermissions] pushes for one role name when it has no
    catalog to look in. *)
Definition presetRole (rName : string) : Role.Role :=
  if Role.isRoleName rName
  then Role.createRole rName None None
  else Role.mkRole rName [] None.

End MoreVocabulary.

Section MoreAuthVocabulary.

Import Env Auth.

Local Open Scope Z_scope.

Variable rt : Runtime.

(** The record a login that went through writes. *)
Definition loggedIn (user : UserDomain.User) (when : Z) : UserDomain.User :=
  UserDomain.touchUpdated
    (UserDomain.set_lockedUntil (Some 0)
       (UserDomain.set_failedLoginAttempts (Some 0) user)) when.

(** [params.ttlMinutes ?? DEFAULT_TTL_MIN] *)
Definition loginTtl (params : LoginParams) : Js.Number :=
  match l_ttlMinutes params with Some m => m | None => DEFAULT_TTL_MIN rt end.

(** What [createSession] answers in a login whose credentials were accepted
    at observation [n]. *)
Definition loginSession (params : LoginParams) (user : UserDomain.User) (n : nat)
    : Outcome Session.Session :=
  Session.createSession
    {| Session.p_id := randomUUID rt (S n);
       Session.p_userId := UserDomain.id user;
       Session.p_ttlMinutes := Some (loginTtl params);
       Session.p_now := None;
       Session.p_ipHash := l_ipHash params;
       Session.p_userAgent := l_userAgent params |}
    (clock rt (S (S n))).

(** The credentials stage of [loginUser] lets the login through: MFA is off,
    or a code was given and the provider accepts it. *)
Definition secondFactorPasses (params : LoginParams) (user : UserDomain.User)
    (w : World) : bool :=
  negb (mfaOn user)
  || (negb (Js.falsy (l_otpCode params))
      && totpAccepts rt user (otpCodeOf params) (tick (afterPassword rt params user w))).

(** The world in which [completeLogin] starts. *)
Definition afterCredentials (params : LoginParams) (user : UserDomain.User)
    (w : World) : World :=
  if mfaOn user
  then afterTotp user (otpCodeOf params) (afterPassword rt params user w)
  else afterPassword rt params user w.

End MoreAuthVocabulary.

Section RegistrationVocabulary.

Import Env Auth.

Local Open Scope Z_scope.

Variable rt : Runtime.

(** The record [registerUser] stores when it starts at observation [n]. *)
Definition registered (params : Storage.RegisterParams) (n : nat) : UserDomain.User :=
  UserCreation.createUser rt
    {| UserCreation.c_id := randomUUID rt (S n);
       UserCreation.c_email := UserDomain.normalizeEmail rt (Storage.r_email params);
       UserCreation.c_passHash :=
         bcrypt_hash rt (Storage.r_password params)
                     (bcrypt_genSalt rt n (SALT_ROUNDS rt));
       UserCreation.c_roles :=
         Some (match Storage.r_roles params with Some r => r | None => ["user"] end);
       UserCreation.c_extraPermissions :=
         Some (match Storage.r_extraPermissions params with
               | Some e => e
               | None => []
               end);
       UserCreation.c_mfaEnabled := None;
       UserCreation.c_mfaSecret := None;
       UserCreation.c_recoveryCodes := None;
       UserCreation.c_now := None |}
    (clock rt (S (S n))).

Definition afterRegister (params : Storage.RegisterParams) (w : World) : World :=
  let user := registered params (tick w) in
  mkWorld (users w ++ [user]) (sessions w) (S (S (S (tick w))))
          (effects w ++ [PasswordHashed (Storage.r_password params);
                         UsersWritten (users w ++ [user])]).

(** [trim] and [toLowerCase] of the runtime behave like the ones of
    JavaScript in this: normalising an e-mail twice changes nothing more. *)
Definition normalizeEmailIdempotent : Prop :=
  forall s, UserDomain.normalizeEmail rt (UserDomain.normalizeEmail rt s)
            = UserDomain.normalizeEmail rt s.

(** bcrypt accepts a password against any hash it made of it. *)
Definition bcryptAcceptsItsHashes : Prop :=
  forall plain salt, bcrypt_compare rt plain (bcrypt_hash rt plain salt) = true.

End RegistrationVocabulary.

Section RoleRepositoryVocabulary.

Import Env RoleRepository.

Variable rt : Runtime.

(** What [listRoles] makes of the lines of the file. *)
Definition listed (lines : Lines) : list Role.Role :=
  flat_map (fun ln => match normalizeRoleRecord rt ln with
                      | Some norm => [norm]
                      | None => []
                      end) lines.

(** A record in the form [normalizeRoleRecord] gives it. *)
Definition wellFormed (r : Role.Role) : Prop :=
  trim rt (Role.name r) = Role.name r
  /\ Role.name r <> ""
  /\ Role.normalizePermissions (Role.permissions r) = Role.permissions r.

(** [trim] of the runtime behaves like the one of JavaScript in this:
    trimming twice is trimming once; the names of the presets have nothing
    to trim. *)
Definition trimIdempotent : Prop :=
  forall s, trim rt (trim rt s) = trim rt s.

Definition trimKeepsPresetNames : Prop :=
  forall n, Role.isRoleName n = true -> trim rt n = n.

(** The records [seedRolePresetsIfEmpty] writes. *)
Definition seededRoles : list Role.Role :=
  map (fun entry =>
         Role.createRole (fst entry) (Some ("Preset " ++ fst entry)%string)
                         (Some (snd entry)))
      Permission.ROLE_PRESETS.

(** The test [upsertRole] finds the role with, and what it writes. *)
Definition hasName (name : string) (r : Role.Role) : bool :=
  String.eqb (trim rt (Role.name r)) name.

Definition upsertedOver (params : UpsertParams) (r : Role.Role) : Role.Role :=
  Role.mkRole (trim rt (u_name params))
    (Role.normalizePermissions
       (match u_permissions params with Some p => p | None => [] end))
    (match u_description params with
     | Some d => Some d
     | None => Role.description r
     end).

Definition upsertedNew (params : UpsertParams) : Role.Role :=
  Role.mkRole (trim rt (u_name params))
    (Role.normalizePermissions
       (match u_permissions params with Some p => p | None => [] end))
    (u_description params).

Definition upserted (params : UpsertParams) (all : list Role.Role) : Role.Role :=
  match find (hasName (trim rt (u_name params))) all with
  | Some r => upsertedOver params r
  | None => upsertedNew params
  end.

Definition afterUpsert (params : UpsertParams) (all : list Role.Role) : Lines :=
  let updated :=
    map (fun r => if hasName (trim rt (u_name params)) r
                  then upsertedOver params r else r) all in
  if existsb (hasName (trim rt (u_name params))) all
  then updated
  else updated ++ [upsertedNew params].

End RoleRepositoryVocabulary.

(** ** More concrete values *)

Module MoreDemo.

Import Env Auth.

Local Open Scope Z_scope.

(** A user with the roles and extras of [Demo.alice], and more. *)
Definition carol : UserDomain.User :=
  {| UserDomain.id := "u3";
     UserDomain.email := "carol@example.com";
     UserDomain.passHash := "hash:Otr4!clave";
     UserDomain.salt := None;
     UserDomain.roles := ["user"; "support"];
     UserDomain.extraPermissions := Some ["audit:read"];
     UserDomain.mfaEnabled := Some false;
     UserDomain.mfaSecret := None;
     UserDomain.recoveryCodes := None;
     UserDomain.failedLoginAttempts := Some 0;
     UserDomain.lockedUntil := Some 0;
     UserDomain.createdAt := 1690000000000;
     UserDomain.updatedAt := 1690000000000 |}.

(** The right password of [Demo.alice], and no code. *)
Definition passwordOnly : LoginParams :=
  mkLoginParams "alice@example.com" "S3gura!2024" None None None None.

(** The store of [Demo.lockedWorld] half an hour later: the lock of
    [Demo.lockedAlice] has just run out, her five failures are still
    counted. *)
Definition laterWorld : World :=
  mkWorld [Demo.lockedAlice] [Demo.session1] 1800 [].

Definition newcomer : Storage.RegisterParams :=
  {| Storage.r_email := "dora@example.com";
     Storage.r_password := "S3gura!2024";
     Storage.r_roles := None;
     Storage.r_extraPermissions := Some ["audit:read"] |}.

Definition newcomerLogin : LoginParams :=
  mkLoginParams "dora@example.com" "S3gura!2024" None None None None.

(** A roles file with a line to normalize and a line without a name. *)
Definition rolesFile : RoleRepository.Lines :=
  [ Role.mkRole "auditor" ["audit:read"; "audit:read"; "bogus"]
                (Some "Reads the trail");
    Role.mkRole "" ["user:read"] None ].

Definition upsertAuditor : RoleRepository.UpsertParams :=
  {| RoleRepository.u_name := "auditor";
     RoleRepository.u_permissions := Some ["session:list"];
     RoleRepository.u_description := None |}.

(** The right credentials of [Demo.alice] with the TTL that [Number('abc')]
    gives. *)
Definition nanLogin : LoginParams :=
  mkLoginParams "alice@example.com" "S3gura!2024" (Some "123456")
                (Some (Js.Double PrimFloat.nan)) None None.

Definition helpdesk : Role.Role :=
  Role.mkRole "helpdesk" ["user:read"; "user:list"] None.

End MoreDemo.

(** * Properties *)

(** ** Worked examples of the definitions *)

Example isPermission_catalog_entry : Permission.isPermission "user:read" = true.
Proof. reflexivity. Qed.

Example isPermission_wildcard : Permission.isPermission "session:*" = true.
Proof. reflexivity. Qed.

Example isPermission_not_in_catalog : Permission.isPermission "user:assign" = false.
Proof. reflexivity. Qed.

Example isPermission_unknown_resource : Permission.isPermission "disk:read" = false.
Proof. reflexivity. Qed.

(** Only the first two segments are looked at. *)
Example isPermission_third_segment : Permission.isPermission "user:read:x" = true.
Proof. reflexivity. Qed.

Example permissionImplies_wildcard :
  Permission.permissionImplies "user:*" "user:delete" = true.
Proof. reflexivity. Qed.

Example permissionImplies_other_resource :
  Permission.permissionImplies "user:*" "role:read" = false.
Proof. reflexivity. Qed.

(** ** Strings and [split] *)

Section StringFacts.

Lemma strictEq_true (a b : option string) :
  Js.strictEq a b = true <-> a = b.
Proof.
  destruct a as [x|], b as [y|]; simpl; split; intro H;
    try discriminate; try reflexivity.
  - apply String.eqb_eq in H. now subst.
  - inversion H. apply String.eqb_refl.
Qed.

Lemma strictEq_refl (a : option string) : Js.strictEq a a = true.
Proof. now apply strictEq_true. Qed.

Lemma has_In (set : list string) (x : string) :
  Js.has set x = true <-> In x set.
Proof.
  unfold Js.has. rewrite existsb_exists. split.
  - intros [y [Hy He]]. apply String.eqb_eq in He. now subst.
  - intro H. exists x. split; [assumption | apply String.eqb_refl].
Qed.

Lemma has_false (set : list string) (x : string) :
  Js.has set x = false <-> ~ In x set.
Proof.
  rewrite <- has_In. destruct (Js.has set x); split; intro H;
    try discriminate; try reflexivity; try (intro; discriminate).
  exfalso. now apply H.
Qed.

Lemma split_prefix (sep : ascii) (r x : string) :
  freeOf sep r = true ->
  Js.split sep (r ++ String sep x) = r :: Js.split sep x.
Proof.
  induction r as [|c r IH]; simpl; intro H.
  - now rewrite Ascii.eqb_refl.
  - apply andb_true_iff in H. destruct H as [Hc Hr].
    apply negb_true_iff in Hc. rewrite Hc. now rewrite (IH Hr).
Qed.

Lemma freeOf_iff (sep : ascii) (s : string) :
  freeOf sep s = true <-> ~ In sep (list_ascii_of_string s).
Proof.
  induction s as [|c s IH]; simpl; [tauto|].
  rewrite andb_true_iff, negb_true_iff, IH.
  destruct (Ascii.eqb_spec c sep) as [E|E].
  - split; [intros [H _]; discriminate | intro H; exfalso; apply H; now left].
  - split; [intros [_ H] [H'|H']; [contradiction | now apply H]
           | intro H; split; [reflexivity | intro H'; apply H; now right]].
Qed.

Lemma append_assoc (a b c : string) :
  ((a ++ b) ++ c)%string = (a ++ b ++ c)%string.
Proof. induction a as [|x a IH]; simpl; [reflexivity | now rewrite IH]. Qed.

(** [String.prefix p s]: [s] is [p] followed by something. *)
Lemma prefix_iff (p s : string) :
  String.prefix p s = true <-> exists a, s = (p ++ a)%string.
Proof.
  revert s. induction p as [|c p IH]; intro s.
  - destruct s; simpl; (split; [intros _; eexists; reflexivity | reflexivity]).
  - destruct s as [|d s]; simpl.
    + split; [discriminate | intros [a H]; discriminate].
    + destruct (Ascii.ascii_dec c d) as [E|E].
      * subst d. rewrite IH. split; intros [a H]; exists a.
        -- now rewrite H.
        -- now inversion H.
      * split; [discriminate | intros [a H]; inversion H; congruence].
Qed.

Lemma split_free (sep : ascii) (a : string) :
  freeOf sep a = true -> Js.split sep a = [a].
Proof.
  induction a as [|c a IH]; simpl; intro H; [reflexivity|].
  apply andb_true_iff in H. destruct H as [Hc Ha].
  apply negb_true_iff in Hc. rewrite Hc. now rewrite (IH Ha).
Qed.

(** The two segments of ['res:act']. *)
Lemma split_two (res act : string) :
  freeOf ":" res = true -> freeOf ":" act = true ->
  Js.split ":" (res ++ ":" ++ act) = [res; act].
Proof.
  intros Hr Ha. change (res ++ ":" ++ act)%string with (res ++ String ":" act)%string.
  now rewrite (split_prefix _ _ _ Hr), (split_free _ _ Ha).
Qed.

Lemma resources_freeOf_colon (r : string) :
  In r Permission.VALID_RESOURCES -> freeOf ":" r = true.
Proof.
  intro H. simpl in H.
  repeat (destruct H as [H|H]; [subst r; reflexivity|]). contradiction.
Qed.

Lemma resourceOf_qualified (r x : string) :
  In r Permission.VALID_RESOURCES ->
  Permission.resourceOf (r ++ ":" ++ x) = Some r.
Proof.
  intro H. unfold Permission.resourceOf.
  change (r ++ ":" ++ x)%string with (r ++ String ":" x)%string.
  now rewrite (split_prefix _ _ _ (resources_freeOf_colon r H)).
Qed.

Lemma actionOf_wildcard (r : string) :
  In r Permission.VALID_RESOURCES ->
  Permission.actionOf (r ++ ":*") = Some "*".
Proof.
  intro H. unfold Permission.actionOf.
  change (r ++ ":*")%string with (r ++ String ":" "*")%string.
  now rewrite (split_prefix _ _ _ (resources_freeOf_colon r H)).
Qed.

End StringFacts.

(** ** permissionImplies *)

Section PermissionFacts.

Import Permission.

Lemma permissionImplies_iff (grant required : Permission) :
  permissionImplies grant required = true <->
  resourceOf grant = resourceOf required
  /\ (actionOf grant = Some "*" \/ actionOf grant = actionOf required).
Proof.
  unfold permissionImplies.
  destruct (Js.strictEq (resourceOf grant) (resourceOf required)) eqn:Hr; simpl.
  - apply strictEq_true in Hr.
    destruct (Js.strictEq (actionOf grant) (Some "*")) eqn:Hw.
    + apply strictEq_true in Hw. tauto.
    + rewrite strictEq_true. split.
      * intro H. tauto.
      * intros [_ [H|H]]; [|assumption].
        apply strictEq_true in H. congruence.
  - split; [discriminate|]. intros [H _].
    apply strictEq_true in H. congruence.
Qed.

Lemma permissionImplies_refl (p : Permission) : permissionImplies p p = true.
Proof. apply permissionImplies_iff. split; [reflexivity | now right]. Qed.

Lemma catalog_isPermission (p : Permission) :
  In p PERMISSIONS -> isPermission p = true.
Proof.
  intro H. simpl in H.
  repeat (destruct H as [H|H]; [subst p; reflexivity|]). contradiction.
Qed.

(** Between two strings of the form ['res:act']. *)
Lemma permissionImplies_two_segments (res act res' act' : string) :
  freeOf ":" res = true -> freeOf ":" act = true ->
  freeOf ":" res' = true -> freeOf ":" act' = true ->
  (permissionImplies (res ++ ":" ++ act) (res' ++ ":" ++ act') = true <->
   res = res' /\ (act = "*" \/ act = act')).
Proof.
  intros Hr Ha Hr' Ha'. rewrite permissionImplies_iff.
  unfold resourceOf, actionOf.
  rewrite (split_two res act Hr Ha), (split_two res' act' Hr' Ha'). cbn [nth_error].
  split.
  - intros [E [H|H]]; inversion E; inversion H; auto.
  - intros [E [H|H]]; subst; auto.
Qed.

(** Among the catalog entries nothing implies anything but itself, and the
    wildcard of a resource implies the entries that start with the resource
    and a colon, and no other. *)
Lemma permissionImplies_on_catalog :
  forallb (fun p =>
             forallb (fun q => Bool.eqb (permissionImplies p q) (String.eqb p q))
                     PERMISSIONS) PERMISSIONS = true
  /\ forallb (fun r =>
                forallb (fun q => Bool.eqb (permissionImplies (r ++ ":*") q)
                                           (String.prefix (r ++ ":") q))
                        PERMISSIONS) VALID_RESOURCES = true.
Proof. split; vm_compute; reflexivity. Qed.

(** C6.  [permissionImplies] decides "same resource, and the grant's action
    is the wildcard or the required action": between two strings
    ['res:act'] and ['res2:act2'] it holds exactly when [res] is [res2] and
    [act] is ['*'] or [act2]; so a catalog entry implies itself and no
    other catalog entry, and the wildcard of a resource implies exactly the
    catalog entries of that resource.  It is reflexive on every valid
    permission and on every catalog entry; the wildcard of a resource implies
    every valid permission of that resource; and the wildcard of one
    resource implies nothing of another resource. *)
Theorem permissionImplies_characterisation :
  (forall grant required,
      permissionImplies grant required = true <->
      resourceOf grant = resourceOf required
      /\ (actionOf grant = Some "*" \/ actionOf grant = actionOf required))
  /\ (forall res act res' act',
         ~ In ":"%char (list_ascii_of_string res) ->
         ~ In ":"%char (list_ascii_of_string act) ->
         ~ In ":"%char (list_ascii_of_string res') ->
         ~ In ":"%char (list_ascii_of_string act') ->
         (permissionImplies (res ++ ":" ++ act) (res' ++ ":" ++ act') = true <->
          res = res' /\ (act = "*" \/ act = act')))
  /\ (forall p q, In p PERMISSIONS -> In q PERMISSIONS ->
                  (permissionImplies p q = true <-> p = q))
  /\ (forall r q, In r VALID_RESOURCES -> In q PERMISSIONS ->
                  (permissionImplies (r ++ ":*") q = true <->
                   exists a, q = (r ++ ":" ++ a)%string))
  /\ (forall p, isPermission p = true -> permissionImplies p p = true)
  /\ (forall p, In p PERMISSIONS -> permissionImplies p p = true)
  /\ (forall r a, In r VALID_RESOURCES ->
                  isPermission (r ++ ":" ++ a) = true ->
                  permissionImplies (r ++ ":*")%string (r ++ ":" ++ a)%string = true)
  /\ (forall rA rB x, In rA VALID_RESOURCES -> In rB VALID_RESOURCES ->
                      rA <> rB ->
                      permissionImplies (rA ++ ":*")%string (rB ++ ":" ++ x)%string
                      = false).
Proof.
  split; [exact permissionImplies_iff|].
  split.
  { intros res act res' act' Hr Ha Hr' Ha'.
    apply permissionImplies_two_segments; now apply freeOf_iff. }
  split.
  { intros p q Hp Hq. destruct permissionImplies_on_catalog as [H _].
    rewrite forallb_forall in H. specialize (H p Hp).
    rewrite forallb_forall in H. specialize (H q Hq).
    apply Bool.eqb_prop in H. rewrite H. apply String.eqb_eq. }
  split.
  { intros r q Hr Hq. destruct permissionImplies_on_catalog as [_ H].
    rewrite forallb_forall in H. specialize (H r Hr).
    rewrite forallb_forall in H. specialize (H q Hq).
    apply Bool.eqb_prop in H. rewrite H, prefix_iff.
    split; intros [a Ha]; exists a; rewrite Ha;
      first [apply append_assoc | symmetry; apply append_assoc]. }
  split; [intros p _; apply permissionImplies_refl|].
  split; [intros p _; apply permissionImplies_refl|].
  split.
  - intros r a Hr _. apply permissionImplies_iff.
    rewrite (resourceOf_qualified r a Hr).
    change (r ++ ":*")%string with (r ++ ":" ++ "*")%string.
    rewrite (resourceOf_qualified r "*" Hr). split; [reflexivity|].
    left. now apply actionOf_wildcard.
  - intros rA rB x HA HB Hne.
    destruct (permissionImplies (rA ++ ":*")%string (rB ++ ":" ++ x)%string) eqn:E;
      [|reflexivity].
    apply permissionImplies_iff in E. destruct E as [E _].
    change (rA ++ ":*")%string with (rA ++ ":" ++ "*")%string in E.
    rewrite (resourceOf_qualified rA "*" HA), (resourceOf_qualified rB x HB) in E.
    congruence.
Qed.

End PermissionFacts.

(** ** The stable sort by a numeric key *)

Section SortFacts.

Context {A : Type}.
Variable key : A -> Z.

Let cmp : A -> A -> Z := fun a b => (key a - key b)%Z.

Lemma insertSorted_perm (x : A) (l : list A) :
  Permutation (Js.insertSorted cmp x l) (x :: l).
Proof.
  induction l as [|y t IH]; simpl.
  - apply Permutation_refl.
  - destruct (cmp x y <=? 0)%Z.
    + apply Permutation_refl.
    + eapply perm_trans; [apply perm_skip, IH | apply perm_swap].
Qed.

Lemma sort_perm (l : list A) : Permutation (Js.sort cmp l) l.
Proof.
  induction l as [|x t IH]; simpl.
  - constructor.
  - eapply perm_trans; [apply insertSorted_perm | now apply perm_skip].
Qed.

Lemma insertSorted_hd (x a : A) (l : list A) :
  leKey key a x -> HdRel (leKey key) a l -> HdRel (leKey key) a (Js.insertSorted cmp x l).
Proof.
  intros Hax H. destruct l as [|y t]; simpl.
  - now constructor.
  - destruct (cmp x y <=? 0)%Z; constructor; [assumption|].
    now inversion H.
Qed.

Lemma insertSorted_sorted (x : A) (l : list A) :
  Sorted (leKey key) l -> Sorted (leKey key) (Js.insertSorted cmp x l).
Proof.
  induction 1 as [|y t Hs IH Hhd]; simpl.
  - repeat constructor.
  - destruct (cmp x y <=? 0)%Z eqn:E.
    + constructor; [now constructor|]. constructor.
      unfold leKey, cmp in *. lia.
    + constructor; [assumption|]. apply insertSorted_hd; [|assumption].
      unfold leKey, cmp in *. lia.
Qed.

Lemma sort_sorted (l : list A) : Sorted (leKey key) (Js.sort cmp l).
Proof.
  induction l as [|x t IH]; simpl.
  - constructor.
  - now apply insertSorted_sorted.
Qed.

(** Sorting again changes nothing. *)
Lemma sort_of_sorted (l : list A) : Sorted (leKey key) l -> Js.sort cmp l = l.
Proof.
  induction 1 as [|x t Hs IH Hhd]; simpl; [reflexivity|].
  change (fold_right (Js.insertSorted cmp) [] t) with (Js.sort cmp t).
  rewrite IH. destruct Hhd as [|y t' Hxy]; simpl; [reflexivity|].
  unfold leKey in Hxy. unfold cmp.
  destruct (key x - key y <=? 0)%Z eqn:E; [reflexivity | lia].
Qed.

(** Two elements with different keys can be inserted in either order. *)
Lemma insertSorted_comm (x y : A) (l : list A) :
  key x <> key y ->
  Js.insertSorted cmp x (Js.insertSorted cmp y l)
  = Js.insertSorted cmp y (Js.insertSorted cmp x l).
Proof.
  intro Hne. induction l as [|z t IH]; unfold cmp in *; simpl.
  - destruct (key x - key y <=? 0)%Z eqn:E1, (key y - key x <=? 0)%Z eqn:E2;
      try reflexivity; lia.
  - destruct (key y - key z <=? 0)%Z eqn:Eyz, (key x - key z <=? 0)%Z eqn:Exz;
      destruct (key x - key y <=? 0)%Z eqn:Exy, (key y - key x <=? 0)%Z eqn:Eyx;
      try lia;
      repeat (simpl; rewrite ?Eyz, ?Exz, ?Exy, ?Eyx);
      try reflexivity.
    all: now rewrite IH.
Qed.

(** Where the key tells the elements apart, the sorted array does not
    depend on the order of the input. *)
Lemma sort_permutation_invariant (l l' : list A) :
  Permutation l l' ->
  (forall a b, In a l -> In b l -> key a = key b -> a = b) ->
  Js.sort cmp l = Js.sort cmp l'.
Proof.
  induction 1 as [|x l l' Hp IH|x y l|l l' l'' Hp1 IH1 Hp2 IH2]; intro Hinj.
  - reflexivity.
  - simpl. f_equal. apply IH. intros a b Ha Hb. apply Hinj; now right.
  - simpl. destruct (Z.eq_dec (key x) (key y)) as [E|E].
    + assert (x = y) by (apply Hinj; simpl; auto). now subst.
    + symmetry. now apply insertSorted_comm.
  - rewrite IH1 by assumption. apply IH2.
    intros a b Ha Hb Hk.
    apply Hinj; [| |assumption];
      apply (Permutation_in _ (Permutation_sym Hp1)); assumption.
Qed.

(** Elements of maximal key stay behind the others, in their input order. *)
Section TopKey.

Variable top : Z.
Variable high : A -> bool.
Hypothesis high_key : forall a, high a = true -> key a = top.
Hypothesis low_key : forall a, high a = false -> (key a < top)%Z.

Let low (a : A) : bool := negb (high a).

Lemma insertSorted_high (x : A) (lo hi : list A) :
  high x = true ->
  Forall (fun a => high a = false) lo ->
  Forall (fun a => high a = true) hi ->
  Js.insertSorted cmp x (lo ++ hi) = lo ++ x :: hi.
Proof.
  intros Hx Hlo Hhi. induction Hlo as [|s lo Hs Hlo IH]; simpl.
  - destruct Hhi as [|y hi Hy Hhi]; simpl; [reflexivity|].
    unfold cmp. rewrite (high_key x Hx), (high_key y Hy).
    now rewrite Z.sub_diag.
  - unfold cmp at 1. specialize (low_key s Hs). rewrite (high_key x Hx).
    destruct (top - key s <=? 0)%Z eqn:E; [lia|]. now rewrite IH.
Qed.

Lemma insertSorted_low (x : A) (lo hi : list A) :
  high x = false ->
  Forall (fun a => high a = true) hi ->
  Js.insertSorted cmp x (lo ++ hi) = Js.insertSorted cmp x lo ++ hi.
Proof.
  intros Hx Hhi. induction lo as [|s lo IH]; simpl.
  - destruct Hhi as [|y hi Hy Hhi]; simpl; [reflexivity|].
    unfold cmp. specialize (low_key x Hx). rewrite (high_key y Hy).
    destruct (key x - top <=? 0)%Z eqn:E; [reflexivity | lia].
  - destruct (cmp x s <=? 0)%Z; [reflexivity|]. now rewrite IH.
Qed.

Lemma sort_low_then_high (l : list A) :
  Js.sort cmp l = Js.sort cmp (filter low l) ++ filter high l.
Proof.
  induction l as [|x t IH]; [reflexivity|].
  assert (Hhi : Forall (fun a => high a = true) (filter high t)).
  { apply Forall_forall. intros a Ha. now apply filter_In in Ha. }
  assert (Hlo : Forall (fun a => high a = false) (Js.sort cmp (filter low t))).
  { apply Forall_forall. intros a Ha.
    apply (Permutation_in _ (sort_perm _)) in Ha.
    apply filter_In in Ha. destruct Ha as [_ Ha]. unfold low in Ha.
    now apply negb_true_iff in Ha. }
  simpl. change (fold_right (Js.insertSorted cmp) [] t) with (Js.sort cmp t).
  rewrite IH. unfold low at 2. destruct (high x) eqn:Hx; simpl.
  - now apply insertSorted_high.
  - now apply insertSorted_low.
Qed.

End TopKey.

End SortFacts.

(** ** normalizePermissions *)

Section NormalizeFacts.

Import Permission.

Lemma collectUnique_collectFrom (perms : list string) :
  Role.collectUnique perms = collectFrom [] perms.
Proof. reflexivity. Qed.

Lemma add_In (set : list string) (p q : string) :
  In q (Js.add set p) <-> In q set \/ q = p.
Proof.
  unfold Js.add. destruct (Js.has set p) eqn:E.
  - apply has_In in E. split; [now left|]. intros [H|H]; [assumption | now subst].
  - rewrite in_app_iff. simpl. intuition.
Qed.

Lemma add_NoDup (set : list string) (p : string) :
  NoDup set -> NoDup (Js.add set p).
Proof.
  intro H. unfold Js.add. destruct (Js.has set p) eqn:E; [assumption|].
  apply has_false in E. apply NoDup_app; [assumption | repeat constructor; auto |].
  intros x Hx [Hp|[]]. now subst.
Qed.

Lemma collectFrom_app (unique : list Permission) (l1 l2 : list string) :
  collectFrom unique (l1 ++ l2) = collectFrom (collectFrom unique l1) l2.
Proof. apply fold_left_app. Qed.

Lemma collectFrom_In (unique : list Permission) (perms : list string) (q : string) :
  In q (collectFrom unique perms) <->
  In q unique \/ (In q perms /\ isPermission q = true).
Proof.
  revert unique. induction perms as [|p t IH]; intro unique; simpl.
  - tauto.
  - rewrite IH. unfold collectStep. destruct (isPermission p) eqn:E.
    + rewrite add_In. split.
      * intros [[H|H]|H]; [tauto | subst; tauto | tauto].
      * intros [H|[[H|H] Hv]]; [tauto | subst; tauto | tauto].
    + split.
      * tauto.
      * intros [H|[[H|H] Hv]]; [tauto | subst; congruence | tauto].
Qed.

Lemma collectFrom_NoDup (unique : list Permission) (perms : list string) :
  NoDup unique -> NoDup (collectFrom unique perms).
Proof.
  revert unique. induction perms as [|p t IH]; intros unique H; simpl.
  - assumption.
  - apply IH. unfold collectStep. destruct (isPermission p); [|assumption].
    now apply add_NoDup.
Qed.

(** Valid, pairwise different entries that the [Set] does not hold yet are
    all added, in their order. *)
Lemma collectFrom_fresh (unique : list Permission) (perms : list string) :
  NoDup perms ->
  (forall p, In p perms -> isPermission p = true) ->
  (forall p, In p perms -> ~ In p unique) ->
  collectFrom unique perms = unique ++ perms.
Proof.
  revert unique. induction perms as [|p t IH]; intros unique Hnd Hv Hfresh; simpl.
  - now rewrite app_nil_r.
  - inversion Hnd as [|? ? Hp Ht]; subst.
    unfold collectStep. rewrite (Hv p (or_introl eq_refl)).
    unfold Js.add.
    assert (E : Js.has unique p = false).
    { apply has_false. apply Hfresh. now left. }
    rewrite E. rewrite IH.
    + now rewrite <- app_assoc.
    + assumption.
    + intros q Hq. apply Hv. now right.
    + intros q Hq Hin. apply in_app_iff in Hin. destruct Hin as [Hin|[Hin|[]]].
      * apply (Hfresh q); [now right | assumption].
      * subst. contradiction.
Qed.

(** Filtering the [Set] afterwards, or the input beforehand. *)
Lemma has_filter (f : string -> bool) (set : list string) (p : string) :
  f p = true -> Js.has (filter f set) p = Js.has set p.
Proof.
  intro Hf. destruct (Js.has set p) eqn:E.
  - apply has_In. apply filter_In. split; [now apply has_In | assumption].
  - apply has_false. intro H. apply filter_In in H. destruct H as [H _].
    apply has_false in E. contradiction.
Qed.

Lemma filter_collectFrom (f : string -> bool) (unique : list Permission)
    (perms : list string) :
  filter f (collectFrom unique perms) = collectFrom (filter f unique) (filter f perms).
Proof.
  revert unique. induction perms as [|p t IH]; intro unique; simpl; [reflexivity|].
  rewrite IH. unfold collectStep at 1.
  destruct (f p) eqn:Hf; simpl.
  - unfold collectStep. destruct (isPermission p); [|reflexivity].
    unfold Js.add. rewrite (has_filter f unique p Hf).
    destruct (Js.has unique p); [reflexivity|].
    rewrite filter_app. simpl. now rewrite Hf.
  - destruct (isPermission p); [|reflexivity].
    unfold Js.add. destruct (Js.has unique p); [reflexivity|].
    rewrite filter_app. simpl. rewrite Hf. now rewrite app_nil_r.
Qed.

(** Adding the content of a [Set] built from [perms], or [perms] itself. *)
Lemma collectFrom_collectFrom (a b : list Permission) (perms : list string) :
  (forall p, In p b -> isPermission p = true) ->
  collectFrom a (collectFrom b perms) = collectFrom (collectFrom a b) perms.
Proof.
  revert b. induction perms as [|p t IH]; intros b Hb; simpl; [reflexivity|].
  assert (Hstep : collectFrom a (collectStep b p) = collectStep (collectFrom a b) p).
  { unfold collectStep. destruct (isPermission p) eqn:Hv; [|reflexivity].
    unfold Js.add. destruct (Js.has b p) eqn:Eb.
    - assert (Ein : Js.has (collectFrom a b) p = true).
      { apply has_In. apply collectFrom_In. right.
        split; [now apply has_In | assumption]. }
      now rewrite Ein.
    - rewrite collectFrom_app. simpl. unfold collectStep at 1. rewrite Hv.
      reflexivity. }
  rewrite IH.
  - now rewrite Hstep.
  - intros q Hq. unfold collectStep in Hq.
    destruct (isPermission p) eqn:Hv; [|auto].
    apply add_In in Hq. destruct Hq as [Hq|Hq]; [auto | now subst].
Qed.

(** *** The sort key *)

Lemma getProp_absent {V} (obj : list (string * V)) (k : string) :
  ~ In k (map fst obj) -> Js.getProp obj k = None.
Proof.
  induction obj as [|[k' v] t IH]; simpl; intro H; [reflexivity|].
  destruct (String.eqb k k') eqn:E.
  - apply String.eqb_eq in E. subst. exfalso. apply H. now left.
  - apply IH. intro Hin. apply H. now right.
Qed.

Lemma orderIndex_keys : map fst Role.orderIndex = PERMISSIONS.
Proof. reflexivity. Qed.

(** A valid entry outside of the catalog (a wildcard) has the last key. *)
Lemma orderKey_outside (p : string) :
  ~ In p PERMISSIONS -> Role.orderKey p = Js.MAX_SAFE_INTEGER.
Proof.
  intro H. unfold Role.orderKey. rewrite getProp_absent; [reflexivity|].
  now rewrite orderIndex_keys.
Qed.

(** A catalog entry has its position in the catalog as key. *)
Lemma orderKey_catalog (p : string) :
  In p PERMISSIONS ->
  nth_error PERMISSIONS (Z.to_nat (Role.orderKey p)) = Some p
  /\ (0 <= Role.orderKey p < 19)%Z.
Proof.
  intro H. simpl in H.
  repeat (destruct H as [H|H];
          [subst p; vm_compute; repeat split; discriminate|]).
  contradiction.
Qed.

Lemma orderKey_injective (a b : string) :
  In a PERMISSIONS -> In b PERMISSIONS ->
  Role.orderKey a = Role.orderKey b -> a = b.
Proof.
  intros Ha Hb E.
  destruct (orderKey_catalog a Ha) as [Na _].
  destruct (orderKey_catalog b Hb) as [Nb _].
  rewrite E in Na. congruence.
Qed.

Lemma outsideCatalog_key (p : string) :
  outsideCatalog p = true -> Role.orderKey p = Js.MAX_SAFE_INTEGER.
Proof.
  unfold outsideCatalog. intro H. apply negb_true_iff in H.
  apply orderKey_outside. now apply has_false.
Qed.

Lemma insideCatalog_key (p : string) :
  outsideCatalog p = false -> (Role.orderKey p < Js.MAX_SAFE_INTEGER)%Z.
Proof.
  unfold outsideCatalog. intro H. apply negb_false_iff in H. apply has_In in H.
  destruct (orderKey_catalog p H) as [_ Hk]. unfold Js.MAX_SAFE_INTEGER. lia.
Qed.

Lemma PERMISSIONS_NoDup : NoDup PERMISSIONS.
Proof.
  unfold PERMISSIONS.
  repeat (constructor; [simpl; intuition discriminate|]). constructor.
Qed.

Lemma PERMISSIONS_sorted : StronglySorted (leKey Role.orderKey) PERMISSIONS.
Proof.
  unfold PERMISSIONS.
  repeat (constructor; [|repeat constructor; unfold leKey; vm_compute; discriminate]).
  constructor.
Qed.

Lemma filter_StronglySorted {A} (R : A -> A -> Prop) (f : A -> bool) (l : list A) :
  StronglySorted R l -> StronglySorted R (filter f l).
Proof.
  induction 1 as [|a l Hs IH Hall]; simpl; [constructor|].
  destruct (f a); [|assumption]. constructor; [assumption|].
  apply Forall_forall. intros x Hx. apply filter_In in Hx.
  rewrite Forall_forall in Hall. now apply Hall.
Qed.

(** *** The closed form of [normalizePermissions] *)

Lemma catalogPart_In (perms : list string) (p : string) :
  In p (catalogPart perms) <-> In p PERMISSIONS /\ In p perms.
Proof.
  unfold catalogPart. split; intro H.
  - apply filter_In in H. destruct H as [Hc Hin]. split; [assumption|].
    now apply has_In.
  - destruct H as [Hc Hin]. apply filter_In. split; [assumption|].
    now apply has_In.
Qed.

Lemma catalogPart_sorted (perms : list string) :
  Sorted (leKey Role.orderKey) (catalogPart perms).
Proof.
  apply StronglySorted_Sorted, filter_StronglySorted, PERMISSIONS_sorted.
Qed.

Lemma lowPart_In (perms : list string) (p : string) :
  In p (filter (fun a => negb (outsideCatalog a)) (Role.collectUnique perms))
  <-> In p (catalogPart perms).
Proof.
  unfold catalogPart. split; intro H.
  - apply filter_In in H. destruct H as [Hu Hc].
    rewrite collectUnique_collectFrom in Hu. apply collectFrom_In in Hu.
    destruct Hu as [[]|[Hin _]].
    unfold outsideCatalog in Hc. rewrite negb_involutive in Hc.
    apply filter_In. split; now apply has_In.
  - apply filter_In in H. destruct H as [Hc Hin]. apply has_In in Hin.
    apply filter_In. split.
    + rewrite collectUnique_collectFrom. apply collectFrom_In. right.
      split; [assumption | now apply catalog_isPermission].
    + unfold outsideCatalog. rewrite negb_involutive. now apply has_In.
Qed.

Lemma lowPart_catalog (perms : list string) (p : string) :
  In p (filter (fun a => negb (outsideCatalog a)) (Role.collectUnique perms)) ->
  In p PERMISSIONS.
Proof.
  intro H. apply filter_In in H. destruct H as [_ Hc].
  unfold outsideCatalog in Hc. rewrite negb_involutive in Hc. now apply has_In.
Qed.

Lemma normalizePermissions_closed_form (perms : list string) :
  Role.normalizePermissions perms = catalogPart perms ++ wildcardPart perms.
Proof.
  unfold Role.normalizePermissions.
  rewrite (sort_low_then_high Role.orderKey Js.MAX_SAFE_INTEGER outsideCatalog
             outsideCatalog_key insideCatalog_key).
  apply (f_equal2 (@app string)); [|reflexivity].
  rewrite (sort_permutation_invariant Role.orderKey _ (catalogPart perms)).
  - apply sort_of_sorted, catalogPart_sorted.
  - apply NoDup_Permutation; [| |apply lowPart_In].
    + apply NoDup_filter. rewrite collectUnique_collectFrom.
      apply collectFrom_NoDup. constructor.
    + apply NoDup_filter, PERMISSIONS_NoDup.
  - intros a b Ha Hb. apply orderKey_injective; now apply (lowPart_catalog perms).
Qed.

(** The copy in user.ts is the function of role.ts. *)
Lemma normalizePermissions_copies (perms : list string) :
  UserDomain.normalizePermissions perms = Role.normalizePermissions perms.
Proof. reflexivity. Qed.

Lemma normalizePermissions_In (perms : list string) (p : string) :
  In p (Role.normalizePermissions perms) <-> In p perms /\ isPermission p = true.
Proof.
  unfold Role.normalizePermissions.
  split.
  - intro H. apply (Permutation_in _ (sort_perm Role.orderKey _)) in H.
    rewrite collectUnique_collectFrom in H. apply collectFrom_In in H.
    destruct H as [[]|H]. exact H.
  - intro H. apply (Permutation_in _ (Permutation_sym (sort_perm Role.orderKey _))).
    rewrite collectUnique_collectFrom. apply collectFrom_In. now right.
Qed.

Lemma normalizePermissions_NoDup (perms : list string) :
  NoDup (Role.normalizePermissions perms).
Proof.
  unfold Role.normalizePermissions.
  apply (Permutation_NoDup (Permutation_sym (sort_perm Role.orderKey _))).
  rewrite collectUnique_collectFrom. apply collectFrom_NoDup. constructor.
Qed.

Lemma normalizePermissions_sorted (perms : list string) :
  Sorted (leKey Role.orderKey) (Role.normalizePermissions perms).
Proof. apply sort_sorted. Qed.

Lemma normalizePermissions_idempotent (perms : list string) :
  Role.normalizePermissions (Role.normalizePermissions perms)
  = Role.normalizePermissions perms.
Proof.
  set (n := Role.normalizePermissions perms).
  unfold Role.normalizePermissions at 1.
  rewrite collectUnique_collectFrom, collectFrom_fresh.
  - simpl. apply sort_of_sorted, normalizePermissions_sorted.
  - apply normalizePermissions_NoDup.
  - intros p Hp. now apply normalizePermissions_In in Hp.
  - intros p _ [].
Qed.

Lemma wildcardPart_In (perms : list string) (p : string) :
  In p (wildcardPart perms) <->
  In p perms /\ isPermission p = true /\ outsideCatalog p = true.
Proof.
  unfold wildcardPart. rewrite filter_In, collectUnique_collectFrom, collectFrom_In.
  simpl. tauto.
Qed.

Lemma wildcardPart_NoDup (perms : list string) : NoDup (wildcardPart perms).
Proof.
  apply NoDup_filter. rewrite collectUnique_collectFrom.
  apply collectFrom_NoDup. constructor.
Qed.

Lemma catalogPart_same_elements (X Y : list string) :
  (forall p, In p X <-> In p Y) -> catalogPart X = catalogPart Y.
Proof.
  intro H. apply filter_ext. intro p.
  destruct (Js.has Y p) eqn:E.
  - apply has_In. apply H. now apply has_In.
  - apply has_false. intro Hin. apply H in Hin. apply has_false in E. contradiction.
Qed.

Lemma wildcardPart_same_elements (X Y : list string) :
  (forall p, In p X <-> In p Y) -> Permutation (wildcardPart X) (wildcardPart Y).
Proof.
  intro H. apply NoDup_Permutation; try apply wildcardPart_NoDup.
  intro p. rewrite !wildcardPart_In, H. tauto.
Qed.

(** Inputs with the same elements and the same sequence of wildcards. *)
Lemma normalizePermissions_same_elements (X Y : list string) :
  (forall p, In p X <-> In p Y) ->
  wildcardPart X = wildcardPart Y ->
  Role.normalizePermissions X = Role.normalizePermissions Y.
Proof.
  intros H Hw. rewrite !normalizePermissions_closed_form.
  now rewrite (catalogPart_same_elements X Y H), Hw.
Qed.

(** Inputs with the same elements and at most one wildcard. *)
Lemma normalizePermissions_one_wildcard (X Y : list string) :
  (forall p, In p X <-> In p Y) ->
  (List.length (wildcardPart X) <= 1)%nat ->
  Role.normalizePermissions X = Role.normalizePermissions Y.
Proof.
  intros H Hlen. apply normalizePermissions_same_elements; [assumption|].
  pose proof (wildcardPart_same_elements X Y H) as Hp.
  destruct (wildcardPart X) as [|w [|w' t]]; simpl in Hlen.
  - symmetry. now apply Permutation_nil.
  - symmetry. now apply Permutation_length_1_inv.
  - lia.
Qed.

Lemma filter_none {A} (f : A -> bool) (l : list A) :
  (forall x, In x l -> f x = false) -> filter f l = [].
Proof.
  induction l as [|x t IH]; simpl; intro H; [reflexivity|].
  rewrite (H x (or_introl eq_refl)). apply IH. intros y Hy. apply H. now right.
Qed.

(** A normalized list inside of the input can be replaced by the list it
    was normalized from. *)
Lemma normalizePermissions_absorb (A P B : list string) :
  Role.normalizePermissions (A ++ Role.normalizePermissions P ++ B)
  = Role.normalizePermissions (A ++ P ++ B).
Proof.
  rewrite (normalizePermissions_closed_form (A ++ _ ++ B)).
  rewrite (normalizePermissions_closed_form (A ++ P ++ B)).
  apply (f_equal2 (@app string)).
  - apply filter_ext_in. intros p Hp.
    assert (E : In p (A ++ Role.normalizePermissions P ++ B) <-> In p (A ++ P ++ B)).
    { rewrite !in_app_iff, normalizePermissions_In.
      pose proof (catalog_isPermission p Hp) as Hv. clear Hp. tauto. }
    destruct (Js.has (A ++ P ++ B) p) eqn:E2.
    + apply has_In, E. now apply has_In.
    + apply has_false. intro Hin. apply E in Hin. apply has_false in E2.
      contradiction.
  - unfold wildcardPart. change Role.collectUnique with (collectFrom []).
    rewrite !collectFrom_app, !filter_collectFrom. f_equal.
    assert (Hn : filter outsideCatalog (Role.normalizePermissions P)
                 = collectFrom [] (filter outsideCatalog P)).
    { rewrite normalizePermissions_closed_form, filter_app.
      assert (Hc : filter outsideCatalog (catalogPart P) = []).
      { apply filter_none. intros q Hq. apply catalogPart_In in Hq.
        destruct Hq as [Hq _]. unfold outsideCatalog.
        apply negb_false_iff. now apply has_In. }
      rewrite Hc. simpl. unfold wildcardPart.
      rewrite collectUnique_collectFrom, !filter_collectFrom. simpl.
      f_equal. clear. induction P as [|q t IH]; simpl; [reflexivity|].
      destruct (outsideCatalog q) eqn:E; simpl; [rewrite E|]; now rewrite IH. }
    rewrite Hn. rewrite collectFrom_collectFrom by (intros q []).
    reflexivity.
Qed.

End NormalizeFacts.

Example normalizePermissions_example :
  Role.normalizePermissions
    ["role:*"; "user:read"; "bogus"; "user:create"; "user:read"; "user:*"; "role:*"]
  = ["user:create"; "user:read"; "role:*"; "user:*"].
Proof. reflexivity. Qed.

(** C7.  [normalizePermissions] is meant to return a normalized version of
    its input (its comment: stable order and unique), and it sorts by
    catalog index to that end; but its comparator gives every wildcard the
    same key and the sort is stable, so two wildcards keep the order of the
    input: two inputs with the same elements in a different order are
    normalized to different lists. *)
Lemma normalizePermissions_depends_on_wildcard_order :
  Permutation ["user:*"; "role:*"] ["role:*"; "user:*"]
  /\ Role.normalizePermissions ["user:*"; "role:*"] = ["user:*"; "role:*"]
  /\ Role.normalizePermissions ["role:*"; "user:*"] = ["role:*"; "user:*"]
  /\ Role.normalizePermissions ["user:*"; "role:*"]
     <> Role.normalizePermissions ["role:*"; "user:*"].
Proof.
  split; [apply perm_swap|].
  split; [reflexivity|]. split; [reflexivity|].
  vm_compute. discriminate.
Qed.

(** What [normalizePermissions] does do.  It keeps exactly the entries of its
    input that [isPermission] accepts, each once, sorted by catalog index with
    the entries outside of the catalog (the wildcards) last: its result is the
    catalog entries that occur in the input, in catalog order, followed by the
    wildcards of the input in the order of their first occurrence.  It is
    idempotent.  Two inputs with the same elements give results with the same
    catalog part and the same wildcards; the results are equal when the two
    inputs first mention their wildcards in the same order, and always when
    there is at most one wildcard. *)
Theorem normalizePermissions_characterisation :
  (forall X p, In p (Role.normalizePermissions X) <->
               In p X /\ Permission.isPermission p = true)
  /\ (forall X, NoDup (Role.normalizePermissions X))
  /\ (forall X, Sorted (leKey Role.orderKey) (Role.normalizePermissions X))
  /\ (forall p, ~ In p Permission.PERMISSIONS ->
                Role.orderKey p = Js.MAX_SAFE_INTEGER)
  /\ (forall p, In p Permission.PERMISSIONS ->
                nth_error Permission.PERMISSIONS (Z.to_nat (Role.orderKey p)) = Some p
                /\ (0 <= Role.orderKey p < Js.MAX_SAFE_INTEGER)%Z)
  /\ (forall X, Role.normalizePermissions X = catalogPart X ++ wildcardPart X)
  /\ (forall X, Role.normalizePermissions (Role.normalizePermissions X)
                = Role.normalizePermissions X)
  /\ (forall X Y, (forall p, In p X <-> In p Y) ->
                  catalogPart X = catalogPart Y
                  /\ Permutation (wildcardPart X) (wildcardPart Y))
  /\ (forall X Y, (forall p, In p X <-> In p Y) ->
                  wildcardPart X = wildcardPart Y ->
                  Role.normalizePermissions X = Role.normalizePermissions Y)
  /\ (forall X Y, (forall p, In p X <-> In p Y) ->
                  (List.length (wildcardPart X) <= 1)%nat ->
                  Role.normalizePermissions X = Role.normalizePermissions Y).
Proof.
  split; [exact normalizePermissions_In|].
  split; [exact normalizePermissions_NoDup|].
  split; [exact normalizePermissions_sorted|].
  split; [exact orderKey_outside|].
  split.
  { intros p Hp. destruct (orderKey_catalog p Hp) as [Hn Hk].
    split; [assumption|]. unfold Js.MAX_SAFE_INTEGER. lia. }
  split; [exact normalizePermissions_closed_form|].
  split; [exact normalizePermissions_idempotent|].
  split.
  { intros X Y H. split.
    - now apply catalogPart_same_elements.
    - now apply wildcardPart_same_elements. }
  split; [exact normalizePermissions_same_elements|].
  exact normalizePermissions_one_wildcard.
Qed.

(** ** getEffectivePermissions *)

Section EffectivePermissions.

Import Permission.

Lemma isRoleName_presets (rName : string) :
  Role.isRoleName rName = true <->
  rName = "admin" \/ rName = "security-analyst" \/ rName = "support"
  \/ rName = "user".
Proof.
  unfold Role.isRoleName, ROLE_PRESETS. simpl.
  destruct (String.eqb_spec rName "admin"); [tauto|].
  destruct (String.eqb_spec rName "security-analyst"); [tauto|].
  destruct (String.eqb_spec rName "support"); [tauto|].
  destruct (String.eqb_spec rName "user"); [tauto|].
  split; [discriminate | tauto].
Qed.

Lemma getPresetPermissions_getProp (rName : string) :
  Role.getPresetPermissions rName
  = match Js.getProp ROLE_PRESETS rName with Some preset => preset | None => [] end.
Proof.
  unfold Role.getPresetPermissions, Role.isRoleName.
  now destruct (Js.getProp ROLE_PRESETS rName).
Qed.

Lemma rolesFromCatalog_flat_map (roleCatalog : list Role.Role)
    (names : list string) (acc : list Role.Role) :
  fold_left
    (fun acc rName =>
       match find (fun r => String.eqb (Role.name r) rName) roleCatalog with
       | Some r => acc ++ [r]
       | None =>
           if Role.isRoleName rName
           then acc ++ [Role.createRole rName None None]
           else acc
       end) names acc
  = acc ++ flat_map (pushedRoles roleCatalog) names.
Proof.
  revert acc. induction names as [|n t IH]; intro acc; simpl.
  - now rewrite app_nil_r.
  - rewrite IH. unfold pushedRoles at 2.
    destruct (find _ roleCatalog); [now rewrite <- app_assoc|].
    destruct (Role.isRoleName n); [now rewrite <- app_assoc|].
    reflexivity.
Qed.

Lemma mergeRolesPermissions_flat_map (inputs : list Role.MergeInput) :
  Role.mergeRolesPermissions inputs
  = Role.normalizePermissions (flat_map inputPermissions inputs).
Proof.
  unfold Role.mergeRolesPermissions. f_equal.
  assert (H : forall acc,
             fold_left (fun all i =>
                          match i with
                          | Role.OfRole r => all ++ Role.permissions r
                          | Role.OfList l => all ++ l
                          end) inputs acc
             = acc ++ flat_map inputPermissions inputs).
  { induction inputs as [|i t IH]; intro acc; simpl.
    - now rewrite app_nil_r.
    - rewrite IH. destruct i; simpl; now rewrite <- app_assoc. }
  apply (H []).
Qed.

Lemma pushed_permissions_normalize (roleCatalog : list Role.Role)
    (n : string) (A B : list string) :
  Role.normalizePermissions
    (A ++ flat_map inputPermissions (map Role.OfRole (pushedRoles roleCatalog n)) ++ B)
  = Role.normalizePermissions (A ++ resolveRole roleCatalog n ++ B).
Proof.
  unfold pushedRoles, resolveRole.
  destruct (find _ roleCatalog) as [r|].
  - cbn [map flat_map inputPermissions]. now rewrite app_nil_r.
  - rewrite <- getPresetPermissions_getProp.
    destruct (Role.isRoleName n) eqn:En.
    + cbn [map flat_map inputPermissions Role.createRole Role.permissions].
      rewrite !app_nil_r. apply normalizePermissions_absorb.
    + unfold Role.getPresetPermissions. rewrite En. reflexivity.
Qed.

Lemma resolved_permissions_normalize (roleCatalog : list Role.Role)
    (names : list string) (A E : list string) :
  Role.normalizePermissions
    (A ++ flat_map inputPermissions
            (map Role.OfRole (flat_map (pushedRoles roleCatalog) names)) ++ E)
  = Role.normalizePermissions (A ++ flat_map (resolveRole roleCatalog) names ++ E).
Proof.
  revert A. induction names as [|n t IH]; intro A; [reflexivity|].
  cbn [flat_map]. rewrite map_app, flat_map_app, <- !app_assoc.
  rewrite pushed_permissions_normalize.
  rewrite !(app_assoc A (resolveRole roleCatalog n)). apply IH.
Qed.


End EffectivePermissions.

(** ** Sessions *)

Section SessionFacts.

Import Session.

Local Open Scope Z_scope.

Lemma isActive_iff (s : Session) (t : Z) :
  isActive s t = true <-> revokedAt s = None /\ t < expiresAt s.
Proof.
  unfold isActive, isExpired. destruct (revokedAt s); simpl.
  - split; [discriminate | intros [H _]; discriminate].
  - rewrite negb_true_iff, Z.leb_gt. intuition.
Qed.

Lemma revoked_stays_revoked (s s' : Session) :
  evolves s s' -> revokedAt s <> None -> revokedAt s' <> None.
Proof.
  induction 1 as [s|s s' when He IH|s s' when He IH]; intro Hr; simpl.
  - assumption.
  - now apply IH.
  - discriminate.
Qed.

Lemma revoked_not_active (s : Session) (t : Z) :
  revokedAt s <> None -> isActive s t = false.
Proof.
  intro H. unfold isActive. destruct (revokedAt s); [reflexivity | contradiction].
Qed.

(** *** Numbers as dates *)

(** An integral number and the binary64 value of the same integer give the
    same date; a fraction of a millisecond is dropped, also below zero; the
    infinities and the values beyond the last time value give no date. *)
Example timeValue_examples :
  Js.timeValue (Js.Double (Js.doubleOfZ 1700000000000))
  = Js.timeValue (Js.Integer 1700000000000)
  /\ Js.timeValue (Js.plus (Js.Integer 1700000000000)
                           (Js.times (Js.Double (Js.doubleOfZ 30)) (Js.Integer 60000)))
     = Js.timeValue (Js.plus (Js.Integer 1700000000000)
                             (Js.times (Js.Integer 30) (Js.Integer 60000)))
  /\ Js.timeValue (Js.Double (PrimFloat.div (Js.doubleOfZ 3) (Js.doubleOfZ 2)))
     = Some 1
  /\ Js.timeValue (Js.Double (PrimFloat.div (Js.doubleOfZ (-3)) (Js.doubleOfZ 2)))
     = Some (-1)
  /\ Js.timeValue (Js.Double PrimFloat.infinity) = None
  /\ Js.timeValue (Js.Double (Js.doubleOfZ 8640000000000000))
     = Some 8640000000000000
  /\ Js.timeValue (Js.Double (Js.doubleOfZ 8640000000000001)) = None
  /\ Js.timeValue (Js.Integer 8640000000000001) = None.
Proof. repeat split; vm_compute; reflexivity. Qed.

(** *** What createSession answers *)

Lemma validTime_iff (t : Z) :
  Js.validTime t = true <-> - 8640000000000000 <= t <= 8640000000000000.
Proof.
  unfold Js.validTime, Js.MAX_TIME. rewrite andb_true_iff, !Z.leb_le. tauto.
Qed.

(** With an integral TTL: the session, when the expiry is a time value. *)
Lemma createSession_integral (params : CreateParams) (clock m : Z) :
  effectiveTtl params = Js.Integer m ->
  Js.validTime ((match p_now params with Some d => d | None => clock end)
                + m * 60000) = true ->
  createSession params clock
  = Ok {| id := p_id params;
          userId := p_userId params;
          issuedAt := match p_now params with Some d => d | None => clock end;
          expiresAt := (match p_now params with Some d => d | None => clock end)
                       + m * 60000;
          lastUsedAt := match p_now params with Some d => d | None => clock end;
          revokedAt := None;
          ipHash := p_ipHash params;
          userAgent := p_userAgent params |}.
Proof.
  intros Hm Hv. unfold createSession. fold (effectiveTtl params). rewrite Hm.
  cbn [Js.times Js.plus Js.timeValue]. rewrite Hv. reflexivity.
Qed.

Lemma createSession_integral_invalid (params : CreateParams) (clock m : Z) :
  effectiveTtl params = Js.Integer m ->
  Js.validTime ((match p_now params with Some d => d | None => clock end)
                + m * 60000) = false ->
  createSession params clock = Throw (RangeError "Invalid time value").
Proof.
  intros Hm Hv. unfold createSession. fold (effectiveTtl params). rewrite Hm.
  cbn [Js.times Js.plus Js.timeValue]. rewrite Hv. reflexivity.
Qed.



(** The only thing [createSession] throws. *)
Lemma createSession_throws (params : CreateParams) (clock : Z) (e : Exn) :
  createSession params clock = Throw e -> e = RangeError "Invalid time value".
Proof.
  unfold createSession. destruct (Js.timeValue _); cbn [Js.toISOString].
  - discriminate.
  - intro H. now inversion H.
Qed.



(** C5.  [isActive] holds exactly when [revokedAt] is unset and the time is
    strictly before [expiresAt]; a revoked session is inactive at every time,
    whatever its expiry, and stays so through every later change of the
    record; a session created with a TTL of 30 minutes is active one minute
    after its creation and inactive 31 minutes after it (it is created
    whenever its expiry, 30 minutes after its creation, is a time value). *)
Theorem isActive_characterisation :
  (forall s t, isActive s t = true <-> revokedAt s = None /\ t < expiresAt s)
  /\ (forall s when t, isActive (revokeSession s when) t = false)
  /\ (forall s when s' t,
         evolves (revokeSession s when) s' -> isActive s' t = false)
  /\ (forall id userId now ipHash userAgent clock,
         let T := match now with Some d => d | None => clock end in
         - 8640000000000000 <= T + 30 * 60000 <= 8640000000000000 ->
         exists s,
           createSession
             (mkCreateParams id userId (Some (Js.Integer 30)) now ipHash userAgent)
             clock
           = Ok s
           /\ issuedAt s = T
           /\ isActive s (T + 1 * 60000) = true
           /\ isActive s (T + 31 * 60000) = false).
Proof.
  split; [exact isActive_iff|].
  split; [reflexivity|].
  split.
  { intros s when s' t H. apply revoked_not_active.
    apply (revoked_stays_revoked _ _ H). discriminate. }
  intros id userId now ipHash userAgent clock T Hrange.
  eexists. split.
  { apply (createSession_integral _ clock 30); [reflexivity|].
    apply validTime_iff. exact Hrange. }
  split; [reflexivity|]. split.
  - apply isActive_iff. split; [reflexivity|]. subst T. cbn. lia.
  - unfold isActive, isExpired. subst T. cbn.
    apply negb_false_iff, Z.leb_le. lia.
Qed.



End SessionFacts.

(** ** The auth service *)

Section AuthFacts.

Import Env Auth.

Local Open Scope Z_scope.

Variable rt : Runtime.

Lemma find_existsb {A} (f : A -> bool) (l : list A) (a : A) :
  find f l = Some a -> existsb f l = true.
Proof.
  intro H. apply find_some in H. apply existsb_exists. now exists a.
Qed.

(** The record found under a key is still found after it was replaced by a
    record with the same key and the same identifier. *)
Lemma find_replaced {A} (P : A -> bool) (ident : A -> string) (l : list A) (a a' : A) :
  find P l = Some a -> P a' = true -> ident a' = ident a ->
  find P (map (fun x => if String.eqb (ident x) (ident a') then a' else x) l)
  = Some a'.
Proof.
  intros Hf HP Hid. induction l as [|x t IH]; simpl in *; [discriminate|].
  destruct (P x) eqn:Px.
  - inversion Hf; subst x. rewrite Hid, String.eqb_refl. now rewrite HP.
  - destruct (String.eqb (ident x) (ident a')).
    + now rewrite HP.
    + rewrite Px. now apply IH.
Qed.

Lemma updateUser_found (updated : UserDomain.User) (w : World) :
  existsb (fun u => String.eqb (UserDomain.id u) (UserDomain.id updated)) (users w)
  = true ->
  updateUser updated w
  = (Ok tt, mkWorld (replaceUser updated (users w)) (sessions w) (tick w)
                    (effects w ++ [UsersWritten (replaceUser updated (users w))])).
Proof.
  intro H. unfold updateUser, bind, listUsers. rewrite H. reflexivity.
Qed.

Lemma updateSession_found (updated : Session.Session) (w : World) :
  existsb (fun s => String.eqb (Session.id s) (Session.id updated)) (sessions w)
  = true ->
  updateSession updated w
  = (Ok tt, mkWorld (users w) (replaceSession updated (sessions w)) (tick w)
                    (effects w ++ [SessionsWritten (replaceSession updated (sessions w))])).
Proof.
  intro H. unfold updateSession, bind, listSessions. rewrite H. reflexivity.
Qed.

(** *** Lockout *)

(** C2.  While the account is locked ([lockedUntil] is positive and later
    than the clock), [loginUser] throws ACCOUNT_LOCKED; nothing is compared,
    hashed or written: the users, the sessions and the list of effects are
    what they were, and only the clock was read. *)
Theorem loginUser_locked :
  forall (params : LoginParams) (w : World) (user : UserDomain.User) (l : Z),
    getUserByEmail rt (UserDomain.normalizeEmail rt (l_email params)) w
    = (Ok (Some user), w) ->
    UserDomain.lockedUntil user = Some l ->
    l > 0 ->
    l > clock rt (tick w) ->
    loginUser rt params w = (Throw (AuthError ACCOUNT_LOCKED), observed w)
    /\ users (observed w) = users w
    /\ sessions (observed w) = sessions w
    /\ effects (observed w) = effects w
    /\ getUserByEmail rt (UserDomain.normalizeEmail rt (l_email params)) (observed w)
       = (Ok (Some user), observed w).
Proof.
  intros params w user l Hfound Hl Hpos Hnow.
  split; [|split; [reflexivity|split; [reflexivity|split; [reflexivity|]]]].
  - unfold loginUser, bind. rewrite Hfound.
    unfold newDate, bind, observe, ret. fold (observed w).
    unfold isLocked. rewrite Hl.
    replace (negb (l =? 0)) with true by (symmetry; apply negb_true_iff, Z.eqb_neq; lia).
    replace (0 <? l) with true by (symmetry; apply Z.ltb_lt; lia).
    replace (clock rt (tick w) <? l) with true by (symmetry; apply Z.ltb_lt; lia).
    reflexivity.
  - revert Hfound. unfold getUserByEmail.
    destruct (negb _); unfold ret, bind, listUsers; simpl; intro H;
      inversion H; reflexivity.
Qed.

(** *** Running the primitive steps *)

Lemma newDate_run (w : World) :
  newDate rt w = (Ok (clock rt (tick w)), observed w).
Proof. reflexivity. Qed.

Lemma verifyPassword_run (plain hash : string) (w : World) :
  verifyPassword rt plain hash w
  = (Ok (bcrypt_compare rt plain hash), emitted (PasswordCompared plain hash) w).
Proof. reflexivity. Qed.

Lemma hashPassword_run (plain : string) (w : World) :
  hashPassword rt plain w
  = (Ok (bcrypt_hash rt plain (bcrypt_genSalt rt (tick w) (SALT_ROUNDS rt))),
     emitted (PasswordHashed plain) (observed w)).
Proof. reflexivity. Qed.

Lemma authenticatorVerify_run (token secret : string) (w : World) :
  authenticatorVerify rt token secret w
  = (Ok (authenticator_verify rt (tick w) token secret),
     emitted (OtpChecked token secret) (observed w)).
Proof. reflexivity. Qed.

Lemma bind_run {A B} (c : M A) (k : A -> M B) (w w' : World) (a : A) :
  c w = (Ok a, w') -> bind c k w = k a w'.
Proof. intro H. unfold bind. now rewrite H. Qed.

Lemma bind_throw {A B} (c : M A) (k : A -> M B) (w w' : World) (e : Exn) :
  c w = (Throw e, w') -> bind c k w = (Throw e, w').
Proof. intro H. unfold bind. now rewrite H. Qed.

(** *** Looking users up *)

Lemma getUserByEmail_found (email : string) (w w' : World) (user : UserDomain.User) :
  getUserByEmail rt email w = (Ok (Some user), w') ->
  w' = w
  /\ find (byEmail rt (UserDomain.normalizeEmail rt email)) (users w) = Some user
  /\ UserDomain.isValidEmail rt (UserDomain.normalizeEmail rt email) = true.
Proof.
  unfold getUserByEmail.
  destruct (UserDomain.isValidEmail rt _) eqn:E; simpl;
    unfold ret, bind, listUsers; intro H; inversion H; subst; auto.
Qed.

Lemma getUserByEmail_other_world (email : string) (w' : World)
    (user : UserDomain.User) :
  UserDomain.isValidEmail rt (UserDomain.normalizeEmail rt email) = true ->
  find (byEmail rt (UserDomain.normalizeEmail rt email)) (users w') = Some user ->
  getUserByEmail rt email w' = (Ok (Some user), w').
Proof.
  intros Hv Hf. unfold getUserByEmail. rewrite Hv. simpl.
  unfold bind, listUsers, ret. fold (byEmail rt (UserDomain.normalizeEmail rt email)).
  now rewrite Hf.
Qed.

Lemma found_exists (P : UserDomain.User -> bool) (l : list UserDomain.User)
    (user updated : UserDomain.User) :
  find P l = Some user ->
  UserDomain.id updated = UserDomain.id user ->
  existsb (fun u => String.eqb (UserDomain.id u) (UserDomain.id updated)) l = true.
Proof.
  intros Hf Hid. apply find_some in Hf. destruct Hf as [Hin _].
  apply existsb_exists. exists user. split; [assumption|].
  rewrite Hid. apply String.eqb_refl.
Qed.

(** *** bumpFailed *)

Lemma bumped_id (user : UserDomain.User) (n : nat) :
  UserDomain.id (bumped rt user n) = UserDomain.id user.
Proof. unfold bumped. now destruct (MAX_FAILED <=? attempts user + 1). Qed.

Lemma bumped_email (user : UserDomain.User) (n : nat) :
  UserDomain.email (bumped rt user n) = UserDomain.email user.
Proof. unfold bumped. now destruct (MAX_FAILED <=? attempts user + 1). Qed.

Lemma bumpFailed_run (user : UserDomain.User) (w : World) :
  existsb (fun u => String.eqb (UserDomain.id u) (UserDomain.id user)) (users w) = true ->
  bumpFailed rt user w = (Ok tt, afterBump rt user w).
Proof.
  intro Hex. unfold bumpFailed, afterBump, bumped, bumpReads.
  fold (attempts user).
  destruct (MAX_FAILED <=? attempts user + 1) eqn:E.
  - unfold bind at 1. unfold bind at 1. rewrite newDate_run. unfold ret.
    unfold bind. rewrite newDate_run. rewrite updateUser_found by exact Hex.
    simpl. repeat f_equal; lia.
  - unfold bind at 1. unfold ret at 1. unfold bind. rewrite newDate_run.
    rewrite updateUser_found by exact Hex.
    simpl. repeat f_equal; lia.
Qed.

Lemma bumped_isBumpOf (user : UserDomain.User) (n : nat) :
  isBumpOf user (bumped rt user n) (clock rt n).
Proof.
  unfold isBumpOf, bumped, MAX_FAILED, LOCK_MINUTES.
  destruct (5 <=? attempts user + 1) eqn:E; simpl; repeat split;
    try reflexivity; intro H; try reflexivity.
  - apply Z.leb_le in E. lia.
  - apply Z.leb_gt in E. lia.
Qed.

(** The user found under an e-mail is, after the bump, found under it again,
    as the bumped rt record. *)
Lemma found_after_bump (email : string) (w : World) (user user1 : UserDomain.User) :
  getUserByEmail rt email w = (Ok (Some user), w) ->
  UserDomain.id user1 = UserDomain.id user ->
  UserDomain.email user1 = UserDomain.email user ->
  forall w', users w' = replaceUser (bumped rt user1 (tick w')) (users w) \/
             (exists n, users w' = replaceUser (bumped rt user1 n) (users w)) ->
  exists n, users w' = replaceUser (bumped rt user1 n) (users w)
            /\ getUserByEmail rt email w' = (Ok (Some (bumped rt user1 n)), w').
Proof.
  intros Hfound Hid Hemail w' Hw'.
  assert (Hn : exists n, users w' = replaceUser (bumped rt user1 n) (users w)).
  { destruct Hw' as [H|H]; [eexists; exact H | exact H]. }
  destruct Hn as [n Hn]. exists n. split; [assumption|].
  apply getUserByEmail_found in Hfound. destruct Hfound as [_ [Hf Hv]].
  apply getUserByEmail_other_world; [assumption|]. rewrite Hn.
  unfold replaceUser.
  apply (find_replaced _ UserDomain.id _ user).
  - assumption.
  - apply find_some in Hf. destruct Hf as [_ Hf]. unfold byEmail in *.
    now rewrite bumped_email, Hemail.
  - now rewrite bumped_id.
Qed.

(** A wrong password: the attempt is counted and written, and the login
    fails with INVALID_CREDENTIALS. *)
Lemma loginUser_bad_password (params : LoginParams) (w : World)
    (user : UserDomain.User) :
  getUserByEmail rt (UserDomain.normalizeEmail rt (l_email params)) w
  = (Ok (Some user), w) ->
  isLocked user (clock rt (tick w)) = false ->
  bcrypt_compare rt (l_password params) (UserDomain.passHash user) = false ->
  loginUser rt params w
  = (Throw (AuthError INVALID_CREDENTIALS),
     afterBump rt user
       (emitted (PasswordCompared (l_password params) (UserDomain.passHash user))
                (observed w))).
Proof.
  intros Hfound Hlock Hpw.
  unfold loginUser. rewrite (bind_run _ _ _ _ _ Hfound).
  rewrite (bind_run _ _ _ _ _ (newDate_run w)). rewrite Hlock.
  rewrite (bind_run _ _ _ _ _ (verifyPassword_run _ _ _)). rewrite Hpw.
  cbv [negb]. apply getUserByEmail_found in Hfound. destruct Hfound as [_ [Hf _]].
  erewrite bind_run; [reflexivity|].
  apply bumpFailed_run. simpl. now apply (found_exists _ _ user user Hf).
Qed.

(** *** The stages of loginUser *)

Lemma verifyTotp_run (user : UserDomain.User) (code : string) (w : World) :
  verifyTotp rt user code w = (Ok (totpAccepts rt user code (tick w)), afterTotp user code w).
Proof.
  unfold verifyTotp, totpAccepts, afterTotp, Js.falsy.
  destruct (UserDomain.mfaSecret user) as [secret|]; [|reflexivity].
  destruct (String.eqb secret ""); [reflexivity|].
  now rewrite authenticatorVerify_run.
Qed.

(** [loginUser], stage by stage, for a user that was found. *)
Lemma loginUser_stages (params : LoginParams) (w : World) (user : UserDomain.User) :
  getUserByEmail rt (UserDomain.normalizeEmail rt (l_email params)) w
  = (Ok (Some user), w) ->
  let user1 := rehashed rt params user (S (tick w)) in
  let w2 := afterPassword rt params user w in
  loginUser rt params w
  = if isLocked user (clock rt (tick w))
    then (Throw (AuthError ACCOUNT_LOCKED), observed w)
    else if negb (bcrypt_compare rt (l_password params) (UserDomain.passHash user))
    then (Throw (AuthError INVALID_CREDENTIALS),
          afterBump rt user
            (emitted (PasswordCompared (l_password params) (UserDomain.passHash user))
                     (observed w)))
    else if mfaOn user
    then if Js.falsy (l_otpCode params)
         then (Throw (AuthError MFA_REQUIRED), w2)
         else if negb (totpAccepts rt user1 (otpCodeOf params) (tick w2))
         then (Throw (AuthError MFA_INVALID),
               afterBump rt user1 (afterTotp user1 (otpCodeOf params) w2))
         else completeLogin rt params user1 (afterTotp user1 (otpCodeOf params) w2)
    else completeLogin rt params user1 w2.
Proof.
  intros Hfound user1 w2.
  pose proof (getUserByEmail_found _ _ _ _ Hfound) as [_ [Hf _]].
  assert (Hex : forall u, UserDomain.id u = UserDomain.id user -> forall w',
             users w' = users w ->
             existsb (fun x => String.eqb (UserDomain.id x) (UserDomain.id u)) (users w')
             = true).
  { intros u Hu w' Hw'. rewrite Hw'. now apply (found_exists _ _ user u Hf). }
  unfold loginUser. rewrite (bind_run _ _ _ _ _ Hfound).
  rewrite (bind_run _ _ _ _ _ (newDate_run w)).
  destruct (isLocked user (clock rt (tick w))); [reflexivity|].
  rewrite (bind_run _ _ _ _ _ (verifyPassword_run _ _ _)).
  destruct (bcrypt_compare rt (l_password params) (UserDomain.passHash user)).
  2:{ cbv [negb]. erewrite bind_run; [reflexivity|].
      apply bumpFailed_run. now apply Hex. }
  cbv [negb].
  assert (Hid1 : UserDomain.id user1 = UserDomain.id user).
  { unfold user1, rehashed. now destruct (needsRehash rt _). }
  assert (Hmfa1 : UserDomain.mfaEnabled user1 = UserDomain.mfaEnabled user).
  { unfold user1, rehashed. now destruct (needsRehash rt _). }
  assert (Hw2 : users w2 = users w).
  { unfold w2, afterPassword. now destruct (needsRehash rt _). }
  assert (Hstage :
    (if needsRehash rt (UserDomain.passHash user)
     then bind (hashPassword rt (l_password params))
               (fun h => ret (UserDomain.set_passHash h user))
     else ret user)
      (emitted (PasswordCompared (l_password params) (UserDomain.passHash user))
               (observed w))
    = (Ok user1, w2)).
  { unfold user1, w2, rehashed, afterPassword.
    destruct (needsRehash rt (UserDomain.passHash user)); [|reflexivity].
    now rewrite (bind_run _ _ _ _ _ (hashPassword_run _ _)). }
  rewrite (bind_run _ _ _ _ _ Hstage).
  unfold mfaOn. rewrite <- Hmfa1.
  destruct (match UserDomain.mfaEnabled user1 with Some b => b | None => false end).
  - destruct (Js.falsy (l_otpCode params)); [reflexivity|].
    fold (otpCodeOf params).
    unfold bind at 1. unfold bind at 1.
    rewrite verifyTotp_run.
    destruct (totpAccepts rt user1 (otpCodeOf params) (tick w2)); cbv [negb].
    + reflexivity.
    + erewrite bind_run; [reflexivity|].
      apply bumpFailed_run. apply Hex; [assumption|].
      unfold afterTotp. destruct (UserDomain.mfaSecret user1) as [secret|];
        [destruct (String.eqb secret "")|]; assumption.
  - reflexivity.
Qed.

Lemma getUserByEmail_total (email : string) (w : World) :
  exists found, getUserByEmail rt email w = (Ok found, w).
Proof.
  unfold getUserByEmail. destruct (negb _); eexists; reflexivity.
Qed.

(** The end of [loginUser] throws no [AuthError]: it returns, or
    [createSession] throws its [RangeError]. *)
Lemma completeLogin_no_AuthError (params : LoginParams) (user : UserDomain.User)
    (w : World) :
  existsb (fun u => String.eqb (UserDomain.id u) (UserDomain.id user)) (users w) = true ->
  forall e, fst (completeLogin rt params user w) <> Throw (AuthError e).
Proof.
  intros Hex e. unfold completeLogin.
  rewrite (bind_run _ _ _ _ _ (newDate_run w)).
  erewrite bind_run; [|apply updateUser_found; exact Hex].
  unfold bind at 1, observe at 1.
  rewrite (bind_run _ _ _ _ _ (newDate_run _)).
  unfold bind at 1, call at 1.
  destruct (Session.createSession _ _) as [session|e0] eqn:Hcs.
  - cbn. discriminate.
  - apply createSession_throws in Hcs. subst e0. cbn. discriminate.
Qed.

Lemma rehashed_fields (params : LoginParams) (user : UserDomain.User) (n : nat) :
  UserDomain.id (rehashed rt params user n) = UserDomain.id user
  /\ UserDomain.email (rehashed rt params user n) = UserDomain.email user
  /\ attempts (rehashed rt params user n) = attempts user
  /\ UserDomain.lockedUntil (rehashed rt params user n) = UserDomain.lockedUntil user
  /\ UserDomain.roles (rehashed rt params user n) = UserDomain.roles user
  /\ UserDomain.extraPermissions (rehashed rt params user n)
     = UserDomain.extraPermissions user
  /\ UserDomain.mfaEnabled (rehashed rt params user n) = UserDomain.mfaEnabled user
  /\ UserDomain.mfaSecret (rehashed rt params user n) = UserDomain.mfaSecret user.
Proof.
  unfold rehashed. destruct (needsRehash rt _); repeat split; reflexivity.
Qed.

Lemma isBumpOf_rehashed (params : LoginParams) (user user' : UserDomain.User)
    (n : nat) (t : Z) :
  isBumpOf (rehashed rt params user n) user' t -> isBumpOf user user' t.
Proof.
  destruct (rehashed_fields params user n)
    as [Hi [He [Ha [Hl [Hr [Hx [Hm Hs]]]]]]].
  unfold isBumpOf. rewrite Ha, Hl, Hi, He, Hr, Hx, Hm, Hs. tauto.
Qed.

Lemma afterPassword_frame (params : LoginParams) (user : UserDomain.User) (w : World) :
  users (afterPassword rt params user w) = users w
  /\ sessions (afterPassword rt params user w) = sessions w
  /\ (tick w < tick (afterPassword rt params user w))%nat.
Proof.
  unfold afterPassword. destruct (needsRehash rt _); simpl; repeat split; lia.
Qed.

Lemma afterTotp_frame (user : UserDomain.User) (code : string) (w : World) :
  users (afterTotp user code w) = users w
  /\ sessions (afterTotp user code w) = sessions w
  /\ (tick w <= tick (afterTotp user code w))%nat.
Proof.
  unfold afterTotp. destruct (UserDomain.mfaSecret user) as [secret|];
    [destruct (String.eqb secret "")|]; simpl; repeat split; lia.
Qed.

Lemma afterBump_frame (user : UserDomain.User) (w : World) :
  users (afterBump rt user w) = replaceUser (bumped rt user (tick w)) (users w)
  /\ sessions (afterBump rt user w) = sessions w
  /\ (tick w < tick (afterBump rt user w))%nat
  /\ effects (afterBump rt user w)
     = effects w ++ [UsersWritten (users (afterBump rt user w))].
Proof.
  unfold afterBump, bumpReads. simpl.
  destruct (MAX_FAILED <=? attempts user + 1); repeat split; lia.
Qed.

(** A login that failed on the credentials or on the MFA code has counted
    the attempt: the stored record was bumped. *)
Lemma loginUser_failed_inv (params : LoginParams) (w w' : World) (e : AuthCode) :
  loginUser rt params w = (Throw (AuthError e), w') ->
  e = INVALID_CREDENTIALS \/ e = MFA_INVALID ->
  exists user user' n,
    getUserByEmail rt (UserDomain.normalizeEmail rt (l_email params)) w
    = (Ok (Some user), w)
    /\ isLocked user (clock rt (tick w)) = false
    /\ isBumpOf user user' (clock rt n)
    /\ (tick w < n)%nat /\ (n < tick w')%nat
    /\ users w' = replaceUser user' (users w)
    /\ sessions w' = sessions w
    /\ getUserByEmail rt (UserDomain.normalizeEmail rt (l_email params)) w'
       = (Ok (Some user'), w').
Proof.
  intros Hrun He.
  destruct (getUserByEmail_total (UserDomain.normalizeEmail rt (l_email params)) w)
    as [[user|] Hfound].
  2:{ unfold loginUser in Hrun. rewrite (bind_run _ _ _ _ _ Hfound) in Hrun.
      unfold throw in Hrun. inversion Hrun; subst.
      destruct He; discriminate. }
  pose proof (getUserByEmail_found _ _ _ _ Hfound) as [_ [Hf _]].
  rewrite (loginUser_stages params w user Hfound) in Hrun.
  cbv zeta in Hrun.
  set (user1 := rehashed rt params user (S (tick w))) in *.
  set (w2 := afterPassword rt params user w) in *.
  destruct (rehashed_fields params user (S (tick w)))
    as [Hid1 [Hem1 _]]. fold user1 in Hid1, Hem1.
  destruct (afterPassword_frame params user w) as [Hu2 [Hs2 Ht2]]. fold w2 in Hu2, Hs2, Ht2.
  pose proof (getUserByEmail_found _ _ _ _ Hfound) as [_ [_ Hv]].
  assert (Hbump : forall u1 w3,
             UserDomain.id u1 = UserDomain.id user ->
             UserDomain.email u1 = UserDomain.email user ->
             (forall u' t, isBumpOf u1 u' t -> isBumpOf user u' t) ->
             users w3 = users w -> sessions w3 = sessions w ->
             (tick w < tick w3)%nat ->
             exists user' n,
               isBumpOf user user' (clock rt n)
               /\ (tick w < n)%nat /\ (n < tick (afterBump rt u1 w3))%nat
               /\ users (afterBump rt u1 w3) = replaceUser user' (users w)
               /\ sessions (afterBump rt u1 w3) = sessions w
               /\ getUserByEmail rt (UserDomain.normalizeEmail rt (l_email params))
                    (afterBump rt u1 w3)
                  = (Ok (Some user'), afterBump rt u1 w3)).
  { intros u1 w3 Hi He1 Hb Hu3 Hs3 Ht3.
    destruct (afterBump_frame u1 w3) as [Hu [Hs [Ht _]]].
    exists (bumped rt u1 (tick w3)), (tick w3).
    split; [apply Hb, bumped_isBumpOf|].
    split; [exact Ht3|]. split; [exact Ht|].
    split; [now rewrite Hu, Hu3|]. split; [now rewrite Hs, Hs3|].
    apply getUserByEmail_other_world; [assumption|].
    rewrite Hu, Hu3. unfold replaceUser.
    apply (find_replaced _ UserDomain.id _ user); [assumption| |].
    - apply find_some in Hf. destruct Hf as [_ Hf]. unfold byEmail in *.
      now rewrite bumped_email, He1.
    - now rewrite bumped_id. }
  assert (Hok : forall w3, users w3 = users w ->
             completeLogin rt params user1 w3 <> (Throw (AuthError e), w')).
  { intros w3 Hu3 Hc.
    apply (completeLogin_no_AuthError params user1 w3) with (e := e).
    - rewrite Hu3. now apply (found_exists _ _ user user1 Hf).
    - now rewrite Hc. }
  destruct (isLocked user (clock rt (tick w))) eqn:Hlock.
  { inversion Hrun; subst. destruct He; discriminate. }
  destruct (bcrypt_compare rt (l_password params) (UserDomain.passHash user));
    cbv [negb] in Hrun.
  2:{ inversion Hrun as [[Hcode Hw']]. clear Hrun.
      destruct (Hbump user
                  (emitted (PasswordCompared (l_password params)
                                             (UserDomain.passHash user))
                           (observed w)))
        as [user' [n Hn]]; try reflexivity; [auto | simpl; lia |].
      exists user, user', n. tauto. }
  destruct (mfaOn user).
  - destruct (Js.falsy (l_otpCode params)).
    { inversion Hrun; subst. destruct He; discriminate. }
    destruct (afterTotp_frame user1 (otpCodeOf params) w2) as [Hu3 [Hs3 Ht3]].
    destruct (totpAccepts rt user1 (otpCodeOf params) (tick w2)); cbv [negb] in Hrun.
    + exfalso. apply (Hok _ (eq_trans Hu3 Hu2) Hrun).
    + inversion Hrun as [[Hcode Hw']].
      destruct (Hbump user1 (afterTotp user1 (otpCodeOf params) w2))
        as [user' [n Hn]];
        [assumption | assumption
         | intros u' t; apply (isBumpOf_rehashed params user u' (S (tick w)))
         | congruence | congruence | lia |].
      exists user, user', n. tauto.
  - exfalso. apply (Hok _ Hu2 Hrun).
Qed.

(** *** Several logins in a row *)

Lemma runLogins_failures (attemptsList : list LoginParams) :
  forall (w : World) (user : UserDomain.User) (email : string),
    (forall params, In params attemptsList ->
                    UserDomain.normalizeEmail rt (l_email params) = email) ->
    getUserByEmail rt email w = (Ok (Some user), w) ->
    Forall credentialFailure (fst (runLogins rt attemptsList w)) ->
    exists user',
      getUserByEmail rt email (snd (runLogins rt attemptsList w))
      = (Ok (Some user'), snd (runLogins rt attemptsList w))
      /\ attempts user' = attempts user + Z.of_nat (List.length attemptsList)
      /\ (tick w <= tick (snd (runLogins rt attemptsList w)))%nat
      /\ (attemptsList <> [] ->
          UserDomain.failedLoginAttempts user'
          = Some (attempts user + Z.of_nat (List.length attemptsList))
          /\ (attempts user' >= 5 ->
              exists n, (tick w < n < tick (snd (runLogins rt attemptsList w)))%nat
                        /\ UserDomain.lockedUntil user'
                           = Some (clock rt n + 15 * 60000))).
Proof.
  induction attemptsList as [|params rest IH]; intros w user email Hemail Hfound Hall.
  - exists user. simpl. split; [assumption|]. split; [lia|]. split; [lia|].
    intro H. contradiction.
  - cbn [runLogins] in *.
    destruct (loginUser rt params w) as [outcome w1] eqn:Hrun.
    destruct (runLogins rt rest w1) as [outcomes w2] eqn:Hrest.
    cbn [fst snd] in *. inversion Hall as [|? ? Hfail Hall']; subst.
    assert (Hinv : exists e, outcome = Throw (AuthError e)
                             /\ (e = INVALID_CREDENTIALS \/ e = MFA_INVALID)).
    { destruct Hfail as [H|H]; rewrite H; eexists; split; eauto. }
    destruct Hinv as [e [Ho He]]. subst outcome.
    destruct (loginUser_failed_inv params w w1 e Hrun He)
      as [u [u1 [n [Hget [_ [Hb [Hn1 [Hn2 [_ [_ Hget1]]]]]]]]]].
    rewrite (Hemail params (or_introl eq_refl)) in Hget, Hget1.
    rewrite Hfound in Hget. inversion Hget; subst u. clear Hget.
    destruct Hb as [Hfa [Hlock5 [_ _]]].
    assert (Ha1 : attempts u1 = attempts user + 1).
    { unfold attempts at 1. now rewrite Hfa. }
    destruct (IH w1 u1 email) as [user' [Hget' [Hcount [Htick Hlast]]]].
    + intros p Hp. apply Hemail. now right.
    + assumption.
    + rewrite Hrest. assumption.
    + rewrite Hrest in Hget', Htick, Hlast. cbn [fst snd] in *.
      exists user'. split; [assumption|].
      split; [rewrite Hcount, Ha1; cbn [List.length]; lia|].
      split; [lia|]. intros _.
      destruct rest as [|p2 rest'].
      * cbn [runLogins] in Hrest. inversion Hrest; subst.
        rewrite Hget1 in Hget'. inversion Hget'; subst user'.
        split; [rewrite Hfa; f_equal; cbn; lia|].
        intro H5. exists n. split; [lia|]. apply Hlock5. lia.
      * destruct Hlast as [Hfa' Hlock']; [discriminate|].
        split; [rewrite Hfa', Ha1; f_equal; cbn [List.length]; lia|].
        intro H5. destruct (Hlock' H5) as [m [Hm Hl]].
        exists m. split; [lia | assumption].
Qed.

(** C1.  A login whose password does not verify counts the attempt: the
    stored record gets [failedLoginAttempts + 1], is locked for 15 minutes
    from the time read when that makes five, is written back, and the login
    fails with INVALID_CREDENTIALS.  A login whose MFA code is rejected does
    the same and fails with MFA_INVALID.  Five such failures in a row, of
    either kind, on an account that starts with no failed attempt leave it
    with five failed attempts and locked until 15 minutes after a time read
    during the run. *)
Theorem loginUser_counts_failures :
  (forall (params : LoginParams) (w : World) (user : UserDomain.User),
      getUserByEmail rt (UserDomain.normalizeEmail rt (l_email params)) w
      = (Ok (Some user), w) ->
      isLocked user (clock rt (tick w)) = false ->
      bcrypt_compare rt (l_password params) (UserDomain.passHash user) = false ->
      exists user' w',
        loginUser rt params w = (Throw (AuthError INVALID_CREDENTIALS), w')
        /\ isBumpOf user user' (clock rt (S (tick w)))
        /\ UserDomain.failedLoginAttempts user' = Some (attempts user + 1)
        /\ (attempts user + 1 = 5 ->
            UserDomain.lockedUntil user'
            = Some (clock rt (S (tick w)) + 15 * 60000))
        /\ users w' = replaceUser user' (users w)
        /\ effects w'
           = effects w
             ++ [PasswordCompared (l_password params) (UserDomain.passHash user);
                 UsersWritten (users w')]
        /\ getUserByEmail rt (UserDomain.normalizeEmail rt (l_email params)) w'
           = (Ok (Some user'), w'))
  /\ (forall (params : LoginParams) (w : World) (user : UserDomain.User)
             (code : string),
         getUserByEmail rt (UserDomain.normalizeEmail rt (l_email params)) w
         = (Ok (Some user), w) ->
         isLocked user (clock rt (tick w)) = false ->
         bcrypt_compare rt (l_password params) (UserDomain.passHash user) = true ->
         UserDomain.mfaEnabled user = Some true ->
         l_otpCode params = Some code ->
         code <> "" ->
         totpAccepts rt user code (tick (afterPassword rt params user w)) = false ->
         exists user' w' n,
           loginUser rt params w = (Throw (AuthError MFA_INVALID), w')
           /\ (tick w < n < tick w')%nat
           /\ isBumpOf user user' (clock rt n)
           /\ UserDomain.failedLoginAttempts user' = Some (attempts user + 1)
           /\ (attempts user + 1 = 5 ->
               UserDomain.lockedUntil user' = Some (clock rt n + 15 * 60000))
           /\ users w' = replaceUser user' (users w)
           /\ In (UsersWritten (users w')) (effects w')
           /\ getUserByEmail rt (UserDomain.normalizeEmail rt (l_email params)) w'
              = (Ok (Some user'), w'))
  /\ (forall (attemptsList : list LoginParams) (w : World) (user : UserDomain.User)
             (email : string),
         List.length attemptsList = 5%nat ->
         (forall params, In params attemptsList ->
                         UserDomain.normalizeEmail rt (l_email params) = email) ->
         getUserByEmail rt email w = (Ok (Some user), w) ->
         attempts user = 0 ->
         Forall credentialFailure (fst (runLogins rt attemptsList w)) ->
         exists user' n,
           getUserByEmail rt email (snd (runLogins rt attemptsList w))
           = (Ok (Some user'), snd (runLogins rt attemptsList w))
           /\ UserDomain.failedLoginAttempts user' = Some 5
           /\ (tick w < n < tick (snd (runLogins rt attemptsList w)))%nat
           /\ UserDomain.lockedUntil user' = Some (clock rt n + 15 * 60000)).
Proof.
  split; [|split].
  - intros params w user Hfound Hlock Hpw.
    pose proof (loginUser_bad_password params w user Hfound Hlock Hpw) as Hrun.
    destruct (loginUser_failed_inv params w _ _ Hrun (or_introl eq_refl))
      as [u [u' [n [Hget [_ [_ [_ [_ [_ [_ Hget']]]]]]]]]].
    set (w1 := emitted (PasswordCompared (l_password params) (UserDomain.passHash user))
                       (observed w)) in *.
    destruct (afterBump_frame user w1) as [Hu [_ [_ He]]].
    exists (bumped rt user (S (tick w))), (afterBump rt user w1).
    pose proof (bumped_isBumpOf user (S (tick w))) as Hb.
    split; [assumption|]. split; [exact Hb|].
    destruct Hb as [Hfa [H5 _]].
    split; [exact Hfa|]. split; [intro E; apply H5; lia|].
    split; [exact Hu|].
    split; [rewrite He; unfold w1; simpl; now rewrite <- app_assoc|].
    apply getUserByEmail_found in Hget' as Hfind. destruct Hfind as [_ [Hfind Hv]].
    apply getUserByEmail_other_world; [assumption|].
    rewrite Hu. unfold replaceUser.
    apply getUserByEmail_found in Hfound as [_ [Hf _]].
    apply (find_replaced _ UserDomain.id _ user); [assumption| |apply bumped_id].
    apply find_some in Hf. destruct Hf as [_ Hf]. unfold byEmail in *.
    now rewrite bumped_email.
  - intros params w user code Hfound Hlock Hpw Hmfa Hotp Hcode Htotp.
    pose proof (loginUser_stages params w user Hfound) as Hrun. cbv zeta in Hrun.
    rewrite Hlock, Hpw in Hrun. cbv [negb] in Hrun.
    unfold mfaOn in Hrun. rewrite Hmfa in Hrun.
    unfold otpCodeOf in Hrun. rewrite Hotp in Hrun. unfold Js.falsy in Hrun.
    apply String.eqb_neq in Hcode. rewrite Hcode in Hrun.
    assert (Htotp1 : totpAccepts rt (rehashed rt params user (S (tick w))) code
                       (tick (afterPassword rt params user w)) = false).
    { unfold totpAccepts in *.
      destruct (rehashed_fields params user (S (tick w)))
        as [_ [_ [_ [_ [_ [_ [_ Hs]]]]]]].
      now rewrite Hs. }
    rewrite Htotp1 in Hrun. cbv [negb] in Hrun.
    destruct (loginUser_failed_inv params w _ _ Hrun (or_intror eq_refl))
      as [u [u' [n [Hget [_ [Hb [Hn1 [Hn2 [Hu [_ Hget']]]]]]]]]].
    rewrite Hfound in Hget. inversion Hget; subst u. clear Hget.
    eexists u', _, n. split; [exact Hrun|].
    split; [lia|]. split; [exact Hb|].
    pose proof Hb as [Hfa [H5 _]].
    split; [exact Hfa|]. split; [intro E; apply H5; lia|].
    split; [exact Hu|]. split; [|exact Hget'].
    match goal with
    | |- In _ (effects (afterBump rt ?u1 ?w3)) =>
        destruct (afterBump_frame u1 w3) as [_ [_ [_ He]]]; rewrite He
    end.
    apply in_app_iff. right. now left.
  - intros attemptsList w user email Hlen Hemail Hfound H0 Hall.
    destruct (runLogins_failures attemptsList w user email Hemail Hfound Hall)
      as [user' [Hget [Hcount [_ Hlast]]]].
    destruct Hlast as [Hfa Hlock].
    { intro E. rewrite E in Hlen. discriminate. }
    rewrite Hlen, H0 in Hfa, Hcount. simpl in Hfa, Hcount.
    destruct Hlock as [n [Hn Hl]]; [lia|].
    exists user', n. tauto.
Qed.

(** *** logoutSession *)

Lemma getSessionById_run (id : string) (w : World) :
  getSessionById id w = (Ok (find (sessionById id) (sessions w)), w).
Proof. reflexivity. Qed.

Lemma logoutSession_not_found (sessionId : string) (w : World) :
  find (sessionById sessionId) (sessions w) = None ->
  logoutSession rt sessionId w = (Throw (AuthError SESSION_NOT_FOUND), w).
Proof.
  intro H. unfold logoutSession.
  rewrite (bind_run _ _ _ _ _ (getSessionById_run _ _)). now rewrite H.
Qed.

Lemma logoutSession_inactive (sessionId : string) (w : World) (s : Session.Session) :
  find (sessionById sessionId) (sessions w) = Some s ->
  Session.isActive s (clock rt (tick w)) = false ->
  logoutSession rt sessionId w = (Throw (AuthError SESSION_INACTIVE), observed w).
Proof.
  intros H Ha. unfold logoutSession.
  rewrite (bind_run _ _ _ _ _ (getSessionById_run _ _)). rewrite H.
  rewrite (bind_run _ _ _ _ _ (newDate_run w)). now rewrite Ha.
Qed.

Lemma logoutSession_active (sessionId : string) (w : World) (s : Session.Session) :
  find (sessionById sessionId) (sessions w) = Some s ->
  Session.isActive s (clock rt (tick w)) = true ->
  logoutSession rt sessionId w
  = (Ok (Session.toPublicSession
           (Session.revokeSession s (clock rt (S (tick w))))
           (clock rt (S (S (tick w))))),
     afterLogout rt s w).
Proof.
  intros H Ha. unfold logoutSession.
  rewrite (bind_run _ _ _ _ _ (getSessionById_run _ _)). rewrite H.
  rewrite (bind_run _ _ _ _ _ (newDate_run w)). rewrite Ha. cbv [negb].
  rewrite (bind_run _ _ _ _ _ (newDate_run (observed w))).
  erewrite bind_run.
  2:{ apply updateSession_found. simpl.
      apply find_some in H. destruct H as [Hin _].
      apply existsb_exists. exists s. split; [assumption | apply String.eqb_refl]. }
  reflexivity.
Qed.

Lemma find_after_logout (sessionId : string) (w : World) (s : Session.Session) :
  find (sessionById sessionId) (sessions w) = Some s ->
  find (sessionById sessionId) (sessions (afterLogout rt s w))
  = Some (Session.revokeSession s (clock rt (S (tick w)))).
Proof.
  intro H. unfold afterLogout. cbn [sessions]. unfold replaceSession.
  apply (find_replaced _ Session.id _ s); [assumption| |reflexivity].
  apply find_some in H. destruct H as [_ H]. exact H.
Qed.

(** C4.  [logoutSession] throws SESSION_NOT_FOUND when no session has the
    id; throws SESSION_INACTIVE, without touching the sessions, when the
    session is revoked or expired; and otherwise stores the session with
    [revokedAt] set to the time it reads and returns.  A second logout of the
    session it revoked throws SESSION_INACTIVE, which is not the error of an
    unknown id. *)
Theorem logoutSession_outcomes :
  (forall sessionId w,
      find (sessionById sessionId) (sessions w) = None ->
      logoutSession rt sessionId w = (Throw (AuthError SESSION_NOT_FOUND), w))
  /\ (forall sessionId w s,
         find (sessionById sessionId) (sessions w) = Some s ->
         (Session.revokedAt s <> None \/ Session.expiresAt s <= clock rt (tick w)) ->
         logoutSession rt sessionId w
         = (Throw (AuthError SESSION_INACTIVE), observed w)
         /\ sessions (observed w) = sessions w
         /\ users (observed w) = users w
         /\ effects (observed w) = effects w)
  /\ (forall sessionId w s,
         find (sessionById sessionId) (sessions w) = Some s ->
         Session.revokedAt s = None ->
         clock rt (tick w) < Session.expiresAt s ->
         let s' := Session.revokeSession s (clock rt (S (tick w))) in
         exists pub w',
           logoutSession rt sessionId w = (Ok pub, w')
           /\ Session.revokedAt s' = Some (clock rt (S (tick w)))
           /\ sessions w' = replaceSession s' (sessions w)
           /\ find (sessionById sessionId) (sessions w') = Some s'
           /\ effects w' = effects w ++ [SessionsWritten (sessions w')]
           /\ users w' = users w
           /\ logoutSession rt sessionId w'
              = (Throw (AuthError SESSION_INACTIVE), observed w'))
  /\ AuthError SESSION_INACTIVE <> AuthError SESSION_NOT_FOUND.
Proof.
  split; [exact logoutSession_not_found|].
  split.
  { intros sessionId w s Hf Hin. split; [|repeat split].
    apply (logoutSession_inactive sessionId w s Hf).
    destruct (Session.isActive s (clock rt (tick w))) eqn:E; [|reflexivity].
    apply isActive_iff in E. destruct E as [E1 E2].
    destruct Hin as [H|H]; [contradiction | lia]. }
  split; [|discriminate].
  intros sessionId w s Hf Hr He s'.
  assert (Ha : Session.isActive s (clock rt (tick w)) = true).
  { apply isActive_iff. split; assumption. }
  exists (Session.toPublicSession s' (clock rt (S (S (tick w))))), (afterLogout rt s w).
  split; [now apply logoutSession_active|].
  split; [reflexivity|]. split; [reflexivity|].
  split; [now apply find_after_logout|].
  split; [reflexivity|]. split; [reflexivity|].
  apply (logoutSession_inactive sessionId _ s').
  - now apply find_after_logout.
  - reflexivity.
Qed.

(** *** MFA setup and verification *)

Lemma getUserById_run (id : string) (w : World) :
  getUserById id w = (Ok (find (byId id) (users w)), w).
Proof. reflexivity. Qed.

Lemma found_by_id_exists (id : string) (w : World) (user updated : UserDomain.User) :
  find (byId id) (users w) = Some user ->
  UserDomain.id updated = UserDomain.id user ->
  existsb (fun u => String.eqb (UserDomain.id u) (UserDomain.id updated)) (users w)
  = true.
Proof. intros Hf Hid. now apply (found_exists _ _ user updated Hf). Qed.

Lemma find_by_id_replaced (id : string) (l : list UserDomain.User)
    (user updated : UserDomain.User) :
  find (byId id) l = Some user ->
  UserDomain.id updated = UserDomain.id user ->
  find (byId id) (replaceUser updated l) = Some updated.
Proof.
  intros Hf Hid. unfold replaceUser.
  apply (find_replaced _ UserDomain.id _ user); [assumption| |assumption].
  apply find_some in Hf. destruct Hf as [_ Hf]. unfold byId in *. now rewrite Hid.
Qed.

Lemma setupMfa_run (userId issuer : string) (w : World) (user : UserDomain.User) :
  find (byId userId) (users w) = Some user ->
  setupMfa rt userId issuer w
  = (Ok (authenticator_generateSecret rt (tick w),
         authenticator_keyuri rt (UserDomain.email user) issuer
           (authenticator_generateSecret rt (tick w))),
     afterSetupMfa rt user w).
Proof.
  intro Hf. unfold setupMfa.
  rewrite (bind_run _ _ _ _ _ (getUserById_run _ _)). rewrite Hf.
  unfold authenticatorGenerateSecret.
  unfold bind at 1. unfold bind at 1. unfold observe at 1.
  unfold bind at 1. unfold emit at 1. unfold ret at 1.
  unfold bind at 1. rewrite newDate_run.
  erewrite bind_run; [reflexivity|].
  rewrite updateUser_found.
  - unfold afterSetupMfa. simpl. now rewrite <- app_assoc.
  - simpl. now apply (found_by_id_exists userId w user user).
Qed.

Lemma verifyMfa_not_enabled (userId code : string) (w : World) (user : UserDomain.User) :
  find (byId userId) (users w) = Some user ->
  Js.falsy (UserDomain.mfaSecret user) = true ->
  verifyMfa rt userId code w = (Throw (AuthError MFA_NOT_ENABLED), w).
Proof.
  intros Hf Hs. unfold verifyMfa.
  rewrite (bind_run _ _ _ _ _ (getUserById_run _ _)). rewrite Hf. now rewrite Hs.
Qed.

Lemma verifyMfa_accepted (userId code secret : string) (w : World)
    (user : UserDomain.User) :
  find (byId userId) (users w) = Some user ->
  UserDomain.mfaSecret user = Some secret ->
  secret <> "" ->
  authenticator_verify rt (tick w) code secret = true ->
  verifyMfa rt userId code w = (Ok true, afterVerifyMfa rt user code secret w).
Proof.
  intros Hf Hs Hne Hok. unfold verifyMfa.
  rewrite (bind_run _ _ _ _ _ (getUserById_run _ _)). rewrite Hf.
  unfold Js.falsy. rewrite Hs. apply String.eqb_neq in Hne. rewrite Hne.
  rewrite (bind_run _ _ _ _ _ (authenticatorVerify_run _ _ _)). rewrite Hok.
  erewrite bind_run; [reflexivity|].
  rewrite (bind_run _ _ _ _ _ (newDate_run _)).
  rewrite updateUser_found.
  - unfold afterVerifyMfa. simpl. now rewrite <- app_assoc.
  - simpl. now apply (found_by_id_exists userId w user user).
Qed.

Lemma verifyMfa_rejected (userId code secret : string) (w : World)
    (user : UserDomain.User) :
  find (byId userId) (users w) = Some user ->
  UserDomain.mfaSecret user = Some secret ->
  secret <> "" ->
  authenticator_verify rt (tick w) code secret = false ->
  verifyMfa rt userId code w
  = (Ok false, emitted (OtpChecked code secret) (observed w)).
Proof.
  intros Hf Hs Hne Hok. unfold verifyMfa.
  rewrite (bind_run _ _ _ _ _ (getUserById_run _ _)). rewrite Hf.
  unfold Js.falsy. rewrite Hs. apply String.eqb_neq in Hne. rewrite Hne.
  rewrite (bind_run _ _ _ _ _ (authenticatorVerify_run _ _ _)). rewrite Hok.
  reflexivity.
Qed.

(** C8.  For an existing user [setupMfa] stores the secret it has just
    generated, with [mfaEnabled = false], in place of whatever secret and flag
    were stored, and writes the record.  [verifyMfa] throws MFA_NOT_ENABLED
    when no secret is stored; when the provider accepts the code it stores
    [mfaEnabled = true] and returns true; when the provider rejects the code
    it returns false, throws nothing and leaves the stored flag as it was:
    after a setup the flag is true exactly when a verification was
    accepted. *)
Theorem mfa_setup_then_verify :
  (forall userId issuer w user,
      find (byId userId) (users w) = Some user ->
      let secret := authenticator_generateSecret rt (tick w) in
      exists user' w',
        setupMfa rt userId issuer w
        = (Ok (secret, authenticator_keyuri rt (UserDomain.email user) issuer secret),
           w')
        /\ UserDomain.mfaSecret user' = Some secret
        /\ UserDomain.mfaEnabled user' = Some false
        /\ UserDomain.id user' = UserDomain.id user
        /\ UserDomain.email user' = UserDomain.email user
        /\ UserDomain.passHash user' = UserDomain.passHash user
        /\ UserDomain.roles user' = UserDomain.roles user
        /\ UserDomain.failedLoginAttempts user' = UserDomain.failedLoginAttempts user
        /\ UserDomain.lockedUntil user' = UserDomain.lockedUntil user
        /\ users w' = replaceUser user' (users w)
        /\ find (byId userId) (users w') = Some user'
        /\ effects w' = effects w ++ [SecretGenerated secret; UsersWritten (users w')])
  /\ (forall userId code w user,
         find (byId userId) (users w) = Some user ->
         Js.falsy (UserDomain.mfaSecret user) = true ->
         verifyMfa rt userId code w = (Throw (AuthError MFA_NOT_ENABLED), w))
  /\ (forall userId code secret w user,
         find (byId userId) (users w) = Some user ->
         UserDomain.mfaSecret user = Some secret ->
         secret <> "" ->
         authenticator_verify rt (tick w) code secret = true ->
         exists user' w',
           verifyMfa rt userId code w = (Ok true, w')
           /\ UserDomain.mfaEnabled user' = Some true
           /\ UserDomain.mfaSecret user' = Some secret
           /\ UserDomain.id user' = UserDomain.id user
           /\ users w' = replaceUser user' (users w)
           /\ find (byId userId) (users w') = Some user'
           /\ effects w'
              = effects w ++ [OtpChecked code secret; UsersWritten (users w')])
  /\ (forall userId code secret w user,
         find (byId userId) (users w) = Some user ->
         UserDomain.mfaSecret user = Some secret ->
         secret <> "" ->
         authenticator_verify rt (tick w) code secret = false ->
         exists w',
           verifyMfa rt userId code w = (Ok false, w')
           /\ users w' = users w
           /\ find (byId userId) (users w') = Some user)
  /\ (forall userId issuer code w user,
         find (byId userId) (users w) = Some user ->
         authenticator_generateSecret rt (tick w) <> "" ->
         let w1 := snd (setupMfa rt userId issuer w) in
         let accepted :=
           authenticator_verify rt (tick w1) code
             (authenticator_generateSecret rt (tick w)) in
         exists user1 user2,
           find (byId userId) (users w1) = Some user1
           /\ UserDomain.mfaEnabled user1 = Some false
           /\ fst (verifyMfa rt userId code w1) = Ok accepted
           /\ find (byId userId) (users (snd (verifyMfa rt userId code w1)))
              = Some user2
           /\ UserDomain.mfaEnabled user2 = Some accepted).
Proof.
  split.
  { intros userId issuer w user Hf secret.
    exists (withPendingSecret user secret (clock rt (S (tick w)))), (afterSetupMfa rt user w).
    split; [now apply setupMfa_run|].
    repeat (split; [reflexivity|]).
    split; [|reflexivity].
    unfold afterSetupMfa. cbn [users].
    now apply (find_by_id_replaced userId _ user). }
  split; [exact verifyMfa_not_enabled|].
  split.
  { intros userId code secret w user Hf Hs Hne Hok.
    exists (withMfaEnabled user (clock rt (S (tick w)))),
           (afterVerifyMfa rt user code secret w).
    split; [now apply verifyMfa_accepted|].
    split; [reflexivity|]. split; [exact Hs|].
    repeat (split; [reflexivity|]).
    split; [|reflexivity].
    unfold afterVerifyMfa. cbn [users].
    now apply (find_by_id_replaced userId _ user). }
  split.
  { intros userId code secret w user Hf Hs Hne Hok.
    exists (emitted (OtpChecked code secret) (observed w)).
    split; [now apply (verifyMfa_rejected userId code secret w user)|].
    split; [reflexivity | exact Hf]. }
  intros userId issuer code w user Hf Hne w1 accepted.
  set (secret := authenticator_generateSecret rt (tick w)) in *.
  set (user1 := withPendingSecret user secret (clock rt (S (tick w)))).
  assert (Hw1 : w1 = afterSetupMfa rt user w).
  { unfold w1. now rewrite (setupMfa_run userId issuer w user Hf). }
  assert (Hf1 : find (byId userId) (users w1) = Some user1).
  { rewrite Hw1. unfold afterSetupMfa. cbn [users].
    now apply (find_by_id_replaced userId _ user). }
  exists user1.
  destruct accepted eqn:Hacc; unfold accepted in Hacc.
  - exists (withMfaEnabled user1 (clock rt (S (tick w1)))).
    rewrite (verifyMfa_accepted userId code secret w1 user1 Hf1 eq_refl Hne Hacc).
    split; [assumption|]. split; [reflexivity|]. split; [reflexivity|].
    split; [|reflexivity].
    unfold afterVerifyMfa. cbn [snd users].
    now apply (find_by_id_replaced userId _ user1).
  - exists user1.
    rewrite (verifyMfa_rejected userId code secret w1 user1 Hf1 eq_refl Hne Hacc).
    split; [assumption|]. split; [reflexivity|]. split; [reflexivity|].
    split; [assumption | reflexivity].
Qed.

(** C10.  When the stored secret is there and the provider rejects the
    code, [verifyMfa] returns false and writes nothing: users and sessions
    are what they were, the record is found unchanged, and the only call
    made is the one to the provider. *)
Theorem verifyMfa_rejected_writes_nothing :
  forall (userId code secret : string) (w : World) (user : UserDomain.User),
    getUserById userId w = (Ok (Some user), w) ->
    UserDomain.mfaSecret user = Some secret ->
    secret <> "" ->
    authenticator_verify rt (tick w) code secret = false ->
    exists w',
      verifyMfa rt userId code w = (Ok false, w')
      /\ users w' = users w
      /\ sessions w' = sessions w
      /\ getUserById userId w' = (Ok (Some user), w')
      /\ effects w' = effects w ++ [OtpChecked code secret]
      /\ (forall lines, In (UsersWritten lines) (effects w') ->
                        In (UsersWritten lines) (effects w)).
Proof.
  intros userId code secret w user Hget Hs Hne Hok.
  rewrite getUserById_run in Hget. inversion Hget as [Hf].
  exists (emitted (OtpChecked code secret) (observed w)).
  split; [now apply (verifyMfa_rejected userId code secret w user)|].
  split; [reflexivity|]. split; [reflexivity|].
  split; [rewrite getUserById_run; cbn [users emitted observed]; now rewrite Hf|].
  split; [reflexivity|].
  intros lines Hin. cbn [effects emitted observed] in Hin.
  apply in_app_iff in Hin. destruct Hin as [Hin|[Hin|[]]]; [assumption | discriminate].
Qed.

End AuthFacts.

Example demo_login_succeeds :
  exists pub w',
    Auth.loginUser Demo.runtime Demo.rightLogin Demo.world = (Ok pub, w')
    /\ Session.pub_isActive (fst pub) = true
    /\ (Session.pub_expiresAt (fst pub) - Session.pub_issuedAt (fst pub) = 60 * 60000)%Z
    /\ List.length (Auth.sessions w') = 2%nat.
Proof. eexists. eexists. split; [vm_compute; reflexivity|]. repeat split. Qed.

(** With a TTL that is no number the login throws after the user was
    written; no session is opened. *)
Example demo_login_nan_ttl :
  exists w',
    Auth.loginUser Demo.runtime MoreDemo.nanLogin Demo.world
    = (Throw (RangeError "Invalid time value"), w')
    /\ Auth.sessions w' = Auth.sessions Demo.world
    /\ List.length (Auth.effects w') = 3%nat.
Proof. eexists. split; [vm_compute; reflexivity|]. split; reflexivity. Qed.

Example demo_logout_twice :
  fst (Auth.logoutSession Demo.runtime "s1"
         (snd (Auth.logoutSession Demo.runtime "s1" Demo.world)))
  = Throw (AuthError SESSION_INACTIVE)
  /\ fst (Auth.logoutSession Demo.runtime "nonexistent-id" Demo.world)
     = Throw (AuthError SESSION_NOT_FOUND).
Proof. split; reflexivity. Qed.

Example demo_setup_then_verify :
  let w1 := snd (Auth.setupMfa Demo.runtime "u1" "AuthCLI" Demo.world) in
  option_map UserDomain.mfaEnabled (hd_error (Auth.users w1)) = Some (Some false)
  /\ fst (Auth.verifyMfa Demo.runtime "u1" "000000" w1) = Ok false
  /\ fst (Auth.verifyMfa Demo.runtime "u1" "123456" w1) = Ok true
  /\ option_map UserDomain.mfaEnabled
       (hd_error (Auth.users (snd (Auth.verifyMfa Demo.runtime "u1" "123456" w1))))
     = Some (Some true).
Proof. repeat split. Qed.

(** C1 on a run: three wrong passwords and two wrong MFA codes, mixed, lock
    the account for 15 minutes. *)
Lemma loginUser_counts_failures_witness :
  exists user' n,
    Auth.getUserByEmail Demo.runtime "alice@example.com"
      (snd (runLogins Demo.runtime
              [Demo.wrongPassword; Demo.wrongCode; Demo.wrongPassword;
               Demo.wrongCode; Demo.wrongPassword] Demo.world))
    = (Ok (Some user'),
       snd (runLogins Demo.runtime
              [Demo.wrongPassword; Demo.wrongCode; Demo.wrongPassword;
               Demo.wrongCode; Demo.wrongPassword] Demo.world))
    /\ UserDomain.failedLoginAttempts user' = Some 5%Z
    /\ (Auth.tick Demo.world < n
        < Auth.tick (snd (runLogins Demo.runtime
                            [Demo.wrongPassword; Demo.wrongCode; Demo.wrongPassword;
                             Demo.wrongCode; Demo.wrongPassword] Demo.world)))%nat
    /\ UserDomain.lockedUntil user'
       = Some (Env.clock Demo.runtime n + 15 * 60000)%Z.
Proof.
  apply (proj2 (proj2 (loginUser_counts_failures Demo.runtime))
           _ Demo.world Demo.alice "alice@example.com").
  - reflexivity.
  - intros params Hin. simpl in Hin.
    repeat (destruct Hin as [Hin|Hin]; [subst params; reflexivity|]).
    contradiction.
  - reflexivity.
  - reflexivity.
  - vm_compute. repeat constructor; (left; reflexivity) || (right; reflexivity).
Defined.

(** C2 on a run: the sixth attempt, made while the lock holds, is refused
    without being counted. *)
Lemma loginUser_locked_witness :
  Auth.loginUser Demo.runtime Demo.wrongPassword Demo.lockedWorld
  = (Throw (AuthError ACCOUNT_LOCKED), observed Demo.lockedWorld)
  /\ Auth.users (observed Demo.lockedWorld) = Auth.users Demo.lockedWorld
  /\ Auth.sessions (observed Demo.lockedWorld) = Auth.sessions Demo.lockedWorld
  /\ Auth.effects (observed Demo.lockedWorld) = Auth.effects Demo.lockedWorld
  /\ Auth.getUserByEmail Demo.runtime
       (UserDomain.normalizeEmail Demo.runtime (Auth.l_email Demo.wrongPassword))
       (observed Demo.lockedWorld)
     = (Ok (Some Demo.lockedAlice), observed Demo.lockedWorld).
Proof.
  apply (loginUser_locked Demo.runtime Demo.wrongPassword Demo.lockedWorld
           Demo.lockedAlice 1700001800000%Z).
  - reflexivity.
  - reflexivity.
  - reflexivity.
  - reflexivity.
Defined.

(** C10 on a run: a rejected code leaves the store as it was. *)
Lemma verifyMfa_rejected_writes_nothing_witness :
  exists w',
    Auth.verifyMfa Demo.runtime "u1" "000000" Demo.world = (Ok false, w')
    /\ Auth.users w' = Auth.users Demo.world
    /\ Auth.sessions w' = Auth.sessions Demo.world
    /\ Auth.getUserById "u1" w' = (Ok (Some Demo.alice), w')
    /\ Auth.effects w'
       = Auth.effects Demo.world ++ [Auth.OtpChecked "000000" "JBSWY3DP"]
    /\ (forall lines, In (Auth.UsersWritten lines) (Auth.effects w') ->
                      In (Auth.UsersWritten lines) (Auth.effects Demo.world)).
Proof.
  apply (verifyMfa_rejected_writes_nothing Demo.runtime "u1" "000000" "JBSWY3DP"
           Demo.world Demo.alice).
  - reflexivity.
  - reflexivity.
  - discriminate.
  - reflexivity.
Defined.


(** C4 on a run: the active session is revoked, and a second logout finds it
    inactive. *)
Lemma logoutSession_outcomes_witness :
  exists pub w',
    Auth.logoutSession Demo.runtime "s1" Demo.world = (Ok pub, w')
    /\ Session.revokedAt
         (Session.revokeSession Demo.session1 (Env.clock Demo.runtime 1))
       = Some (Env.clock Demo.runtime 1)
    /\ Auth.sessions w'
       = replaceSession
           (Session.revokeSession Demo.session1 (Env.clock Demo.runtime 1))
           (Auth.sessions Demo.world)
    /\ find (sessionById "s1") (Auth.sessions w')
       = Some (Session.revokeSession Demo.session1 (Env.clock Demo.runtime 1))
    /\ Auth.effects w'
       = Auth.effects Demo.world ++ [Auth.SessionsWritten (Auth.sessions w')]
    /\ Auth.users w' = Auth.users Demo.world
    /\ Auth.logoutSession Demo.runtime "s1" w'
       = (Throw (AuthError SESSION_INACTIVE), observed w').
Proof.
  destruct (logoutSession_outcomes Demo.runtime) as [_ [_ [Hactive _]]].
  apply (Hactive "s1" Demo.world Demo.session1).
  - reflexivity.
  - reflexivity.
  - reflexivity.
Defined.

(** C5 on a run: a session revoked and then touched is inactive. *)
Lemma isActive_characterisation_witness :
  Session.isActive
    (Session.touchSession
       (Session.revokeSession Demo.session1 1700000000000%Z) 1700000060000%Z)
    1700000120000%Z = false.
Proof.
  destruct isActive_characterisation as [_ [_ [Hterminal _]]].
  apply (Hterminal Demo.session1 1700000000000%Z).
  apply evolves_touch, evolves_refl.
Defined.

(** C6 on a run: a wildcard covers its own resource only. *)
Lemma permissionImplies_characterisation_witness :
  Permission.permissionImplies "user:*" "user:delete" = true
  /\ Permission.permissionImplies "user:*" "role:read" = false
  /\ Permission.permissionImplies "user:read" "user:delete" = false
  /\ (Permission.permissionImplies "user:read" "user:read" = true
      <-> "user" = "user" /\ ("read" = "*" \/ "read" = "read")).
Proof.
  destruct permissionImplies_characterisation
    as [_ [Htwo [Hcatalog [_ [_ [_ [Hcover Hcross]]]]]]].
  split; [|split; [|split]].
  - apply (Hcover "user" "delete"); [simpl; tauto | reflexivity].
  - apply (Hcross "user" "role" "read"); [simpl; tauto | simpl; tauto | discriminate].
  - destruct (Permission.permissionImplies "user:read" "user:delete") eqn:E;
      [|reflexivity].
    assert (H : "user:read" = "user:delete").
    { apply (Hcatalog "user:read" "user:delete"); [simpl; tauto | simpl; tauto | exact E]. }
    discriminate H.
  - apply (Htwo "user" "read" "user" "read");
      intro H; simpl in H; repeat (destruct H as [H|H]; [discriminate|]); exact H.
Defined.

(** With one wildcard the order of the input does not matter. *)
Lemma normalizePermissions_one_wildcard_example :
  Role.normalizePermissions ["user:*"; "user:read"; "role:list"]
  = Role.normalizePermissions ["role:list"; "user:*"; "user:read"].
Proof.
  destruct normalizePermissions_characterisation
    as [_ [_ [_ [_ [_ [_ [_ [_ [_ Hone]]]]]]]]].
  apply Hone.
  - intro p. simpl. tauto.
  - vm_compute. apply le_n.
Defined.

(** C8 on a run: after a setup the flag is off; the right code turns it on. *)
Lemma mfa_setup_then_verify_witness :
  exists user1 user2,
    find (byId "u1")
         (Auth.users (snd (Auth.setupMfa Demo.runtime "u1" "AuthCLI" Demo.world)))
    = Some user1
    /\ UserDomain.mfaEnabled user1 = Some false
    /\ fst (Auth.verifyMfa Demo.runtime "u1" "123456"
              (snd (Auth.setupMfa Demo.runtime "u1" "AuthCLI" Demo.world)))
       = Ok (Env.authenticator_verify Demo.runtime
               (Auth.tick (snd (Auth.setupMfa Demo.runtime "u1" "AuthCLI" Demo.world)))
               "123456" (Env.authenticator_generateSecret Demo.runtime
                           (Auth.tick Demo.world)))
    /\ find (byId "u1")
            (Auth.users
               (snd (Auth.verifyMfa Demo.runtime "u1" "123456"
                       (snd (Auth.setupMfa Demo.runtime "u1" "AuthCLI" Demo.world)))))
       = Some user2
    /\ UserDomain.mfaEnabled user2
       = Some (Env.authenticator_verify Demo.runtime
                 (Auth.tick (snd (Auth.setupMfa Demo.runtime "u1" "AuthCLI" Demo.world)))
                 "123456" (Env.authenticator_generateSecret Demo.runtime
                             (Auth.tick Demo.world))).
Proof.
  destruct (mfa_setup_then_verify Demo.runtime) as [_ [_ [_ [_ Hboth]]]].
  apply (Hboth "u1" "AuthCLI" "123456" Demo.world Demo.alice).
  - reflexivity.
  - discriminate.
Defined.


(** * Properties of the rest of the code *)

(** ** Permissions: segments, accepted strings, coverage *)

Section MorePermissionFacts.

Import Permission.

Lemma split_not_nil (sep : ascii) (s : string) : Js.split sep s <> [].
Proof.
  destruct s as [|c s]; simpl; [discriminate|].
  destruct (Ascii.eqb c sep); [discriminate|].
  destruct (Js.split sep s); discriminate.
Qed.

(** Splitting a string that is two strings around a separator. *)
Lemma split_app (sep : ascii) (a b : string) :
  Js.split sep (a ++ String sep b) = Js.split sep a ++ Js.split sep b.
Proof.
  induction a as [|c a IH]; simpl.
  - now rewrite Ascii.eqb_refl.
  - destruct (Ascii.eqb c sep).
    + now rewrite IH.
    + rewrite IH. pose proof (split_not_nil sep a) as Hne.
      destruct (Js.split sep a) as [|h t]; [contradiction | reflexivity].
Qed.

(** [s.split(sep).join(sep)] is [s]. *)
Lemma split_join (sep : ascii) (s : string) :
  String.concat (String sep "") (Js.split sep s) = s.
Proof.
  induction s as [|c s IH]; [reflexivity|]. simpl.
  pose proof (split_not_nil sep s) as Hne.
  destruct (Ascii.eqb_spec c sep) as [E|E].
  - subst c. destruct (Js.split sep s) as [|h t] eqn:Es; [contradiction|].
    simpl in *. now rewrite IH.
  - destruct (Js.split sep s) as [|h t] eqn:Es; [contradiction|].
    destruct t as [|h' t']; simpl in *; now rewrite <- IH.
Qed.

Lemma segments_of_suffixed (p x : string) (res act : string) :
  resourceOf p = Some res -> actionOf p = Some act ->
  resourceOf (p ++ ":" ++ x) = Some res /\ actionOf (p ++ ":" ++ x) = Some act.
Proof.
  unfold resourceOf, actionOf. intros Hr Ha.
  change (p ++ ":" ++ x)%string with (p ++ String ":" x)%string.
  rewrite split_app.
  destruct (Js.split ":" p) as [|r [|a t]]; simpl in *; try discriminate.
  now split.
Qed.

Lemma isPermission_segments (p : string) :
  isPermission p = true ->
  exists res act, resourceOf p = Some res /\ actionOf p = Some act.
Proof.
  unfold isPermission. destruct (resourceOf p) as [res|], (actionOf p) as [act|];
    simpl; intro H; try discriminate; eauto.
  destruct (res =? ""); discriminate.
Qed.

(** X1.  Only the first two segments of a permission string are read: when
    [p] is accepted, [p] followed by a colon and anything is accepted too, and
    as a grant or as a requirement it counts exactly as [p] does. *)
Theorem trailing_segments_are_ignored :
  forall (p x : string),
    isPermission p = true ->
    isPermission (p ++ ":" ++ x) = true
    /\ (forall required,
           permissionImplies (p ++ ":" ++ x)%string required
           = permissionImplies p required)
    /\ (forall grant,
           permissionImplies grant (p ++ ":" ++ x)%string
           = permissionImplies grant p).
Proof.
  intros p x Hp.
  destruct (isPermission_segments p Hp) as [res [act [Hr Ha]]].
  destruct (segments_of_suffixed p x res act Hr Ha) as [Hr' Ha'].
  split; [|split].
  - transitivity (isPermission p); [|exact Hp].
    unfold isPermission. now rewrite Hr', Ha', Hr, Ha.
  - intro required. unfold permissionImplies. now rewrite Hr', Ha', Hr, Ha.
  - intro grant. unfold permissionImplies. now rewrite Hr', Ha', Hr, Ha.
Qed.

Lemma catalog_action_known (res act : string) :
  In res VALID_RESOURCES ->
  In (res ++ ":" ++ act)%string PERMISSIONS ->
  In act VALID_ACTIONS /\ act <> "".
Proof.
  intros Hres Hin. simpl in Hres.
  repeat (destruct Hres as [Hres|Hres];
          [subst res; simpl in Hin;
           repeat (destruct Hin as [Hin|Hin];
                   [inversion Hin; subst;
                    split; first [apply has_In; reflexivity | discriminate]|]);
           contradiction|]).
  contradiction.
Qed.

(** X2.  The strings [isPermission] accepts: the first segment is one of the
    seven resources and the second is the wildcard or makes, with the first,
    one of the 19 catalog entries.  Among the strings of two segments these
    are the catalog entries and the seven wildcards, and nothing else. *)
Theorem isPermission_accepts :
  (forall p,
      isPermission p = true <->
      exists res act rest,
        Js.split ":" p = res :: act :: rest
        /\ In res VALID_RESOURCES
        /\ (act = "*" \/ In (res ++ ":" ++ act)%string PERMISSIONS))
  /\ (forall p,
         isPermission p = true /\ List.length (Js.split ":" p) = 2%nat <->
         In p PERMISSIONS
         \/ exists res, In res VALID_RESOURCES /\ p = (res ++ ":*")%string).
Proof.
  assert (Hchar : forall p,
      isPermission p = true <->
      exists res act rest,
        Js.split ":" p = res :: act :: rest
        /\ In res VALID_RESOURCES
        /\ (act = "*" \/ In (res ++ ":" ++ act)%string PERMISSIONS)).
  { intro p. unfold isPermission, resourceOf, actionOf. split.
    - destruct (Js.split ":" p) as [|res [|act rest]]; cbn [nth_error];
        unfold Js.falsy; [discriminate | rewrite orb_true_r; discriminate |].
      destruct (res =? ""); cbn [orb]; [discriminate|].
      destruct (act =? "") eqn:Ea; cbn [orb]; [discriminate|].
      destruct (Js.has VALID_RESOURCES res) eqn:Hres; cbn [negb]; [|discriminate].
      apply has_In in Hres.
      destruct (String.eqb_spec act "*") as [E|E].
      + intros _. exists res, act, rest. auto.
      + intro H. apply andb_true_iff in H. destruct H as [_ H].
        apply has_In in H. exists res, act, rest. auto.
    - intros [res [act [rest [Hs [Hres Hact]]]]]. rewrite Hs. cbn [nth_error].
      assert (Hne : (res =? "") = false).
      { apply String.eqb_neq. intro E. subst res. simpl in Hres.
        repeat (destruct Hres as [Hres|Hres]; [discriminate|]). contradiction. }
      unfold Js.falsy. rewrite Hne.
      rewrite (proj2 (has_In VALID_RESOURCES res) Hres). cbn [negb orb].
      destruct Hact as [E|Hin].
      + subst act. reflexivity.
      + destruct (catalog_action_known res act Hres Hin) as [Hact Hnonempty].
        apply String.eqb_neq in Hnonempty. rewrite Hnonempty.
        destruct (act =? "*"); [reflexivity|].
        unfold ALL_PERMISSIONS_SET.
        rewrite (proj2 (has_In VALID_ACTIONS act) Hact).
        now rewrite (proj2 (has_In PERMISSIONS _) Hin). }
  split; [exact Hchar|].
  intro p. split.
  - intros [Hp Hlen]. apply Hchar in Hp.
    destruct Hp as [res [act [rest [Hs [Hres Hact]]]]].
    rewrite Hs in Hlen. destruct rest; [|discriminate].
    pose proof (split_join ":" p) as Hj. rewrite Hs in Hj. simpl in Hj.
    destruct Hact as [E|Hin].
    + right. exists res. split; [assumption|]. now subst act.
    + left. now rewrite <- Hj.
  - intros [Hin|[res [Hres E]]].
    + split; [now apply catalog_isPermission|]. simpl in Hin.
      repeat (destruct Hin as [Hin|Hin]; [subst p; reflexivity|]). contradiction.
    + subst p. change (res ++ ":*")%string with (res ++ String ":" "*")%string.
      split.
      * apply Hchar. exists res, "*", [].
        rewrite (split_prefix _ _ _ (resources_freeOf_colon res Hres)). auto.
      * now rewrite (split_prefix _ _ _ (resources_freeOf_colon res Hres)).
Qed.

Lemma permissionImplies_trans (a b c : Permission) :
  permissionImplies a b = true -> permissionImplies b c = true ->
  permissionImplies a c = true.
Proof.
  rewrite !permissionImplies_iff. intros [Hr1 Ha1] [Hr2 Ha2].
  split; [congruence|].
  destruct Ha1 as [E|E]; [now left|].
  destruct Ha2 as [E2|E2]; [left | right]; congruence.
Qed.

Lemma hasPermission_iff (granted : list Permission) (required : Permission) :
  hasPermission granted required = true <->
  exists g, In g granted /\ permissionImplies g required = true.
Proof. unfold hasPermission. apply existsb_exists. Qed.

(** X3.  Implication between permissions is transitive, and coverage follows
    it: a grant list that covers [g] covers everything [g] implies; a longer
    grant list covers at least as much. *)
Theorem coverage_follows_implication :
  forall (granted granted' : list Permission) (g required : Permission),
    hasPermission granted g = true ->
    permissionImplies g required = true ->
    incl granted granted' ->
    hasPermission granted required = true
    /\ hasPermission granted' required = true
    /\ (forall a b c, permissionImplies a b = true -> permissionImplies b c = true ->
                      permissionImplies a c = true).
Proof.
  intros granted granted' g required Hg Himp Hincl.
  apply hasPermission_iff in Hg. destruct Hg as [g0 [Hin H0]].
  pose proof (permissionImplies_trans g0 g required H0 Himp) as Ht.
  split; [|split].
  - apply hasPermission_iff. eauto.
  - apply hasPermission_iff. exists g0. auto.
  - exact permissionImplies_trans.
Qed.

(** X4.  Normalizing a grant list changes no coverage decision: it covers
    what the accepted entries of the list cover. *)
Theorem normalizing_keeps_coverage :
  forall (granted : list string) (required : Permission),
    hasPermission (Role.normalizePermissions granted) required
    = hasPermission (filter isPermission granted) required.
Proof.
  intros granted required.
  destruct (hasPermission (filter isPermission granted) required) eqn:E.
  - apply hasPermission_iff in E. destruct E as [g [Hin Hg]].
    apply hasPermission_iff. exists g. split; [|assumption].
    apply normalizePermissions_In. apply filter_In in Hin. tauto.
  - destruct (hasPermission (Role.normalizePermissions granted) required) eqn:E2;
      [|reflexivity].
    apply hasPermission_iff in E2. destruct E2 as [g [Hin Hg]].
    apply normalizePermissions_In in Hin.
    assert (Hc : hasPermission (filter isPermission granted) required = true).
    { apply hasPermission_iff. exists g. split; [|assumption].
      apply filter_In. tauto. }
    congruence.
Qed.

End MorePermissionFacts.

(** ** Roles: createRole, mergeRolesPermissions, isValidRole *)

Section MoreRoleFacts.

Import Permission.

Lemma collectFrom_absorbed (unique : list Permission) (perms : list string) :
  (forall p, In p perms -> isPermission p = true -> In p unique) ->
  collectFrom unique perms = unique.
Proof.
  induction perms as [|p t IH]; intro H; simpl; [reflexivity|].
  assert (Hstep : collectStep unique p = unique).
  { unfold collectStep. destruct (isPermission p) eqn:Hv; [|reflexivity].
    unfold Js.add.
    now rewrite (proj2 (has_In unique p) (H p (or_introl eq_refl) Hv)). }
  rewrite Hstep. apply IH. intros q Hq. apply H. now right.
Qed.

(** Entries that are already there, or not accepted, add nothing. *)
Lemma normalizePermissions_absorbs_known (A B : list string) :
  (forall p, In p B -> isPermission p = true -> In p A) ->
  Role.normalizePermissions (A ++ B) = Role.normalizePermissions A.
Proof.
  intro H. unfold Role.normalizePermissions. f_equal.
  change Role.collectUnique with (collectFrom []).
  rewrite collectFrom_app. apply collectFrom_absorbed.
  intros p Hp Hv. apply collectFrom_In. right. auto.
Qed.

Lemma presets_are_valid (rName p : string) :
  In p (Role.getPresetPermissions rName) -> isPermission p = true.
Proof.
  rewrite getPresetPermissions_getProp. unfold ROLE_PRESETS. simpl.
  destruct (rName =? "admin");
    [|destruct (rName =? "security-analyst");
      [|destruct (rName =? "support"); [|destruct (rName =? "user")]]];
    simpl; intro H;
    repeat (destruct H as [H|H]; [subst p; reflexivity|]); contradiction.
Qed.

(** X5.  [createRole] keeps the name and the description, gives exactly the
    accepted permissions of the preset of that name and of the extras, never
    loses a permission of the preset, and always makes a role that
    [isValidRole] accepts; for a name that is no preset only the accepted
    extras remain. *)
Theorem createRole_content :
  forall (rName : string) (description : option string)
         (extraPermissions : option (list string)),
    let role := Role.createRole rName description extraPermissions in
    let extras := match extraPermissions with Some e => e | None => [] end in
    Role.name role = rName
    /\ Role.description role = description
    /\ RoleChecks.isValidRole role = true
    /\ NoDup (Role.permissions role)
    /\ (forall p, In p (Role.permissions role) <->
                  (In p (Role.getPresetPermissions rName) \/
                   (In p extras /\ isPermission p = true)))
    /\ (Role.isRoleName rName = false ->
        Role.permissions role = Role.normalizePermissions extras).
Proof.
  intros rName description extraPermissions role extras.
  split; [reflexivity|]. split; [reflexivity|].
  split; [|split; [|split]].
  - unfold RoleChecks.isValidRole. apply forallb_forall. intros p Hp.
    unfold role, Role.createRole in Hp. cbn [Role.permissions] in Hp.
    now apply normalizePermissions_In in Hp.
  - apply normalizePermissions_NoDup.
  - intro p. unfold role, Role.createRole. cbn [Role.permissions].
    fold extras. rewrite normalizePermissions_In, in_app_iff. split.
    + intros [[H|H] Hv]; auto.
    + intros [H|[H Hv]]; [|auto].
      split; [now left | now apply (presets_are_valid rName)].
  - intro Hn. unfold role, Role.createRole. cbn [Role.permissions].
    unfold Role.getPresetPermissions. now rewrite Hn.
Qed.

Lemma mergeRolesPermissions_In (inputs : list Role.MergeInput) (p : string) :
  In p (Role.mergeRolesPermissions inputs) <->
  isPermission p = true /\ exists i, In i inputs /\ In p (inputPermissions i).
Proof.
  rewrite mergeRolesPermissions_flat_map, normalizePermissions_In, in_flat_map.
  tauto.
Qed.

(** X6.  [mergeRolesPermissions] gives the union of the accepted permissions
    of its inputs, each once; an input that is merged a second time changes
    nothing, and the merge of a merge is the merge. *)
Theorem mergeRolesPermissions_union :
  forall (inputs : list Role.MergeInput),
    (forall p, In p (Role.mergeRolesPermissions inputs) <->
               isPermission p = true
               /\ exists i, In i inputs /\ In p (inputPermissions i))
    /\ NoDup (Role.mergeRolesPermissions inputs)
    /\ (forall i, In i inputs ->
                  Role.mergeRolesPermissions (inputs ++ [i])
                  = Role.mergeRolesPermissions inputs)
    /\ Role.mergeRolesPermissions [Role.OfList (Role.mergeRolesPermissions inputs)]
       = Role.mergeRolesPermissions inputs.
Proof.
  intro inputs. split; [intro p; apply mergeRolesPermissions_In|].
  split; [rewrite mergeRolesPermissions_flat_map; apply normalizePermissions_NoDup|].
  split.
  - intros i Hi. rewrite !mergeRolesPermissions_flat_map, flat_map_app.
    cbn [flat_map]. rewrite app_nil_r.
    apply normalizePermissions_absorbs_known.
    intros p Hp _. apply in_flat_map. eauto.
  - rewrite !mergeRolesPermissions_flat_map. cbn [flat_map inputPermissions].
    rewrite app_nil_r. apply normalizePermissions_idempotent.
Qed.

End MoreRoleFacts.

(** ** Effective permissions and the RBAC service *)

Section MoreRbacFacts.

Import Permission.

(** What the loop without a catalog pushes for one role name. *)
Lemma presetRoles_flat_map (names : list string) (acc : list Role.Role) :
  fold_left
    (fun acc rName =>
       if Role.isRoleName rName
       then acc ++ [Role.createRole rName None None]
       else acc ++ [Role.mkRole rName [] None]) names acc
  = acc ++ map presetRole names.
Proof.
  revert acc. induction names as [|n t IH]; intro acc; simpl.
  - now rewrite app_nil_r.
  - rewrite IH. unfold presetRole at 2.
    destruct (Role.isRoleName n); now rewrite <- app_assoc.
Qed.

Lemma preset_permissions_normalize (names : list string) (A E : list string) :
  Role.normalizePermissions
    (A ++ flat_map inputPermissions (map Role.OfRole (map presetRole names)) ++ E)
  = Role.normalizePermissions (A ++ flat_map (resolveRole []) names ++ E).
Proof.
  revert A. induction names as [|n t IH]; intro A; [reflexivity|].
  cbn [map flat_map inputPermissions]. rewrite <- !app_assoc.
  assert (Hn : Role.normalizePermissions
                 (A ++ Role.permissions (presetRole n)
                    ++ flat_map inputPermissions
                         (map Role.OfRole (map presetRole t)) ++ E)
               = Role.normalizePermissions
                   (A ++ resolveRole [] n
                      ++ flat_map inputPermissions
                           (map Role.OfRole (map presetRole t)) ++ E)).
  { unfold presetRole, resolveRole. cbn [find].
    rewrite <- getPresetPermissions_getProp.
    destruct (Role.isRoleName n) eqn:En.
    - cbn [Role.createRole Role.permissions]. rewrite app_nil_r.
      apply normalizePermissions_absorb.
    - unfold Role.getPresetPermissions. rewrite En. reflexivity. }
  rewrite Hn. rewrite !(app_assoc A (resolveRole [] n)). apply IH.
Qed.

Lemma getEffectivePermissions_any_catalog (user : UserDomain.User)
    (roleCatalog : option (list Role.Role)) :
  UserDomain.getEffectivePermissions user roleCatalog
  = effectivePermissionsSpec user
      (match roleCatalog with Some c => c | None => [] end).
Proof.
  assert (Hnone : forall cat,
             (match cat with
              | Some catalog => negb (Nat.eqb (List.length catalog) 0)
              | None => false
              end) = false ->
             UserDomain.getEffectivePermissions user cat
             = effectivePermissionsSpec user []).
  { intros cat Hc. unfold effectivePermissionsSpec, UserDomain.getEffectivePermissions.
    cbv beta zeta. rewrite Hc. cbv iota.
    rewrite presetRoles_flat_map, mergeRolesPermissions_flat_map.
    simpl app at 1. rewrite flat_map_app.
    cbn [flat_map inputPermissions]. rewrite app_nil_r.
    apply (preset_permissions_normalize (UserDomain.roles user) []). }
  destruct roleCatalog as [[|r rest]|].
  - now apply Hnone.
  - unfold effectivePermissionsSpec, UserDomain.getEffectivePermissions.
    cbv beta iota zeta. simpl negb. cbv iota.
    rewrite rolesFromCatalog_flat_map, mergeRolesPermissions_flat_map.
    simpl app at 1. rewrite flat_map_app.
    cbn [flat_map inputPermissions]. rewrite app_nil_r.
    apply (resolved_permissions_normalize (r :: rest) (UserDomain.roles user) []).
  - now apply Hnone.
Qed.

Lemma resolveRole_no_catalog (rName : string) :
  resolveRole [] rName = Role.getPresetPermissions rName.
Proof. unfold resolveRole. cbn [find]. now rewrite getPresetPermissions_getProp. Qed.

(** X7.  Without a role catalog, and with an empty one, the effective
    permissions are the normalized merge of the built-in presets of the
    user's role names and the user's extra permissions; a role name that is
    no preset adds nothing. *)
Theorem getEffectivePermissions_without_catalog :
  forall (user : UserDomain.User),
    UserDomain.getEffectivePermissions user None
    = Role.normalizePermissions
        (flat_map Role.getPresetPermissions (UserDomain.roles user)
         ++ match UserDomain.extraPermissions user with Some e => e | None => [] end)
    /\ UserDomain.getEffectivePermissions user (Some [])
       = UserDomain.getEffectivePermissions user None
    /\ (forall rName, Role.isRoleName rName = false ->
                      Role.getPresetPermissions rName = []).
Proof.
  intro user. split; [|split].
  - rewrite getEffectivePermissions_any_catalog. unfold effectivePermissionsSpec.
    f_equal. f_equal. apply flat_map_ext. exact resolveRole_no_catalog.
  - now rewrite !getEffectivePermissions_any_catalog.
  - intros rName H. unfold Role.getPresetPermissions. now rewrite H.
Qed.

Lemma effective_In (user : UserDomain.User) (roleCatalog : option (list Role.Role))
    (p : string) :
  In p (UserDomain.getEffectivePermissions user roleCatalog) <->
  isPermission p = true
  /\ ((exists rName, In rName (UserDomain.roles user)
                     /\ In p (resolveRole (match roleCatalog with
                                           | Some c => c
                                           | None => []
                                           end) rName))
      \/ In p (match UserDomain.extraPermissions user with
               | Some e => e
               | None => []
               end)).
Proof.
  rewrite getEffectivePermissions_any_catalog. unfold effectivePermissionsSpec.
  rewrite normalizePermissions_In, in_app_iff, in_flat_map. tauto.
Qed.

(** X8.  Permissions only add up: a user with more role names and more extra
    permissions has every effective permission of a user with fewer, under
    the same catalog, and can do everything the other can; and every
    effective permission is one that [isPermission] accepts. *)
Theorem effective_permissions_are_monotone :
  forall (user user' : UserDomain.User) (roleCatalog : option (list Role.Role)),
    incl (UserDomain.roles user) (UserDomain.roles user') ->
    incl (match UserDomain.extraPermissions user with Some e => e | None => [] end)
         (match UserDomain.extraPermissions user' with Some e => e | None => [] end) ->
    incl (UserDomain.getEffectivePermissions user roleCatalog)
         (UserDomain.getEffectivePermissions user' roleCatalog)
    /\ (forall required,
           UserCreation.userCan user required roleCatalog = true ->
           UserCreation.userCan user' required roleCatalog = true)
    /\ (forall p, In p (UserDomain.getEffectivePermissions user roleCatalog) ->
                  isPermission p = true).
Proof.
  intros user user' roleCatalog Hroles Hextras.
  assert (Hincl : incl (UserDomain.getEffectivePermissions user roleCatalog)
                       (UserDomain.getEffectivePermissions user' roleCatalog)).
  { intros p Hp. apply effective_In in Hp. apply effective_In.
    destruct Hp as [Hv [[rName [Hin Hr]]|He]]; split; auto.
    left. exists rName. auto. }
  split; [exact Hincl|]. split.
  - intros required. unfold UserCreation.userCan. rewrite !hasPermission_iff.
    intros [g [Hin Hg]]. exists g. auto.
  - intros p Hp. now apply effective_In in Hp.
Qed.

Lemma hasAllPermissions_iff (granted requiredAll : list Permission) :
  hasAllPermissions granted requiredAll = true <->
  forall req, In req requiredAll -> hasPermission granted req = true.
Proof. unfold hasAllPermissions. apply forallb_forall. Qed.

Lemma hasAnyPermission_iff (granted requiredAny : list Permission) :
  hasAnyPermission granted requiredAny = true <->
  exists req, In req requiredAny /\ hasPermission granted req = true.
Proof. unfold hasAnyPermission. apply existsb_exists. Qed.

(** X9.  [assertAllPermissions] returns exactly when the user can do every
    required permission, and [assertAnyPermission] exactly when the user can
    do one of them; otherwise they throw a plain [Error] whose message lists
    all the required permissions, covered or not.  With nothing required the
    first never throws and the second always does, whoever the user is. *)
Theorem rbac_assertions :
  forall (user : UserDomain.User) (required : list Permission)
         (roleCatalog : option (list Role.Role)),
    (Rbac.assertAllPermissions user required roleCatalog = Ok tt <->
     forall req, In req required ->
                 UserCreation.userCan user req roleCatalog = true)
    /\ (Rbac.assertAllPermissions user required roleCatalog <> Ok tt ->
        Rbac.assertAllPermissions user required roleCatalog
        = Throw (Error ("Permisos insuficientes. Requiere: ["
                        ++ String.concat ", " required ++ "]")))
    /\ (Rbac.assertAnyPermission user required roleCatalog = Ok tt <->
        exists req, In req required
                    /\ UserCreation.userCan user req roleCatalog = true)
    /\ (Rbac.assertAnyPermission user required roleCatalog <> Ok tt ->
        Rbac.assertAnyPermission user required roleCatalog
        = Throw (Error ("Permisos insuficientes. Requiere alguno de: ["
                        ++ String.concat ", " required ++ "]")))
    /\ Rbac.assertAllPermissions user [] roleCatalog = Ok tt
    /\ Rbac.assertAnyPermission user [] roleCatalog
       = Throw (Error "Permisos insuficientes. Requiere alguno de: []").
Proof.
  intros user required roleCatalog.
  unfold Rbac.assertAllPermissions, Rbac.assertAnyPermission,
         Rbac.userHasAll, Rbac.userHasAny, UserCreation.userCan.
  split; [|split; [|split; [|split; [|split]]]].
  - rewrite <- hasAllPermissions_iff.
    destruct (hasAllPermissions _ required); simpl; split; intro H;
      try reflexivity; discriminate.
  - destruct (hasAllPermissions _ required); simpl; intro H;
      [contradiction | reflexivity].
  - rewrite <- hasAnyPermission_iff.
    destruct (hasAnyPermission _ required); simpl; split; intro H;
      try reflexivity; discriminate.
  - destruct (hasAnyPermission _ required); simpl; intro H;
      [contradiction | reflexivity].
  - reflexivity.
  - reflexivity.
Qed.

End MoreRbacFacts.

(** ** createUser and validatePasswordStrength *)

Section MoreUserFacts.

Import Permission.

Variable rt : Env.Runtime.

Lemma fold_add_In (l acc : list string) (x : string) :
  In x (fold_left Js.add l acc) <-> In x acc \/ In x l.
Proof.
  revert acc. induction l as [|y t IH]; intro acc; simpl; [tauto|].
  rewrite IH, add_In. intuition.
Qed.

Lemma fold_add_NoDup (l acc : list string) :
  NoDup acc -> NoDup (fold_left Js.add l acc).
Proof.
  revert acc. induction l as [|y t IH]; intros acc H; simpl; [assumption|].
  apply IH. now apply add_NoDup.
Qed.

Lemma normalizeRoles_In (roles : list string) (x : string) :
  In x (UserCreation.normalizeRoles rt roles) <->
  x <> "" /\ exists r, In r roles /\ x = Env.trim rt r.
Proof.
  unfold UserCreation.normalizeRoles. rewrite fold_add_In, filter_In, in_map_iff.
  rewrite negb_true_iff, String.eqb_neq. split.
  - intros [[]|[[r [E Hr]] Hne]]. split; [assumption|]. exists r. auto.
  - intros [Hne [r [Hr E]]]. right. split; [exists r; auto | assumption].
Qed.

(** X10.  A user made by [createUser] starts with no failed attempt and no
    lock, so it is not locked at any time; its role names are the trimmed,
    non-empty role names it was given, each once; its extra permissions are
    normalized, so all of them are accepted permissions; MFA is off unless
    asked for; and it was never updated after its creation. *)
Theorem createUser_starts_clean :
  forall (params : UserCreation.CreateUserParams) (clock : Z),
    let user := UserCreation.createUser rt params clock in
    (forall now, Auth.isLocked user now = false)
    /\ attempts user = 0%Z
    /\ NoDup (UserDomain.roles user)
    /\ (forall x, In x (UserDomain.roles user) <->
                  x <> ""
                  /\ exists r, In r (match UserCreation.c_roles params with
                                     | Some r => r
                                     | None => ["user"]
                                     end)
                               /\ x = Env.trim rt r)
    /\ UserDomain.extraPermissions user
       = Some (Role.normalizePermissions
                 (match UserCreation.c_extraPermissions params with
                  | Some e => e
                  | None => []
                  end))
    /\ (forall e p, UserDomain.extraPermissions user = Some e -> In p e ->
                    isPermission p = true)
    /\ (UserCreation.c_mfaEnabled params = None ->
        UserDomain.mfaEnabled user = Some false)
    /\ UserDomain.createdAt user = UserDomain.updatedAt user
    /\ UserDomain.id user = UserCreation.c_id params
    /\ UserDomain.passHash user = UserCreation.c_passHash params.
Proof.
  intros params clock user.
  split; [reflexivity|]. split; [reflexivity|].
  split; [apply fold_add_NoDup; constructor|].
  split; [intro x; apply normalizeRoles_In|].
  split; [reflexivity|].
  split.
  { intros e p He Hp. inversion He; subst e.
    rewrite normalizePermissions_copies in Hp.
    now apply normalizePermissions_In in Hp. }
  split; [intro H; unfold user, UserCreation.createUser; simpl; now rewrite H|].
  repeat split.
Qed.

End MoreUserFacts.

Section PasswordFacts.

Import Password.

Lemma testClass_exists (class : ascii -> bool) (s : string) :
  testClass class s = true <->
  exists c, In c (list_ascii_of_string s) /\ class c = true.
Proof.
  induction s as [|c s IH]; simpl.
  - split; [discriminate | intros [c [[] _]]].
  - rewrite orb_true_iff, IH. split.
    + intros [H|[c' [Hin H]]]; [exists c; auto | exists c'; auto].
    + intros [c' [[E|Hin] H]]; [subst; auto | right; exists c'; auto].
Qed.

Lemma strength_cases (b1 b2 b3 b4 b5 : bool) :
  let errs :=
    ((((([] ++ if b1 then [TooShort] else [])
          ++ if negb b2 then [NoLowercase] else [])
         ++ if negb b3 then [NoUppercase] else [])
        ++ if negb b4 then [NoDigit] else [])
       ++ if negb b5 then [NoSymbol] else []) in
  (Nat.eqb (List.length errs) 0 = true <->
   b1 = false /\ b2 = true /\ b3 = true /\ b4 = true /\ b5 = true)
  /\ (Nat.eqb (List.length errs) 0 = true <-> errs = [])
  /\ (b1 = true <-> In TooShort errs)
  /\ (b5 = false -> In NoSymbol errs /\ Nat.eqb (List.length errs) 0 = false).
Proof.
  destruct b1, b2, b3, b4, b5; simpl; intuition (discriminate || congruence).
Qed.

Lemma validatePasswordStrength_errors (pass : string) :
  errors (validatePasswordStrength pass)
  = ((((([] ++ if Nat.ltb (String.length pass) 8 then [TooShort] else [])
          ++ if negb (testClass lowercase pass) then [NoLowercase] else [])
         ++ if negb (testClass uppercase pass) then [NoUppercase] else [])
        ++ if negb (testClass digit pass) then [NoDigit] else [])
       ++ if negb (testClass symbol pass) then [NoSymbol] else []).
Proof.
  unfold validatePasswordStrength. cbn [errors].
  destruct (Nat.ltb (String.length pass) 8), (testClass lowercase pass),
    (testClass uppercase pass), (testClass digit pass), (testClass symbol pass);
    reflexivity.
Qed.

(** X11.  [validatePasswordStrength] accepts a password exactly when it has
    at least 8 characters, a lower-case letter, an upper-case letter, a digit
    and a symbol, and reports nothing then; a character counts as a symbol
    when it is neither a letter, a digit or an underscore nor white space, so
    a password made of those alone is always refused for want of a
    symbol. *)
Theorem validatePasswordStrength_accepts :
  forall (pass : string),
    (ok (validatePasswordStrength pass) = true <->
     (8 <= String.length pass)%nat
     /\ testClass lowercase pass = true
     /\ testClass uppercase pass = true
     /\ testClass digit pass = true
     /\ testClass symbol pass = true)
    /\ (ok (validatePasswordStrength pass) = true <->
        errors (validatePasswordStrength pass) = [])
    /\ ((String.length pass < 8)%nat <->
        In TooShort (errors (validatePasswordStrength pass)))
    /\ ((forall c, In c (list_ascii_of_string pass) ->
                   wordChar c = true \/ spaceChar c = true) ->
        In NoSymbol (errors (validatePasswordStrength pass))
        /\ ok (validatePasswordStrength pass) = false).
Proof.
  intro pass.
  assert (Hok : ok (validatePasswordStrength pass)
                = Nat.eqb (List.length (errors (validatePasswordStrength pass))) 0)
    by reflexivity.
  rewrite Hok, validatePasswordStrength_errors.
  destruct (strength_cases (Nat.ltb (String.length pass) 8)
              (testClass lowercase pass) (testClass uppercase pass)
              (testClass digit pass) (testClass symbol pass))
    as [H1 [H2 [H3 H4]]].
  cbv zeta in H1, H2, H3, H4.
  split; [|split; [|split]].
  - rewrite H1, Nat.ltb_ge. tauto.
  - exact H2.
  - rewrite <- H3, Nat.ltb_lt. tauto.
  - intro Hall. apply H4.
    destruct (testClass symbol pass) eqn:E; [|reflexivity].
    apply testClass_exists in E. destruct E as [c [Hin Hc]].
    unfold symbol in Hc. apply negb_true_iff, orb_false_iff in Hc.
    destruct (Hall c Hin); intuition congruence.
Qed.

End PasswordFacts.

(** ** Sessions over time *)

Section MoreSessionFacts.

Import Session.

Local Open Scope Z_scope.

Lemma evolves_frame (s s' : Session) :
  evolves s s' ->
  id s' = id s /\ userId s' = userId s /\ issuedAt s' = issuedAt s
  /\ expiresAt s' = expiresAt s.
Proof.
  induction 1 as [s|s s' when He IH|s s' when He IH]; simpl; tauto.
Qed.

(** X12.  Activity is never gained: touching a session changes nothing but
    [lastUsedAt], so it neither prolongs the session nor changes whether it is
    active; whatever is done to a session record, its id, user, issue and
    expiry times stay, and once it is not active at some time it is not
    active at any later time. *)
Theorem session_activity_is_never_gained :
  forall (s s' : Session) (t t' : Z),
    evolves s s' ->
    isActive s t = false ->
    t <= t' ->
    isActive s' t' = false
    /\ expiresAt s' = expiresAt s
    /\ id s' = id s /\ userId s' = userId s /\ issuedAt s' = issuedAt s
    /\ (forall when u, isActive (touchSession s when) u = isActive s u)
    /\ (forall when, expiresAt (touchSession s when) = expiresAt s
                     /\ lastUsedAt (touchSession s when) = when).
Proof.
  intros s s' t t' He Ht Hle.
  destruct (evolves_frame s s' He) as [Hi [Hu [Hiss Hexp]]].
  split; [|repeat split; assumption].
  destruct (isActive s' t') eqn:E; [|reflexivity].
  apply isActive_iff in E. destruct E as [Hr Hlt].
  assert (Ha : isActive s t = true).
  { apply isActive_iff. split; [|lia].
    destruct (revokedAt s) eqn:Er; [|reflexivity].
    exfalso. apply (revoked_stays_revoked s s' He); [congruence | assumption]. }
  congruence.
Qed.


End MoreSessionFacts.

(** ** The repositories *)

Section MoreStorageFacts.

Import Env Auth.

Local Open Scope Z_scope.

Variable rt : Runtime.

(** Replacing the records of one identifier leaves the look-up of another
    identifier as it was. *)
Lemma find_replaced_other {A} (ident : A -> string) (l : list A) (a' : A)
    (key : string) :
  key <> ident a' ->
  find (fun x => String.eqb (ident x) key)
       (map (fun x => if String.eqb (ident x) (ident a') then a' else x) l)
  = find (fun x => String.eqb (ident x) key) l.
Proof.
  intro Hne. induction l as [|x t IH]; simpl; [reflexivity|].
  destruct (String.eqb_spec (ident x) (ident a')) as [E|E].
  - rewrite E. apply String.eqb_neq in Hne. rewrite String.eqb_sym in Hne.
    rewrite Hne. exact IH.
  - destruct (String.eqb (ident x) key); [reflexivity | exact IH].
Qed.

(** X14.  [updateUser] throws a plain USER_NOT_FOUND error and writes
    nothing when no stored user has the id; otherwise the user is afterwards
    found under its id as the record that was written, every other id finds
    what it found before, and no record is added or dropped.  [updateSession]
    does the same for sessions. *)
Theorem update_then_get :
  (forall (updated : UserDomain.User) (w : World),
      find (byId (UserDomain.id updated)) (users w) = None ->
      updateUser updated w = (Throw (Error "USER_NOT_FOUND"), w))
  /\ (forall (updated : UserDomain.User) (w : World) (old : UserDomain.User),
         find (byId (UserDomain.id updated)) (users w) = Some old ->
         exists w',
           updateUser updated w = (Ok tt, w')
           /\ getUserById (UserDomain.id updated) w' = (Ok (Some updated), w')
           /\ (forall id, id <> UserDomain.id updated ->
                          find (byId id) (users w') = find (byId id) (users w))
           /\ List.length (users w') = List.length (users w)
           /\ sessions w' = sessions w)
  /\ (forall (updated : Session.Session) (w : World),
         find (sessionById (Session.id updated)) (sessions w) = None ->
         updateSession updated w = (Throw (Error "SESSION_NOT_FOUND"), w))
  /\ (forall (updated : Session.Session) (w : World) (old : Session.Session),
         find (sessionById (Session.id updated)) (sessions w) = Some old ->
         exists w',
           updateSession updated w = (Ok tt, w')
           /\ getSessionById (Session.id updated) w' = (Ok (Some updated), w')
           /\ (forall id, id <> Session.id updated ->
                          find (sessionById id) (sessions w')
                          = find (sessionById id) (sessions w))
           /\ List.length (sessions w') = List.length (sessions w)
           /\ users w' = users w).
Proof.
  assert (Hnone : forall {A} (f : A -> bool) (l : list A),
             find f l = None -> existsb f l = false).
  { intros A f l H. destruct (existsb f l) eqn:E; [|reflexivity].
    apply existsb_exists in E. destruct E as [x [Hin Hx]].
    now rewrite (find_none f l H x Hin) in Hx. }
  split; [|split; [|split]].
  - intros updated w H. unfold updateUser, bind, listUsers.
    fold (byId (UserDomain.id updated)). now rewrite (Hnone _ _ _ H).
  - intros updated w old H.
    eexists. split.
    { apply updateUser_found. now apply (find_existsb _ _ old). }
    split.
    { rewrite getUserById_run. cbn [users]. f_equal. f_equal.
      apply (find_by_id_replaced _ _ old); [assumption|].
      apply find_some in H. destruct H as [_ H]. unfold byId in H.
      apply String.eqb_eq in H. now symmetry. }
    split; [|split; [|reflexivity]].
    + intros id Hne. cbn [users]. unfold replaceUser, byId.
      now apply (find_replaced_other UserDomain.id).
    + cbn [users]. unfold replaceUser. apply length_map.
  - intros updated w H. unfold updateSession, bind, listSessions.
    fold (sessionById (Session.id updated)). now rewrite (Hnone _ _ _ H).
  - intros updated w old H.
    eexists. split.
    { apply updateSession_found. now apply (find_existsb _ _ old). }
    split.
    { rewrite getSessionById_run. cbn [sessions]. f_equal. f_equal.
      unfold replaceSession.
      apply (find_replaced _ Session.id _ old); [assumption| |].
      - unfold sessionById. apply String.eqb_refl.
      - apply find_some in H. destruct H as [_ H]. unfold sessionById in H.
        apply String.eqb_eq in H. now symmetry. }
    split; [|split; [|reflexivity]].
    + intros id Hne. cbn [sessions]. unfold replaceSession, sessionById.
      now apply (find_replaced_other Session.id).
    + cbn [sessions]. unfold replaceSession. apply length_map.
Qed.

Lemma find_app_found {A} (f : A -> bool) (l l' : list A) (a : A) :
  find f l = Some a -> find f (l ++ l') = Some a.
Proof.
  induction l as [|x t IH]; simpl; [discriminate|].
  destruct (f x); [auto | exact IH].
Qed.

Lemma find_app_missing {A} (f : A -> bool) (l l' : list A) :
  find f l = None -> find f (l ++ l') = find f l'.
Proof.
  induction l as [|x t IH]; simpl; [reflexivity|].
  destruct (f x); [discriminate | exact IH].
Qed.

(** X15.  After [appendSession] every session that was found under its id is
    still found, the appended session is found under its id when that id was
    not in use (an older session of the same id keeps shadowing it), and the
    appended session is the last of its user's sessions. *)
Theorem appendSession_then_get :
  forall (session : Session.Session) (w : World),
    exists w',
      appendSession session w = (Ok tt, w')
      /\ sessions w' = sessions w ++ [session]
      /\ users w' = users w
      /\ (forall id s, find (sessionById id) (sessions w) = Some s ->
                       getSessionById id w' = (Ok (Some s), w'))
      /\ (find (sessionById (Session.id session)) (sessions w) = None ->
          getSessionById (Session.id session) w' = (Ok (Some session), w'))
      /\ fst (Storage.listSessionsByUser (Session.userId session) w')
         = Ok (match fst (Storage.listSessionsByUser (Session.userId session) w) with
               | Ok l => l ++ [session]
               | Throw _ => []
               end).
Proof.
  intros session w. eexists. split; [reflexivity|].
  split; [reflexivity|]. split; [reflexivity|]. split; [|split].
  - intros id s H. rewrite getSessionById_run. cbn [sessions].
    now rewrite (find_app_found _ _ _ _ H).
  - intro H. rewrite getSessionById_run. cbn [sessions].
    rewrite (find_app_missing _ _ _ H). simpl. unfold sessionById.
    now rewrite String.eqb_refl.
  - unfold Storage.listSessionsByUser, bind, listSessions, ret. cbn [fst sessions].
    rewrite filter_app. simpl. now rewrite String.eqb_refl.
Qed.

(** X16.  [addUser] throws a plain EMAIL_ALREADY_EXISTS error, and stores
    nothing, when the e-mail is found; otherwise it appends the user.  An
    e-mail that the format test refuses is never found: such a user is
    appended whatever is stored, and cannot be looked up by e-mail
    afterwards. *)
Theorem addUser_outcomes :
  forall (user : UserDomain.User) (w : World),
    (forall existing,
        getUserByEmail rt (UserDomain.email user) w = (Ok (Some existing), w) ->
        Storage.addUser rt user w = (Throw (Error "EMAIL_ALREADY_EXISTS"), w))
    /\ (getUserByEmail rt (UserDomain.email user) w = (Ok None, w) ->
        exists w',
          Storage.addUser rt user w = (Ok tt, w')
          /\ users w' = users w ++ [user]
          /\ sessions w' = sessions w
          /\ effects w' = effects w ++ [UsersWritten (users w')])
    /\ (UserDomain.isValidEmail rt
          (UserDomain.normalizeEmail rt (UserDomain.email user)) = false ->
        getUserByEmail rt (UserDomain.email user) w = (Ok None, w)
        /\ getUserByEmail rt (UserDomain.email user)
             (snd (Storage.addUser rt user w))
           = (Ok None, snd (Storage.addUser rt user w))
        /\ users (snd (Storage.addUser rt user w)) = users w ++ [user]).
Proof.
  intros user w. split; [|split].
  - intros existing H. unfold Storage.addUser.
    now rewrite (bind_run _ _ _ _ _ H).
  - intro H. eexists. split.
    { unfold Storage.addUser. rewrite (bind_run _ _ _ _ _ H). reflexivity. }
    repeat split.
  - intro Hv.
    assert (Hget : forall w0, getUserByEmail rt (UserDomain.email user) w0
                              = (Ok None, w0)).
    { intro w0. unfold getUserByEmail. now rewrite Hv. }
    split; [apply Hget|]. split; [apply Hget|].
    unfold Storage.addUser. now rewrite (bind_run _ _ _ _ _ (Hget w)).
Qed.

(** X17.  [listActiveSessionsByUser] lists sessions of that user that are
    active at the time asked, in the order of the file; and after a logout
    that went through, no session with the id that was logged out is listed
    as active, for any user and at any time. *)
Theorem listActiveSessionsByUser_after_logout :
  forall (sessionId : string) (w w' : World) (pub : Session.PublicSession),
    logoutSession rt sessionId w = (Ok pub, w') ->
    forall (userId : string) (at_ : Z),
      exists active,
        Storage.listActiveSessionsByUser userId at_ w' = (Ok active, w')
        /\ active
           = filter (fun s => String.eqb (Session.userId s) userId
                              && Session.isActive s at_) (sessions w')
        /\ (forall s, In s active ->
                      Session.userId s = userId
                      /\ Session.isActive s at_ = true
                      /\ Session.id s <> sessionId).
Proof.
  intros sessionId w w' pub Hrun userId at_.
  assert (Hrev : forall s, In s (sessions w') -> Session.id s = sessionId ->
                           Session.isActive s at_ = false).
  { destruct (find (sessionById sessionId) (sessions w)) as [s0|] eqn:Hf.
    2:{ rewrite (logoutSession_not_found rt sessionId w Hf) in Hrun. discriminate. }
    destruct (Session.isActive s0 (clock rt (tick w))) eqn:Ha.
    2:{ rewrite (logoutSession_inactive rt sessionId w s0 Hf Ha) in Hrun.
        discriminate. }
    rewrite (logoutSession_active rt sessionId w s0 Hf Ha) in Hrun.
    inversion Hrun; subst w'. clear Hrun.
    apply find_some in Hf. destruct Hf as [_ Hid]. unfold sessionById in Hid.
    apply String.eqb_eq in Hid.
    intros s Hin Hs. unfold afterLogout in Hin. cbn [sessions] in Hin.
    unfold replaceSession in Hin. apply in_map_iff in Hin.
    destruct Hin as [x [Hx Hin]]. cbn [Session.id Session.revokeSession] in Hx.
    destruct (String.eqb_spec (Session.id x) (Session.id s0)) as [E|E].
    - subst s. reflexivity.
    - subst s. congruence. }
  eexists. split; [reflexivity|]. split.
  - cbn [fst]. clear. induction (sessions w') as [|s t IH]; simpl; [reflexivity|].
    destruct (String.eqb (Session.userId s) userId); simpl; [|exact IH].
    destruct (Session.isActive s at_); now rewrite IH.
  - intros s Hin. apply filter_In in Hin. destruct Hin as [Hin Ha].
    apply filter_In in Hin. destruct Hin as [Hin Hu].
    apply String.eqb_eq in Hu. split; [assumption|]. split; [assumption|].
    intro E. rewrite (Hrev s Hin E) in Ha. discriminate.
Qed.

End MoreStorageFacts.

(** ** The authentication service, beyond the claims *)

Section MoreAuthFacts.

Import Env Auth.

Local Open Scope Z_scope.

Variable rt : Runtime.

Lemma completeLogin_run (params : LoginParams) (user : UserDomain.User) (w : World)
    (session : Session.Session) :
  existsb (fun u => String.eqb (UserDomain.id u) (UserDomain.id user)) (users w) = true ->
  loginSession rt params user (tick w) = Ok session ->
  exists w',
    completeLogin rt params user w
    = (Ok (Session.toPublicSession session (clock rt (S (S (S (tick w))))),
           UserDomain.toPublicUser (loggedIn user (clock rt (tick w))) None), w')
    /\ users w' = replaceUser (loggedIn user (clock rt (tick w))) (users w)
    /\ sessions w' = sessions w ++ [session]
    /\ effects w'
       = effects w
         ++ [UsersWritten (replaceUser (loggedIn user (clock rt (tick w))) (users w));
             SessionAppended session].
Proof.
  intros Hex Hsession. unfold completeLogin.
  rewrite (bind_run _ _ _ _ _ (newDate_run rt w)).
  erewrite bind_run; [|apply updateUser_found; exact Hex].
  unfold bind at 1, observe at 1.
  rewrite (bind_run _ _ _ _ _ (newDate_run rt _)).
  unfold bind at 1, call at 1.
  change (Session.createSession _ _) with (loginSession rt params user (tick w)).
  rewrite Hsession.
  eexists. split; [reflexivity|]. split; [reflexivity|]. split; [reflexivity|].
  cbn. now rewrite <- app_assoc.
Qed.

(** When [createSession] throws, the login throws the same; the user has
    been written by then, and no session is. *)
Lemma completeLogin_throws (params : LoginParams) (user : UserDomain.User) (w : World)
    (e : Exn) :
  existsb (fun u => String.eqb (UserDomain.id u) (UserDomain.id user)) (users w) = true ->
  loginSession rt params user (tick w) = Throw e ->
  exists w',
    completeLogin rt params user w = (Throw e, w')
    /\ users w' = replaceUser (loggedIn user (clock rt (tick w))) (users w)
    /\ sessions w' = sessions w
    /\ effects w'
       = effects w
         ++ [UsersWritten (replaceUser (loggedIn user (clock rt (tick w))) (users w))].
Proof.
  intros Hex Hsession. unfold completeLogin.
  rewrite (bind_run _ _ _ _ _ (newDate_run rt w)).
  erewrite bind_run; [|apply updateUser_found; exact Hex].
  unfold bind at 1, observe at 1.
  rewrite (bind_run _ _ _ _ _ (newDate_run rt _)).
  unfold bind at 1, call at 1.
  change (Session.createSession _ _) with (loginSession rt params user (tick w)).
  rewrite Hsession.
  eexists. split; [reflexivity|]. split; [reflexivity|]. split; reflexivity.
Qed.

(** The session of a login with an integral TTL. *)
Lemma loginSession_integral (params : LoginParams) (user : UserDomain.User)
    (n : nat) (m : Z) :
  loginTtl rt params = Js.Integer m ->
  (- 8640000000000000 <= clock rt (S (S n)) + m * 60000 <= 8640000000000000 ->
   loginSession rt params user n
   = Ok {| Session.id := randomUUID rt (S n);
           Session.userId := UserDomain.id user;
           Session.issuedAt := clock rt (S (S n));
           Session.expiresAt := clock rt (S (S n)) + m * 60000;
           Session.lastUsedAt := clock rt (S (S n));
           Session.revokedAt := None;
           Session.ipHash := l_ipHash params;
           Session.userAgent := l_userAgent params |})
  /\ (~ (- 8640000000000000 <= clock rt (S (S n)) + m * 60000 <= 8640000000000000) ->
      loginSession rt params user n = Throw (RangeError "Invalid time value")).
Proof.
  intro Hm. unfold loginSession. split; intro Hrange.
  - rewrite (createSession_integral _ (clock rt (S (S n))) m);
      [reflexivity | exact Hm | apply validTime_iff; exact Hrange].
  - apply (createSession_integral_invalid _ (clock rt (S (S n))) m); [exact Hm|].
    cbn [Session.p_now]. destruct (Js.validTime _) eqn:Hv; [|reflexivity].
    apply validTime_iff in Hv. contradiction.
Qed.

Lemma totpAccepts_rehashed (params : LoginParams) (user : UserDomain.User)
    (n : nat) (code : string) (k : nat) :
  totpAccepts rt (rehashed rt params user n) code k = totpAccepts rt user code k.
Proof. unfold totpAccepts, rehashed. now destruct (needsRehash rt _). Qed.

Lemma afterTotp_rehashed (params : LoginParams) (user : UserDomain.User)
    (n : nat) (code : string) (w : World) :
  afterTotp (rehashed rt params user n) code w = afterTotp user code w.
Proof. unfold afterTotp, rehashed. now destruct (needsRehash rt _). Qed.

(** X18.  [loginUser] answers USER_NOT_FOUND exactly when the look-up by
    e-mail finds nobody, which includes every e-mail the format test
    refuses; it then leaves the world as it was: no password is compared
    and no counter is touched. *)
Theorem loginUser_unknown_user :
  forall (params : LoginParams) (w : World),
    (fst (loginUser rt params w) = Throw (AuthError USER_NOT_FOUND)
     <-> fst (getUserByEmail rt (UserDomain.normalizeEmail rt (l_email params)) w)
         = Ok None)
    /\ (fst (loginUser rt params w) = Throw (AuthError USER_NOT_FOUND) ->
        snd (loginUser rt params w) = w)
    /\ (UserDomain.isValidEmail rt
          (UserDomain.normalizeEmail rt (UserDomain.normalizeEmail rt (l_email params)))
        = false ->
        loginUser rt params w = (Throw (AuthError USER_NOT_FOUND), w)).
Proof.
  intros params w.
  assert (Hfwd : fst (getUserByEmail rt (UserDomain.normalizeEmail rt (l_email params)) w)
                 = Ok None ->
                 loginUser rt params w = (Throw (AuthError USER_NOT_FOUND), w)).
  { intro H.
    destruct (getUserByEmail_total rt
                (UserDomain.normalizeEmail rt (l_email params)) w) as [found Hg].
    rewrite Hg in H. cbn [fst] in H. inversion H; subst found.
    unfold loginUser. now rewrite (bind_run _ _ _ _ _ Hg). }
  assert (Hbwd : fst (loginUser rt params w) = Throw (AuthError USER_NOT_FOUND) ->
                 fst (getUserByEmail rt
                        (UserDomain.normalizeEmail rt (l_email params)) w) = Ok None).
  { intro H.
    destruct (getUserByEmail_total rt
                (UserDomain.normalizeEmail rt (l_email params)) w) as [[user|] Hg];
      [|now rewrite Hg].
    exfalso.
    pose proof (getUserByEmail_found rt _ _ _ _ Hg) as [_ [Hf _]].
    rewrite (loginUser_stages rt params w user Hg) in H. cbv zeta in H.
    destruct (isLocked user _); [discriminate|].
    destruct (negb (bcrypt_compare rt _ _)); [discriminate|].
    destruct (rehashed_fields rt params user (S (tick w))) as [Hid _].
    destruct (afterPassword_frame rt params user w) as [Hu _].
    destruct (mfaOn user).
    - destruct (Js.falsy (l_otpCode params)); [discriminate|].
      destruct (negb (totpAccepts rt _ _ _)); [discriminate|].
      apply (completeLogin_no_AuthError rt params
               (rehashed rt params user (S (tick w)))
               (afterTotp (rehashed rt params user (S (tick w)))
                  (otpCodeOf params) (afterPassword rt params user w)))
        with (e := USER_NOT_FOUND); [|exact H].
      destruct (afterTotp_frame (rehashed rt params user (S (tick w)))
                  (otpCodeOf params) (afterPassword rt params user w)) as [Hu' _].
      rewrite Hu', Hu. exact (found_exists _ _ user _ Hf Hid).
    - apply (completeLogin_no_AuthError rt params
               (rehashed rt params user (S (tick w)))
               (afterPassword rt params user w))
        with (e := USER_NOT_FOUND); [|exact H].
      rewrite Hu. exact (found_exists _ _ user _ Hf Hid). }
  split; [split; [exact Hbwd | intro H; now rewrite (Hfwd H)]|].
  split.
  - intro H. now rewrite (Hfwd (Hbwd H)).
  - intro Hv. apply Hfwd. unfold getUserByEmail. now rewrite Hv.
Qed.

(** X19.  A login that answers MFA_REQUIRED had the right password for an
    unlocked account with MFA on, and no code; it stores nothing: the
    failure counter is neither raised nor cleared, a hash computed anew is
    dropped, and no session is opened. *)
Theorem loginUser_mfa_required :
  forall (params : LoginParams) (w w' : World),
    loginUser rt params w = (Throw (AuthError MFA_REQUIRED), w') ->
    exists user,
      getUserByEmail rt (UserDomain.normalizeEmail rt (l_email params)) w
      = (Ok (Some user), w)
      /\ isLocked user (clock rt (tick w)) = false
      /\ bcrypt_compare rt (l_password params) (UserDomain.passHash user) = true
      /\ mfaOn user = true
      /\ Js.falsy (l_otpCode params) = true
      /\ users w' = users w
      /\ sessions w' = sessions w
      /\ (forall lines, In (UsersWritten lines) (effects w') ->
                        In (UsersWritten lines) (effects w)).
Proof.
  intros params w w' Hrun.
  destruct (getUserByEmail_total rt
              (UserDomain.normalizeEmail rt (l_email params)) w) as [[user|] Hg].
  2:{ unfold loginUser in Hrun. rewrite (bind_run _ _ _ _ _ Hg) in Hrun.
      discriminate. }
  pose proof (getUserByEmail_found rt _ _ _ _ Hg) as [_ [Hf _]].
  rewrite (loginUser_stages rt params w user Hg) in Hrun. cbv zeta in Hrun.
  exists user. split; [assumption|].
  destruct (isLocked user _); [discriminate|]. split; [reflexivity|].
  destruct (bcrypt_compare rt _ _); [|discriminate]. split; [reflexivity|].
  cbv [negb] in Hrun.
  destruct (rehashed_fields rt params user (S (tick w))) as [Hid _].
  destruct (afterPassword_frame rt params user w) as [Hu [Hs _]].
  destruct (mfaOn user).
  - split; [reflexivity|].
    destruct (Js.falsy (l_otpCode params)).
    + split; [reflexivity|]. inversion Hrun; subst w'.
      split; [assumption|]. split; [assumption|].
      intros lines Hin. unfold afterPassword, emitted, observed in Hin.
      destruct (needsRehash rt _); cbn [effects] in Hin;
        repeat (apply in_app_or in Hin; destruct Hin as [Hin|Hin]);
        try assumption;
        destruct Hin as [Hin|[]]; discriminate.
    + exfalso. destruct (totpAccepts rt _ _ _); cbv iota in Hrun; [|discriminate].
      apply (completeLogin_no_AuthError rt params
               (rehashed rt params user (S (tick w)))
               (afterTotp (rehashed rt params user (S (tick w)))
                  (otpCodeOf params) (afterPassword rt params user w)))
        with (e := MFA_REQUIRED); [|now rewrite Hrun].
      destruct (afterTotp_frame (rehashed rt params user (S (tick w)))
                  (otpCodeOf params) (afterPassword rt params user w)) as [Hu' _].
      rewrite Hu', Hu. exact (found_exists _ _ user _ Hf Hid).
  - exfalso.
    apply (completeLogin_no_AuthError rt params
             (rehashed rt params user (S (tick w)))
             (afterPassword rt params user w))
      with (e := MFA_REQUIRED); [|now rewrite Hrun].
    rewrite Hu. exact (found_exists _ _ user _ Hf Hid).
Qed.

Lemma loginUser_accepted (params : LoginParams) (w : World) (user : UserDomain.User) :
  getUserByEmail rt (UserDomain.normalizeEmail rt (l_email params)) w
  = (Ok (Some user), w) ->
  isLocked user (clock rt (tick w)) = false ->
  bcrypt_compare rt (l_password params) (UserDomain.passHash user) = true ->
  secondFactorPasses rt params user w = true ->
  loginUser rt params w
  = completeLogin rt params (rehashed rt params user (S (tick w)))
      (afterCredentials rt params user w).
Proof.
  intros Hg Hlock Hpw H2.
  rewrite (loginUser_stages rt params w user Hg). cbv zeta.
  rewrite Hlock, Hpw. cbv [negb]. unfold afterCredentials.
  unfold secondFactorPasses in H2.
  destruct (mfaOn user); [|reflexivity].
  cbn [negb orb] in H2. apply andb_true_iff in H2. destruct H2 as [Hotp Htotp].
  apply negb_true_iff in Hotp. rewrite Hotp.
  rewrite totpAccepts_rehashed, Htotp, afterTotp_rehashed. reflexivity.
Qed.

Lemma afterCredentials_frame (params : LoginParams) (user : UserDomain.User)
    (w : World) :
  users (afterCredentials rt params user w) = users w
  /\ sessions (afterCredentials rt params user w) = sessions w.
Proof.
  unfold afterCredentials.
  destruct (afterPassword_frame rt params user w) as [Hu [Hs _]].
  destruct (mfaOn user); [|now split].
  destruct (afterTotp_frame user (otpCodeOf params) (afterPassword rt params user w))
    as [Hu' [Hs' _]].
  split; congruence.
Qed.

Lemma afterCredentials_ticks (params : LoginParams) (user : UserDomain.User)
    (w : World) :
  (tick w <= tick (afterCredentials rt params user w) <= tick w + 3)%nat.
Proof.
  unfold afterCredentials, afterTotp, afterPassword, emitted, observed.
  destruct (mfaOn user); [destruct (UserDomain.mfaSecret user) as [secret|];
                          [destruct (String.eqb secret "")|]|];
    destruct (needsRehash rt _); cbn [tick]; lia.
Qed.

(** X20.  A login with the right password for an unlocked account, and with
    an accepted code when MFA is on, goes on to open a session with the TTL
    given (by default DEFAULT_TTL_MIN).  For an integral TTL: when the
    expiry is a time value, the login returns the public views of a new
    session and of the user, stores the user with both the failure counter
    and the lock cleared (and the new hash, when the stored one needed
    re-hashing), and appends the session, which belongs to the user, is not
    revoked, and expires TTL minutes after it was issued; the user is found
    as the stored record afterwards.  When the expiry is no time value, the
    login throws the [RangeError] of [createSession]: the user has been
    stored with the counters cleared by then, and no session is opened. *)
Theorem loginUser_success :
  forall (params : LoginParams) (w : World) (user : UserDomain.User) (m : Z),
    getUserByEmail rt (UserDomain.normalizeEmail rt (l_email params)) w
    = (Ok (Some user), w) ->
    isLocked user (clock rt (tick w)) = false ->
    bcrypt_compare rt (l_password params) (UserDomain.passHash user) = true ->
    secondFactorPasses rt params user w = true ->
    loginTtl rt params = Js.Integer m ->
    ((forall n, (tick w <= n <= tick w + 5)%nat ->
                - 8640000000000000 <= clock rt n + m * 60000 <= 8640000000000000) ->
     exists (stored : UserDomain.User) (session : Session.Session) (at_ : Z)
            (w' : World),
       loginUser rt params w
       = (Ok (Session.toPublicSession session at_,
              UserDomain.toPublicUser stored None), w')
       /\ users w' = replaceUser stored (users w)
       /\ sessions w' = sessions w ++ [session]
       /\ getUserByEmail rt (UserDomain.normalizeEmail rt (l_email params)) w'
          = (Ok (Some stored), w')
       /\ UserDomain.failedLoginAttempts stored = Some 0
       /\ UserDomain.lockedUntil stored = Some 0
       /\ UserDomain.passHash stored
          = UserDomain.passHash (rehashed rt params user (S (tick w)))
       /\ UserDomain.id stored = UserDomain.id user
       /\ UserDomain.email stored = UserDomain.email user
       /\ UserDomain.roles stored = UserDomain.roles user
       /\ UserDomain.extraPermissions stored = UserDomain.extraPermissions user
       /\ UserDomain.mfaEnabled stored = UserDomain.mfaEnabled user
       /\ UserDomain.mfaSecret stored = UserDomain.mfaSecret user
       /\ Session.userId session = UserDomain.id user
       /\ Session.revokedAt session = None
       /\ Session.lastUsedAt session = Session.issuedAt session
       /\ Session.expiresAt session = Session.issuedAt session + m * 60000
       /\ Session.ipHash session = l_ipHash params
       /\ Session.userAgent session = l_userAgent params)
    /\ ((forall n, (tick w <= n <= tick w + 5)%nat ->
                   ~ (- 8640000000000000 <= clock rt n + m * 60000
                      <= 8640000000000000)) ->
        exists (stored : UserDomain.User) (w' : World),
          loginUser rt params w = (Throw (RangeError "Invalid time value"), w')
          /\ users w' = replaceUser stored (users w)
          /\ UserDomain.id stored = UserDomain.id user
          /\ UserDomain.failedLoginAttempts stored = Some 0
          /\ UserDomain.lockedUntil stored = Some 0
          /\ sessions w' = sessions w).
Proof.
  intros params w user m Hg Hlock Hpw H2 Hm.
  pose proof (getUserByEmail_found rt _ _ _ _ Hg) as [_ [Hf Hv]].
  destruct (rehashed_fields rt params user (S (tick w)))
    as [Hid [Hem [_ [_ [Hro [Hex [Hmf Hms]]]]]]].
  destruct (afterCredentials_frame params user w) as [Hu Hs].
  pose proof (afterCredentials_ticks params user w) as Hticks.
  set (user1 := rehashed rt params user (S (tick w))) in *.
  set (w0 := afterCredentials rt params user w) in *.
  assert (Hexists : existsb (fun u => String.eqb (UserDomain.id u) (UserDomain.id user1))
                            (users w0) = true).
  { rewrite Hu. exact (found_exists _ _ user _ Hf Hid). }
  destruct (loginSession_integral params user1 (tick w0) m Hm) as [Hok Hthrow].
  split; intro Hrange.
  - destruct (completeLogin_run params user1 w0 _ Hexists
                (Hok (Hrange (S (S (tick w0))) ltac:(lia))))
      as [w' [Hrun [Hus [Hss _]]]].
    exists (loggedIn user1 (clock rt (tick w0))). eexists.
    exists (clock rt (S (S (S (tick w0))))), w'.
    split. { rewrite (loginUser_accepted params w user Hg Hlock Hpw H2). exact Hrun. }
    split. { now rewrite Hus, Hu. }
    split. { now rewrite Hss, Hs. }
    split.
    { apply getUserByEmail_other_world; [assumption|].
      rewrite Hus, Hu. unfold replaceUser.
      apply (find_replaced _ UserDomain.id _ user); [assumption| |exact Hid].
      apply find_some in Hf. destruct Hf as [_ Hf]. unfold byEmail in *.
      change (UserDomain.email (loggedIn user1 (clock rt (tick w0))))
        with (UserDomain.email user1).
      now rewrite Hem. }
    cbn. repeat split; assumption.
  - destruct (completeLogin_throws params user1 w0 _ Hexists
                (Hthrow (Hrange (S (S (tick w0))) ltac:(lia))))
      as [w' [Hrun [Hus [Hss _]]]].
    exists (loggedIn user1 (clock rt (tick w0))), w'.
    split. { rewrite (loginUser_accepted params w user Hg Hlock Hpw H2). exact Hrun. }
    split. { now rewrite Hus, Hu. }
    split. { exact Hid. }
    split; [reflexivity|]. split; [reflexivity|].
    now rewrite Hss, Hs.
Qed.

(** X21.  The failure counter outlives the lock: once it stands at four or
    more, every further wrong password on the unlocked account (a lock that
    has run out included) locks it again, for fifteen minutes from the clock
    reading that follows the password check. *)
Theorem loginUser_locks_again :
  forall (params : LoginParams) (w : World) (user : UserDomain.User),
    getUserByEmail rt (UserDomain.normalizeEmail rt (l_email params)) w
    = (Ok (Some user), w) ->
    isLocked user (clock rt (tick w)) = false ->
    bcrypt_compare rt (l_password params) (UserDomain.passHash user) = false ->
    4 <= attempts user ->
    exists (w' : World) (user' : UserDomain.User),
      loginUser rt params w = (Throw (AuthError INVALID_CREDENTIALS), w')
      /\ getUserByEmail rt (UserDomain.normalizeEmail rt (l_email params)) w'
         = (Ok (Some user'), w')
      /\ attempts user' = attempts user + 1
      /\ UserDomain.lockedUntil user' = Some (clock rt (S (tick w)) + 15 * 60000)
      /\ (forall t, 0 < clock rt (S (tick w)) + 15 * 60000 ->
                    t < clock rt (S (tick w)) + 15 * 60000 ->
                    isLocked user' t = true).
Proof.
  intros params w user Hg Hlock Hpw Hfour.
  set (w1 := emitted (PasswordCompared (l_password params) (UserDomain.passHash user))
                     (observed w)).
  pose proof (getUserByEmail_found rt _ _ _ _ Hg) as [_ [Hf Hv]].
  destruct (bumped_isBumpOf rt user (S (tick w))) as [Hatt [Hl _]].
  exists (afterBump rt user w1), (bumped rt user (S (tick w))).
  split. { now apply loginUser_bad_password. }
  split.
  { apply getUserByEmail_other_world; [assumption|].
    change (users (afterBump rt user w1))
      with (replaceUser (bumped rt user (S (tick w))) (users w)).
    unfold replaceUser.
    apply (find_replaced _ UserDomain.id _ user); [assumption| |apply bumped_id].
    apply find_some in Hf. destruct Hf as [_ Hf]. unfold byEmail in *.
    now rewrite bumped_email. }
  split. { unfold attempts at 1. now rewrite Hatt. }
  assert (Hlk : UserDomain.lockedUntil (bumped rt user (S (tick w)))
                = Some (clock rt (S (tick w)) + 15 * 60000)) by (apply Hl; lia).
  split. { exact Hlk. }
  intros t Hpos Ht. unfold isLocked. rewrite Hlk.
  apply andb_true_iff. split; [apply andb_true_iff; split|].
  - apply negb_true_iff, Z.eqb_neq. lia.
  - apply Z.ltb_lt. lia.
  - apply Z.ltb_lt. lia.
Qed.

End MoreAuthFacts.

(** ** MFA set-up and registration, composed with the login *)

Section RegistrationFacts.

Import Env Auth.

Local Open Scope Z_scope.

Variable rt : Runtime.

(** X22.  [setupMfa] suspends MFA: it stores the new secret with MFA
    switched off, also for an account that had MFA on, so that until
    [verifyMfa] accepts a code the right password alone logs in, whatever
    code is or is not given (the session has an integral TTL, and an expiry
    that is a time value). *)
Theorem setupMfa_suspends_mfa :
  forall (params : LoginParams) (issuer : string) (w : World)
         (user : UserDomain.User) (m : Z),
    getUserByEmail rt (UserDomain.normalizeEmail rt (l_email params)) w
    = (Ok (Some user), w) ->
    find (byId (UserDomain.id user)) (users w) = Some user ->
    bcrypt_compare rt (l_password params) (UserDomain.passHash user) = true ->
    isLocked user (clock rt (S (S (tick w)))) = false ->
    loginTtl rt params = Js.Integer m ->
    (forall n, (tick w <= n <= tick w + 7)%nat ->
               - 8640000000000000 <= clock rt n + m * 60000 <= 8640000000000000) ->
    exists secret uri w1 stored res w2,
      setupMfa rt (UserDomain.id user) issuer w = (Ok (secret, uri), w1)
      /\ getUserByEmail rt (UserDomain.normalizeEmail rt (l_email params)) w1
         = (Ok (Some stored), w1)
      /\ UserDomain.mfaEnabled stored = Some false
      /\ UserDomain.mfaSecret stored = Some secret
      /\ loginUser rt params w1 = (Ok res, w2).
Proof.
  intros params issuer w user m Hg Hid Hpw Hlock Hm Hrange.
  pose proof (getUserByEmail_found rt _ _ _ _ Hg) as [_ [Hf Hv]].
  set (secret := authenticator_generateSecret rt (tick w)).
  set (stored := withPendingSecret user secret (clock rt (S (tick w)))).
  set (w1 := afterSetupMfa rt user w).
  assert (Hg1 : getUserByEmail rt (UserDomain.normalizeEmail rt (l_email params)) w1
                = (Ok (Some stored), w1)).
  { apply getUserByEmail_other_world; [assumption|].
    change (users w1) with (replaceUser stored (users w)). unfold replaceUser.
    apply (find_replaced _ UserDomain.id _ user); [assumption| |reflexivity].
    apply find_some in Hf. destruct Hf as [_ Hf]. exact Hf. }
  assert (H2 : secondFactorPasses rt params stored w1 = true) by reflexivity.
  pose proof (loginUser_accepted rt params w1 stored Hg1 Hlock Hpw H2) as Hlogin.
  pose proof (afterCredentials_ticks rt params stored w1) as Hticks.
  change (tick w1) with (S (S (tick w))) in Hticks.
  destruct (loginSession_integral rt params
              (rehashed rt params stored (S (tick w1)))
              (tick (afterCredentials rt params stored w1)) m Hm) as [Hok _].
  assert (Hr : - 8640000000000000
               <= clock rt (S (S (tick (afterCredentials rt params stored w1))))
                  + m * 60000
               <= 8640000000000000) by (apply Hrange; lia).
  assert (Hexists :
            existsb (fun u => String.eqb (UserDomain.id u)
                                (UserDomain.id (rehashed rt params stored (S (tick w1)))))
                    (users (afterCredentials rt params stored w1)) = true).
  { destruct (afterCredentials_frame rt params stored w1) as [Hu _]. rewrite Hu.
    pose proof (getUserByEmail_found rt _ _ _ _ Hg1) as [_ [Hf1 _]].
    destruct (rehashed_fields rt params stored (S (tick w1))) as [Hid1 _].
    exact (found_exists _ _ stored _ Hf1 Hid1). }
  destruct (completeLogin_run rt params (rehashed rt params stored (S (tick w1)))
              (afterCredentials rt params stored w1) _ Hexists (Hok Hr))
    as [w2 [Hrun _]].
  exists secret, (authenticator_keyuri rt (UserDomain.email user) issuer secret),
         w1, stored.
  eexists. exists w2.
  split. { now apply setupMfa_run. }
  split. { exact Hg1. }
  split. { reflexivity. }
  split. { reflexivity. }
  rewrite Hlogin. exact Hrun.
Qed.

Lemma registerUser_run (params : Storage.RegisterParams) (w : World) :
  normalizeEmailIdempotent rt ->
  UserDomain.isValidEmail rt (UserDomain.normalizeEmail rt (Storage.r_email params))
  = true ->
  Password.ok (Password.validatePasswordStrength (Storage.r_password params)) = true ->
  find (byEmail rt (UserDomain.normalizeEmail rt (Storage.r_email params))) (users w)
  = None ->
  Storage.registerUser rt params w
  = (Ok (UserDomain.toPublicUser (registered rt params (tick w)) None),
     afterRegister rt params w).
Proof.
  intros Hnorm Hv Hs Hf.
  assert (Hget : forall w0, users w0 = users w ->
             getUserByEmail rt (UserDomain.normalizeEmail rt (Storage.r_email params)) w0
             = (Ok None, w0)).
  { intros w0 Hw0. unfold getUserByEmail. rewrite Hnorm, Hv. cbn [negb].
    unfold bind, listUsers, ret.
    fold (byEmail rt (UserDomain.normalizeEmail rt (Storage.r_email params))).
    now rewrite Hw0, Hf. }
  unfold Storage.registerUser. rewrite Hv, Hs. cbn [negb].
  rewrite (bind_run _ _ _ _ _ (Hget w eq_refl)).
  rewrite (bind_run _ _ _ _ _ (hashPassword_run rt _ _)).
  unfold bind at 1. unfold observe at 1.
  rewrite (bind_run _ _ _ _ _ (newDate_run rt _)).
  unfold Storage.addUser.
  match goal with
  | |- bind (bind (getUserByEmail rt ?e) _) _ ?w0 = _ =>
      change e with (UserDomain.normalizeEmail rt
                       (UserDomain.normalizeEmail rt (Storage.r_email params)));
      rewrite Hnorm;
      rewrite (bind_run _ _ _ _ _ (bind_run _ _ _ _ _ (Hget w0 eq_refl)))
  end.
  unfold ret, afterRegister, registered. cbn.
  rewrite <- app_assoc. reflexivity.
Qed.

(** X23.  [registerUser] checks in this order: the format of the e-mail
    (INVALID_EMAIL), the strength of the password (WEAK_PASSWORD), and that
    the e-mail is free (EMAIL_TAKEN); a refusal leaves the world as it was.
    Otherwise it appends one user: normalised e-mail, the hash of the
    password, MFA off, counters at zero, the role "user" when none is given;
    and it returns that user's public view. *)
Theorem registerUser_outcomes :
  normalizeEmailIdempotent rt ->
  forall (params : Storage.RegisterParams) (w : World),
    let email := UserDomain.normalizeEmail rt (Storage.r_email params) in
    let strong :=
      Password.ok (Password.validatePasswordStrength (Storage.r_password params)) in
    (UserDomain.isValidEmail rt email = false ->
     Storage.registerUser rt params w = (Throw (AuthError INVALID_EMAIL), w))
    /\ (UserDomain.isValidEmail rt email = true -> strong = false ->
        Storage.registerUser rt params w = (Throw (AuthError WEAK_PASSWORD), w))
    /\ (UserDomain.isValidEmail rt email = true -> strong = true ->
        forall existing, find (byEmail rt email) (users w) = Some existing ->
        Storage.registerUser rt params w = (Throw (AuthError EMAIL_TAKEN), w))
    /\ (UserDomain.isValidEmail rt email = true -> strong = true ->
        find (byEmail rt email) (users w) = None ->
        exists user w',
          Storage.registerUser rt params w
          = (Ok (UserDomain.toPublicUser user None), w')
          /\ users w' = users w ++ [user]
          /\ sessions w' = sessions w
          /\ UserDomain.email user = email
          /\ UserDomain.passHash user
             = bcrypt_hash rt (Storage.r_password params)
                 (bcrypt_genSalt rt (tick w) (SALT_ROUNDS rt))
          /\ UserDomain.roles user
             = UserCreation.normalizeRoles rt
                 (match Storage.r_roles params with Some r => r | None => ["user"] end)
          /\ UserDomain.extraPermissions user
             = Some (Role.normalizePermissions
                       (match Storage.r_extraPermissions params with
                        | Some e => e
                        | None => []
                        end))
          /\ UserDomain.mfaEnabled user = Some false
          /\ UserDomain.mfaSecret user = None
          /\ UserDomain.failedLoginAttempts user = Some 0
          /\ UserDomain.lockedUntil user = Some 0
          /\ UserDomain.createdAt user = UserDomain.updatedAt user).
Proof.
  intros Hnorm params w email strong.
  split; [|split; [|split]].
  - intro Hv. unfold Storage.registerUser. fold email. now rewrite Hv.
  - intros Hv Hs. unfold Storage.registerUser. fold email. rewrite Hv.
    fold strong. now rewrite Hs.
  - intros Hv Hs existing Hf. unfold Storage.registerUser. fold email. rewrite Hv.
    fold strong. rewrite Hs. cbn [negb].
    assert (Hg : getUserByEmail rt email w = (Ok (Some existing), w)).
    { apply getUserByEmail_other_world.
      - unfold email. rewrite Hnorm. exact Hv.
      - unfold email. rewrite Hnorm. exact Hf. }
    now rewrite (bind_run _ _ _ _ _ Hg).
  - intros Hv Hs Hf.
    exists (registered rt params (tick w)), (afterRegister rt params w).
    split. { now apply registerUser_run. }
    split; [reflexivity|]. split; [reflexivity|].
    split. { cbn. apply Hnorm. }
    repeat split.
Qed.

Lemma registerUser_inv (params : Storage.RegisterParams) (w w1 : World)
    (pub : UserDomain.PublicUser) :
  normalizeEmailIdempotent rt ->
  Storage.registerUser rt params w = (Ok pub, w1) ->
  UserDomain.isValidEmail rt (UserDomain.normalizeEmail rt (Storage.r_email params))
  = true
  /\ find (byEmail rt (UserDomain.normalizeEmail rt (Storage.r_email params))) (users w)
     = None
  /\ pub = UserDomain.toPublicUser (registered rt params (tick w)) None
  /\ w1 = afterRegister rt params w.
Proof.
  intros Hnorm Hrun.
  destruct (UserDomain.isValidEmail rt
              (UserDomain.normalizeEmail rt (Storage.r_email params))) eqn:Hv.
  2:{ unfold Storage.registerUser in Hrun. rewrite Hv in Hrun. discriminate. }
  destruct (Password.ok (Password.validatePasswordStrength (Storage.r_password params)))
    eqn:Hs.
  2:{ unfold Storage.registerUser in Hrun. rewrite Hv, Hs in Hrun. discriminate. }
  destruct (find (byEmail rt (UserDomain.normalizeEmail rt (Storage.r_email params)))
                 (users w)) as [existing|] eqn:Hf.
  { exfalso. unfold Storage.registerUser in Hrun. rewrite Hv, Hs in Hrun.
    cbn [negb] in Hrun.
    assert (Hg : getUserByEmail rt
                   (UserDomain.normalizeEmail rt (Storage.r_email params)) w
                 = (Ok (Some existing), w)).
    { apply getUserByEmail_other_world; rewrite Hnorm; assumption. }
    rewrite (bind_run _ _ _ _ _ Hg) in Hrun. discriminate. }
  rewrite (registerUser_run params w Hnorm Hv Hs Hf) in Hrun.
  inversion Hrun. auto.
Qed.

(** X24.  Registration and login fit together: after a registration that
    went through, a login with the same e-mail (up to normalisation) and
    the same password succeeds at once, without a code; it returns the
    registered user and opens that user's first session since (the session
    has an integral TTL, and an expiry that is a time value). *)
Theorem register_then_login :
  normalizeEmailIdempotent rt ->
  bcryptAcceptsItsHashes rt ->
  forall (rparams : Storage.RegisterParams) (w w1 : World)
         (pub : UserDomain.PublicUser) (lparams : LoginParams) (m : Z),
    Storage.registerUser rt rparams w = (Ok pub, w1) ->
    UserDomain.normalizeEmail rt (l_email lparams)
    = UserDomain.normalizeEmail rt (Storage.r_email rparams) ->
    l_password lparams = Storage.r_password rparams ->
    loginTtl rt lparams = Js.Integer m ->
    (forall n, (tick w <= n <= tick w + 8)%nat ->
               - 8640000000000000 <= clock rt n + m * 60000 <= 8640000000000000) ->
    exists session user w2,
      loginUser rt lparams w1 = (Ok (session, user), w2)
      /\ UserDomain.pub_id user = UserDomain.pub_id pub
      /\ UserDomain.pub_email user = UserDomain.pub_email pub
      /\ UserDomain.pub_roles user = UserDomain.pub_roles pub
      /\ UserDomain.pub_permissions user = UserDomain.pub_permissions pub
      /\ UserDomain.pub_mfaEnabled user = false
      /\ Session.pub_userId session = UserDomain.pub_id pub
      /\ List.length (sessions w2) = S (List.length (sessions w)).
Proof.
  intros Hnorm Hbcrypt rparams w w1 pub lparams m Hreg Hemail Hpass Hm Hrange.
  destruct (registerUser_inv rparams w w1 pub Hnorm Hreg) as [Hv [Hf [Hpub Hw1]]].
  subst pub w1.
  set (user := registered rt rparams (tick w)).
  set (w1 := afterRegister rt rparams w).
  assert (Hg : getUserByEmail rt (UserDomain.normalizeEmail rt (l_email lparams)) w1
               = (Ok (Some user), w1)).
  { apply getUserByEmail_other_world; rewrite Hemail, Hnorm; [assumption|].
    change (users w1) with (users w ++ [user]).
    rewrite (find_app_missing _ _ _ Hf). cbn [find].
    unfold byEmail at 1.
    change (UserDomain.email user)
      with (UserDomain.normalizeEmail rt
              (UserDomain.normalizeEmail rt (Storage.r_email rparams))).
    now rewrite !Hnorm, String.eqb_refl. }
  assert (Hpw : bcrypt_compare rt (l_password lparams) (UserDomain.passHash user)
                = true).
  { rewrite Hpass. apply Hbcrypt. }
  assert (H2 : secondFactorPasses rt lparams user w1 = true) by reflexivity.
  assert (Hlock : isLocked user (clock rt (tick w1)) = false) by reflexivity.
  pose proof (loginUser_accepted rt lparams w1 user Hg Hlock Hpw H2) as Hlogin.
  destruct (afterCredentials_frame rt lparams user w1) as [Hu Hs].
  pose proof (afterCredentials_ticks rt lparams user w1) as Hticks.
  change (tick w1) with (S (S (S (tick w)))) in Hticks.
  pose proof (getUserByEmail_found rt _ _ _ _ Hg) as [_ [Hf1 _]].
  destruct (rehashed_fields rt lparams user (S (tick w1)))
    as [Hid1 [Hem1 [_ [_ [Hro1 [Hex1 [Hmf1 _]]]]]]].
  destruct (loginSession_integral rt lparams
              (rehashed rt lparams user (S (tick w1)))
              (tick (afterCredentials rt lparams user w1)) m Hm) as [Hok _].
  assert (Hr : - 8640000000000000
               <= clock rt (S (S (tick (afterCredentials rt lparams user w1))))
                  + m * 60000
               <= 8640000000000000) by (apply Hrange; lia).
  assert (Hexists :
            existsb (fun u => String.eqb (UserDomain.id u)
                                (UserDomain.id (rehashed rt lparams user (S (tick w1)))))
                    (users (afterCredentials rt lparams user w1)) = true).
  { rewrite Hu. exact (found_exists _ _ user _ Hf1 Hid1). }
  destruct (completeLogin_run rt lparams (rehashed rt lparams user (S (tick w1)))
              (afterCredentials rt lparams user w1) _ Hexists (Hok Hr))
    as [w2 [Hrun [_ [Hss _]]]].
  eexists. eexists. exists w2.
  split. { rewrite Hlogin. exact Hrun. }
  split. { exact Hid1. }
  split. { exact Hem1. }
  split. { exact Hro1. }
  split.
  { unfold UserDomain.toPublicUser, UserDomain.pub_permissions.
    unfold UserDomain.getEffectivePermissions.
    change (UserDomain.roles (loggedIn (rehashed rt lparams user (S (tick w1))) _))
      with (UserDomain.roles (rehashed rt lparams user (S (tick w1)))).
    change (UserDomain.extraPermissions
              (loggedIn (rehashed rt lparams user (S (tick w1))) _))
      with (UserDomain.extraPermissions (rehashed rt lparams user (S (tick w1)))).
    now rewrite Hro1, Hex1. }
  split.
  { change (match UserDomain.mfaEnabled (rehashed rt lparams user (S (tick w1))) with
            | Some b => b
            | None => false
            end = false).
    now rewrite Hmf1. }
  split. { exact Hid1. }
  rewrite Hss, Hs, length_app. cbn. lia.
Qed.

End RegistrationFacts.

(** ** The role repository *)

Section RoleRepositoryFacts.

Import Env RoleRepository.

Variable rt : Runtime.

Lemma listRoles_run (lines : Lines) :
  listRoles rt lines = (Ok (listed rt lines), lines).
Proof.
  unfold listRoles, bind, readLines, ret. f_equal. f_equal.
  assert (H : forall acc,
             fold_left (fun out ln => match normalizeRoleRecord rt ln with
                                      | Some norm => out ++ [norm]
                                      | None => out
                                      end) lines acc
             = acc ++ listed rt lines).
  { unfold listed. induction lines as [|ln t IH]; intro acc; simpl.
    - now rewrite app_nil_r.
    - rewrite IH. destruct (normalizeRoleRecord rt ln); simpl;
        [now rewrite <- app_assoc | reflexivity]. }
  apply (H []).
Qed.

Lemma normalized_valid (perms : list string) :
  forallb Permission.isPermission (Role.normalizePermissions perms) = true.
Proof.
  apply forallb_forall. intros p Hp. now apply normalizePermissions_In in Hp.
Qed.

(** The validity test at the end of [normalizeRoleRecord] never fails. *)
Lemma normalizeRoleRecord_eq (obj : Role.Role) :
  normalizeRoleRecord rt obj
  = if String.eqb (trim rt (Role.name obj)) "" then None
    else Some (Role.mkRole (trim rt (Role.name obj))
                 (Role.normalizePermissions (Role.permissions obj))
                 (Role.description obj)).
Proof.
  unfold normalizeRoleRecord. destruct (String.eqb _ ""); [reflexivity|].
  unfold RoleChecks.isValidRole. cbn [Role.permissions].
  now rewrite normalized_valid.
Qed.

Lemma normalizeRoleRecord_fixed (r : Role.Role) :
  wellFormed rt r -> normalizeRoleRecord rt r = Some r.
Proof.
  intros [Ht [Hn Hp]]. rewrite normalizeRoleRecord_eq, Ht, Hp.
  apply String.eqb_neq in Hn. rewrite Hn. now destruct r.
Qed.

Lemma listed_fixed (l : list Role.Role) :
  Forall (wellFormed rt) l -> listed rt l = l.
Proof.
  unfold listed. induction 1 as [|r t Hr _ IH]; simpl; [reflexivity|].
  rewrite (normalizeRoleRecord_fixed r Hr). simpl. now rewrite IH.
Qed.

Lemma listed_In (lines : Lines) (r : Role.Role) :
  In r (listed rt lines) <->
  exists ln, In ln lines
             /\ trim rt (Role.name ln) <> ""
             /\ r = Role.mkRole (trim rt (Role.name ln))
                      (Role.normalizePermissions (Role.permissions ln))
                      (Role.description ln).
Proof.
  unfold listed. rewrite in_flat_map. split.
  - intros [ln [Hin Hr]]. exists ln. split; [assumption|].
    rewrite normalizeRoleRecord_eq in Hr.
    destruct (String.eqb_spec (trim rt (Role.name ln)) ""); [contradiction|].
    destruct Hr as [Hr|[]]. now split.
  - intros [ln [Hin [Hn Hr]]]. exists ln. split; [assumption|].
    rewrite normalizeRoleRecord_eq. apply String.eqb_neq in Hn. rewrite Hn.
    left. now symmetry.
Qed.

Lemma listed_wellFormed (lines : Lines) :
  trimIdempotent rt -> Forall (wellFormed rt) (listed rt lines).
Proof.
  intro Hidem. apply Forall_forall. intros r Hr.
  apply listed_In in Hr. destruct Hr as [ln [_ [Hn Hr]]]. subst r.
  unfold wellFormed. cbn [Role.name Role.permissions].
  split; [apply Hidem|]. split; [assumption|].
  apply normalizePermissions_idempotent.
Qed.

Lemma listed_length (lines : Lines) :
  (List.length (listed rt lines) <= List.length lines)%nat.
Proof.
  unfold listed. induction lines as [|ln t IH]; simpl; [lia|].
  destruct (normalizeRoleRecord rt ln); simpl; lia.
Qed.

(** X25.  [listRoles] reads without writing; it lists, in the order of the
    file, every line whose trimmed name is not empty, with the name trimmed
    and the permissions normalized, and nothing else: the validity test it
    applies after normalizing never removes a line.  Every role listed is a
    valid role, with a name and without repeated permissions. *)
Theorem listRoles_normalizes :
  forall (lines : Lines),
    exists roles,
      listRoles rt lines = (Ok roles, lines)
      /\ roles
         = map (fun ln => Role.mkRole (trim rt (Role.name ln))
                            (Role.normalizePermissions (Role.permissions ln))
                            (Role.description ln))
               (filter (fun ln => negb (String.eqb (trim rt (Role.name ln)) ""))
                       lines)
      /\ (forall r, In r roles ->
                    Role.name r <> ""
                    /\ RoleChecks.isValidRole r = true
                    /\ NoDup (Role.permissions r)
                    /\ Role.normalizePermissions (Role.permissions r)
                       = Role.permissions r)
      /\ (List.length roles <= List.length lines)%nat.
Proof.
  intro lines. exists (listed rt lines).
  split; [apply listRoles_run|]. split; [|split].
  - unfold listed. induction lines as [|ln t IH]; simpl; [reflexivity|].
    rewrite normalizeRoleRecord_eq.
    destruct (String.eqb (trim rt (Role.name ln)) ""); simpl; now rewrite IH.
  - intros r Hr. apply listed_In in Hr. destruct Hr as [ln [_ [Hn Hr]]]. subst r.
    cbn [Role.name Role.permissions]. split; [assumption|].
    split; [apply normalized_valid|].
    split; [apply normalizePermissions_NoDup | apply normalizePermissions_idempotent].
  - apply listed_length.
Qed.

(** *** Seeding the presets *)

Lemma find_seeded_entries (entries : list (string * list string)) (n : string) :
  find (fun r => String.eqb (Role.name r) n)
       (map (fun entry =>
               Role.createRole (fst entry) (Some ("Preset " ++ fst entry)%string)
                               (Some (snd entry))) entries)
  = match Js.getProp entries n with
    | Some perms => Some (Role.createRole n (Some ("Preset " ++ n)%string) (Some perms))
    | None => None
    end.
Proof.
  induction entries as [|[k v] t IH]; [reflexivity|].
  cbn [map find Js.getProp fst snd].
  change (Role.name (Role.createRole k (Some ("Preset " ++ k)%string) (Some v)))
    with k.
  rewrite (String.eqb_sym n k).
  destruct (String.eqb_spec k n) as [E|E]; [now subst k | exact IH].
Qed.

Lemma normalizePermissions_repeat (A P B : list string) :
  Role.normalizePermissions (A ++ (P ++ P) ++ B)
  = Role.normalizePermissions (A ++ P ++ B).
Proof.
  unfold Role.normalizePermissions. f_equal.
  change Role.collectUnique with (collectFrom []).
  rewrite !collectFrom_app. f_equal.
  apply collectFrom_absorbed. intros p Hp Hv.
  apply collectFrom_In. right. now split.
Qed.

Lemma seeded_permissions_normalize (names : list string) (A E : list string) :
  Role.normalizePermissions
    (A ++ flat_map (resolveRole seededRoles) names ++ E)
  = Role.normalizePermissions (A ++ flat_map (resolveRole []) names ++ E).
Proof.
  revert A. induction names as [|n t IH]; intro A; [reflexivity|].
  cbn [flat_map]. rewrite <- !app_assoc.
  assert (Hn : Role.normalizePermissions
                 (A ++ resolveRole seededRoles n
                    ++ flat_map (resolveRole seededRoles) t ++ E)
               = Role.normalizePermissions
                   (A ++ resolveRole [] n
                      ++ flat_map (resolveRole seededRoles) t ++ E)).
  { rewrite resolveRole_no_catalog. unfold resolveRole, seededRoles.
    rewrite find_seeded_entries, getPresetPermissions_getProp.
    destruct (Js.getProp Permission.ROLE_PRESETS n) as [perms|] eqn:Eg;
      [|reflexivity].
    cbn [Role.createRole Role.permissions].
    rewrite getPresetPermissions_getProp, Eg.
    rewrite normalizePermissions_absorb. apply normalizePermissions_repeat. }
  rewrite Hn. rewrite !(app_assoc A (resolveRole [] n)). apply IH.
Qed.

Lemma seededRoles_wellFormed :
  trimKeepsPresetNames rt -> Forall (wellFormed rt) seededRoles.
Proof.
  intro Hkeep. apply Forall_forall. intros r Hr. unfold seededRoles in Hr.
  apply in_map_iff in Hr. destruct Hr as [[n perms] [Hr Hin]]. subst r.
  cbn [fst snd].
  assert (Hn : Role.isRoleName n = true).
  { apply isRoleName_presets. simpl in Hin.
    repeat (destruct Hin as [Hin|Hin]; [inversion Hin; tauto|]). contradiction. }
  unfold wellFormed.
  change (Role.name (Role.createRole n (Some ("Preset " ++ n)%string) (Some perms)))
    with n.
  split; [now apply Hkeep|]. split.
  - intro E. subst n. discriminate.
  - cbn [Role.createRole Role.permissions]. apply normalizePermissions_idempotent.
Qed.

(** X26.  [seedRolePresetsIfEmpty] leaves the file alone as soon as
    [listRoles] lists one role.  Otherwise (the file is empty, or none of
    its lines has a name) it replaces the file by the four presets, which
    [listRoles] then lists as they were written; and with these as the role
    catalog every user has the effective permissions it has without a
    catalog. *)
Theorem seedRolePresetsIfEmpty_outcomes :
  trimKeepsPresetNames rt ->
  forall (lines : Lines),
    (listed rt lines <> [] ->
     seedRolePresetsIfEmpty rt lines = (Ok tt, lines))
    /\ (listed rt lines = [] ->
        exists seeded,
          seedRolePresetsIfEmpty rt lines = (Ok tt, seeded)
          /\ listRoles rt seeded = (Ok seeded, seeded)
          /\ map Role.name seeded = ["admin"; "security-analyst"; "support"; "user"]
          /\ (forall r, In r seeded ->
                        Role.permissions r
                        = Role.normalizePermissions
                            (Role.getPresetPermissions (Role.name r)))
          /\ (forall user,
                 UserDomain.getEffectivePermissions user (Some seeded)
                 = UserDomain.getEffectivePermissions user None)).
Proof.
  intros Hkeep lines. split.
  - intro Hne. unfold seedRolePresetsIfEmpty, bind. rewrite listRoles_run.
    destruct (listed rt lines); [contradiction | reflexivity].
  - intro He. exists seededRoles. split.
    { unfold seedRolePresetsIfEmpty, bind. rewrite listRoles_run, He. reflexivity. }
    split.
    { rewrite listRoles_run. now rewrite (listed_fixed _ (seededRoles_wellFormed Hkeep)). }
    split; [reflexivity|]. split.
    { intros r Hr. unfold seededRoles in Hr. apply in_map_iff in Hr.
      destruct Hr as [[n perms] [Hr Hin]]. subst r. cbn [fst snd].
      change (Role.name (Role.createRole n (Some ("Preset " ++ n)%string) (Some perms)))
        with n.
      cbn [Role.createRole Role.permissions].
      assert (Hp : Role.getPresetPermissions n = perms).
      { simpl in Hin.
        repeat (destruct Hin as [Hin|Hin]; [inversion Hin; reflexivity|]).
        contradiction. }
      rewrite Hp.
      transitivity (Role.normalizePermissions ([] ++ (perms ++ perms) ++ []));
        [now rewrite app_nil_r|].
      rewrite (normalizePermissions_repeat [] perms []). now rewrite app_nil_r. }
    intro user. rewrite !getEffectivePermissions_any_catalog.
    unfold effectivePermissionsSpec.
    apply (seeded_permissions_normalize (UserDomain.roles user) []).
Qed.

(** *** Writing roles *)

Lemma rbind_run {A B} (c : R A) (k : A -> R B) (lines lines' : Lines) (a : A) :
  c lines = (Ok a, lines') -> bind c k lines = k a lines'.
Proof. intro H. unfold bind. now rewrite H. Qed.

Lemma getRoleByName_run (name : string) (lines : Lines) :
  getRoleByName rt name lines
  = (Ok (find (sameName rt name) (listed rt lines)), lines).
Proof.
  unfold getRoleByName. now rewrite (rbind_run _ _ _ _ _ (listRoles_run lines)).
Qed.

Lemma find_map_replace {A} (P : A -> bool) (f : A -> A) (l : list A) :
  (forall x, P x = true -> P (f x) = true) ->
  find P (map (fun x => if P x then f x else x) l)
  = match find P l with Some x => Some (f x) | None => None end.
Proof.
  intro Hf. induction l as [|x t IH]; simpl; [reflexivity|].
  destruct (P x) eqn:Px.
  - now rewrite (Hf x Px).
  - now rewrite Px.
Qed.

Lemma find_map_replace_other {A} (P Q : A -> bool) (f : A -> A) (l : list A) :
  (forall x, P x = true -> Q x = false /\ Q (f x) = false) ->
  find Q (map (fun x => if P x then f x else x) l) = find Q l.
Proof.
  intro H. induction l as [|x t IH]; simpl; [reflexivity|].
  destruct (P x) eqn:Px.
  - destruct (H x Px) as [H1 H2]. now rewrite H1, H2.
  - now rewrite IH.
Qed.

Lemma find_ext {A} (P Q : A -> bool) (H : forall x, P x = Q x) (l : list A) :
  find P l = find Q l.
Proof.
  induction l as [|x t IH]; simpl; [reflexivity|]. now rewrite H, IH.
Qed.

Lemma find_none_existsb {A} (P : A -> bool) (l : list A) :
  existsb P l = false -> find P l = None.
Proof.
  induction l as [|x t IH]; simpl; [reflexivity|].
  destruct (P x); [discriminate | exact IH].
Qed.

Lemma find_some_existsb {A} (P : A -> bool) (l : list A) :
  existsb P l = true -> exists x, find P l = Some x.
Proof.
  induction l as [|x t IH]; simpl; [discriminate|].
  destruct (P x); [eexists; reflexivity | exact IH].
Qed.

Lemma sameName_hasName (name : string) (r : Role.Role) :
  sameName rt name r = hasName rt (trim rt name) r.
Proof. reflexivity. Qed.

Lemma upserted_wellFormed (params : UpsertParams) :
  trimIdempotent rt ->
  trim rt (u_name params) <> "" ->
  wellFormed rt (upsertedNew rt params)
  /\ forall r, wellFormed rt (upsertedOver rt params r).
Proof.
  intros Hidem Hn. unfold wellFormed, upsertedNew, upsertedOver.
  cbn [Role.name Role.permissions].
  repeat split; try apply Hidem; try assumption;
    apply normalizePermissions_idempotent.
Qed.

Lemma afterUpsert_wellFormed (params : UpsertParams) (all : list Role.Role) :
  trimIdempotent rt ->
  trim rt (u_name params) <> "" ->
  Forall (wellFormed rt) all ->
  Forall (wellFormed rt) (afterUpsert rt params all).
Proof.
  intros Hidem Hn Hall.
  destruct (upserted_wellFormed params Hidem Hn) as [Hnew Hover].
  assert (Hmap : Forall (wellFormed rt)
                   (map (fun r => if hasName rt (trim rt (u_name params)) r
                                  then upsertedOver rt params r else r) all)).
  { apply Forall_forall. intros r Hr. apply in_map_iff in Hr.
    destruct Hr as [x [Hx Hin]].
    destruct (hasName rt _ x); subst r; [apply Hover|].
    now apply (proj1 (Forall_forall _ _) Hall). }
  unfold afterUpsert. destruct (existsb _ all); [assumption|].
  apply Forall_app. split; [assumption|]. now constructor.
Qed.

Lemma wellFormed_valid (l : list Role.Role) :
  Forall (wellFormed rt) l -> forallb RoleChecks.isValidRole l = true.
Proof.
  intro H. apply forallb_forall. intros r Hr.
  destruct (proj1 (Forall_forall _ _) H r Hr) as [_ [_ Hp]].
  unfold RoleChecks.isValidRole. rewrite <- Hp. apply normalized_valid.
Qed.

Lemma find_afterUpsert (params : UpsertParams) (all : list Role.Role) :
  trimIdempotent rt ->
  find (hasName rt (trim rt (u_name params))) (afterUpsert rt params all)
  = Some (upserted rt params all).
Proof.
  intro Hidem.
  assert (Hkeep : forall x, hasName rt (trim rt (u_name params)) x = true ->
                            hasName rt (trim rt (u_name params))
                                    (upsertedOver rt params x) = true).
  { intros x _. unfold hasName, upsertedOver. cbn [Role.name].
    rewrite Hidem. apply String.eqb_refl. }
  unfold afterUpsert, upserted.
  destruct (existsb (hasName rt (trim rt (u_name params))) all) eqn:Hex.
  - rewrite (find_map_replace _ _ _ Hkeep).
    destruct (find_some_existsb _ _ Hex) as [x Hx]. now rewrite Hx.
  - pose proof (find_none_existsb _ _ Hex) as Hnone. rewrite Hnone.
    rewrite find_app_missing.
    + cbn [find]. unfold hasName at 1, upsertedNew. cbn [Role.name].
      now rewrite Hidem, String.eqb_refl.
    + now rewrite (find_map_replace _ _ _ Hkeep), Hnone.
Qed.

Lemma find_afterUpsert_other (params : UpsertParams) (all : list Role.Role)
    (other : string) :
  trimIdempotent rt ->
  other <> trim rt (u_name params) ->
  find (hasName rt other) (afterUpsert rt params all) = find (hasName rt other) all.
Proof.
  intros Hidem Hne.
  assert (Hmap : find (hasName rt other)
                   (map (fun r => if hasName rt (trim rt (u_name params)) r
                                  then upsertedOver rt params r else r) all)
                 = find (hasName rt other) all).
  { apply find_map_replace_other. intros x Hx. unfold hasName in *.
    cbn [upsertedOver Role.name]. rewrite Hidem.
    apply String.eqb_eq in Hx. rewrite Hx.
    split; apply String.eqb_neq; congruence. }
  unfold afterUpsert. destruct (existsb _ all); [exact Hmap|].
  rewrite <- Hmap.
  destruct (find (hasName rt other)
              (map (fun r => if hasName rt (trim rt (u_name params)) r
                             then upsertedOver rt params r else r) all))
    as [x|] eqn:Hf.
  - now apply find_app_found.
  - rewrite (find_app_missing _ _ _ Hf). cbn [find].
    unfold hasName at 1, upsertedNew. cbn [Role.name]. rewrite Hidem.
    apply String.eqb_neq in Hne. rewrite String.eqb_sym in Hne. now rewrite Hne.
Qed.

Lemma upsertRole_run (params : UpsertParams) (lines : Lines) :
  trimIdempotent rt ->
  trim rt (u_name params) <> "" ->
  upsertRole rt params lines
  = (Ok (Some (upserted rt params (listed rt lines))),
     afterUpsert rt params (listed rt lines)).
Proof.
  intros Hidem Hn.
  pose proof (afterUpsert_wellFormed params (listed rt lines) Hidem Hn
                (listed_wellFormed lines Hidem)) as Hwf.
  unfold upsertRole. apply String.eqb_neq in Hn. rewrite Hn.
  rewrite (rbind_run _ _ _ _ _ (listRoles_run lines)).
  fold (hasName rt (trim rt (u_name params))).
  match goal with
  | |- (if negb (forallb _ ?u) then _ else _) _ = _ =>
      replace u with (afterUpsert rt params (listed rt lines))
  end.
  2:{ unfold afterUpsert, upsertedOver, upsertedNew.
      now destruct (existsb _ (listed rt lines)). }
  rewrite (wellFormed_valid _ Hwf). cbn [negb].
  unfold bind at 1, writeLines at 1.
  rewrite getRoleByName_run, (listed_fixed _ Hwf).
  rewrite (find_ext _ _ (sameName_hasName (trim rt (u_name params)))).
  now rewrite Hidem, (find_afterUpsert params _ Hidem).
Qed.

(** X27.  [upsertRole] refuses a name that trims to nothing
    (ROLE_NAME_REQUIRED) and writes nothing then.  For any other name it
    never throws and never returns null: it returns the role under the
    trimmed name with the permissions normalized, keeping the description
    of the role it replaces when none is given; that role is what
    [getRoleByName] finds afterwards, and the roles of other names are
    found as before. *)
Theorem upsertRole_round_trip :
  trimIdempotent rt ->
  forall (params : UpsertParams) (lines : Lines),
    (trim rt (u_name params) = "" ->
     upsertRole rt params lines = (Throw (Error "ROLE_NAME_REQUIRED"), lines))
    /\ (trim rt (u_name params) <> "" ->
        exists role lines',
          upsertRole rt params lines = (Ok (Some role), lines')
          /\ Role.name role = trim rt (u_name params)
          /\ Role.permissions role
             = Role.normalizePermissions
                 (match u_permissions params with Some p => p | None => [] end)
          /\ Role.description role
             = match u_description params,
                     fst (getRoleByName rt (u_name params) lines) with
               | Some d, _ => Some d
               | None, Ok (Some old) => Role.description old
               | None, _ => None
               end
          /\ getRoleByName rt (u_name params) lines' = (Ok (Some role), lines')
          /\ (forall other, trim rt other <> trim rt (u_name params) ->
                            fst (getRoleByName rt other lines')
                            = fst (getRoleByName rt other lines))).
Proof.
  intros Hidem params lines. split.
  - intro He. unfold upsertRole. now rewrite He.
  - intro Hn.
    pose proof (afterUpsert_wellFormed params (listed rt lines) Hidem Hn
                  (listed_wellFormed lines Hidem)) as Hwf.
    exists (upserted rt params (listed rt lines)),
           (afterUpsert rt params (listed rt lines)).
    split; [now apply upsertRole_run|].
    split. { unfold upserted. now destruct (find _ _). }
    split. { unfold upserted. now destruct (find _ _). }
    split.
    { rewrite getRoleByName_run. cbn [fst].
      rewrite (find_ext _ _ (sameName_hasName (u_name params))).
      unfold upserted.
      destruct (find (hasName rt (trim rt (u_name params))) (listed rt lines));
        cbn [upsertedOver upsertedNew Role.description];
        now destruct (u_description params). }
    split.
    { rewrite getRoleByName_run, (listed_fixed _ Hwf).
      rewrite (find_ext _ _ (sameName_hasName (u_name params))).
      now rewrite (find_afterUpsert params _ Hidem). }
    intros other Hne. rewrite !getRoleByName_run, (listed_fixed _ Hwf). cbn [fst].
    rewrite !(find_ext _ _ (sameName_hasName other)).
    now rewrite (find_afterUpsert_other params _ (trim rt other) Hidem Hne).
Qed.

(** X28.  [addPermissionsToRole] throws ROLE_NOT_FOUND, and writes nothing,
    for a name that is not listed; for a listed role it stores and returns
    the role with the normalized union of its permissions and the extras,
    and with its description.  [replaceRolePermissions] stores the
    normalized list given, for a listed role and for a new name alike. *)
Theorem role_permissions_updates :
  trimIdempotent rt ->
  forall (name : string) (perms : list string) (lines : Lines),
    (fst (getRoleByName rt name lines) = Ok None ->
     addPermissionsToRole rt name perms lines = (Throw (Error "ROLE_NOT_FOUND"), lines))
    /\ (forall current,
           fst (getRoleByName rt name lines) = Ok (Some current) ->
           exists lines',
             addPermissionsToRole rt name perms lines
             = (Ok (Some (Role.mkRole (trim rt name)
                            (Role.normalizePermissions
                               (Role.permissions current ++ perms))
                            (Role.description current))), lines')
             /\ getRoleByName rt name lines'
                = (Ok (Some (Role.mkRole (trim rt name)
                               (Role.normalizePermissions
                                  (Role.permissions current ++ perms))
                               (Role.description current))), lines'))
    /\ (trim rt name <> "" ->
        exists role lines',
          replaceRolePermissions rt name perms lines = (Ok (Some role), lines')
          /\ Role.name role = trim rt name
          /\ Role.permissions role = Role.normalizePermissions perms
          /\ getRoleByName rt name lines' = (Ok (Some role), lines')).
Proof.
  intros Hidem name perms lines. split; [|split].
  - intro H. rewrite getRoleByName_run in H. cbn [fst] in H.
    unfold addPermissionsToRole.
    rewrite (rbind_run _ _ _ _ _ (getRoleByName_run name lines)).
    inversion H as [H']. now rewrite H'.
  - intros current H. rewrite getRoleByName_run in H. cbn [fst] in H.
    inversion H as [Hf]. clear H.
    assert (Hn : trim rt name <> "").
    { apply find_some in Hf. destruct Hf as [Hin Hs].
      apply (proj1 (Forall_forall _ _) (listed_wellFormed lines Hidem)) in Hin.
      destruct Hin as [Ht [Hne _]]. unfold sameName in Hs.
      apply String.eqb_eq in Hs. congruence. }
    set (params := {| u_name := name;
                      u_permissions :=
                        Some (Role.normalizePermissions
                                (Role.permissions current ++ perms));
                      u_description := Role.description current |}).
    pose proof (afterUpsert_wellFormed params (listed rt lines) Hidem Hn
                  (listed_wellFormed lines Hidem)) as Hwf.
    assert (Hup : upserted rt params (listed rt lines)
                  = Role.mkRole (trim rt name)
                      (Role.normalizePermissions (Role.permissions current ++ perms))
                      (Role.description current)).
    { unfold upserted. cbn [u_name params].
      rewrite (find_ext _ _ (sameName_hasName name)) in Hf. rewrite Hf.
      unfold upsertedOver. cbn [u_name u_permissions u_description params].
      rewrite normalizePermissions_idempotent.
      now destruct (Role.description current). }
    exists (afterUpsert rt params (listed rt lines)). split.
    + unfold addPermissionsToRole.
      rewrite (rbind_run _ _ _ _ _ (getRoleByName_run name lines)). rewrite Hf.
      fold params. rewrite (upsertRole_run params lines Hidem Hn). now rewrite Hup.
    + rewrite getRoleByName_run, (listed_fixed _ Hwf).
      rewrite (find_ext _ _ (sameName_hasName name)).
      now rewrite (find_afterUpsert params _ Hidem), Hup.
  - intro Hn.
    set (params := {| u_name := name;
                      u_permissions := Some (Role.normalizePermissions perms);
                      u_description := None |}).
    pose proof (afterUpsert_wellFormed params (listed rt lines) Hidem Hn
                  (listed_wellFormed lines Hidem)) as Hwf.
    exists (upserted rt params (listed rt lines)),
           (afterUpsert rt params (listed rt lines)).
    split. { unfold replaceRolePermissions. fold params.
             now apply upsertRole_run. }
    split. { unfold upserted. now destruct (find _ _). }
    split. { unfold upserted.
             destruct (find _ _); cbn [upsertedOver upsertedNew Role.permissions];
               apply normalizePermissions_idempotent. }
    rewrite getRoleByName_run, (listed_fixed _ Hwf).
    rewrite (find_ext _ _ (sameName_hasName name)).
    now rewrite (find_afterUpsert params _ Hidem).
Qed.

(** *** Deleting and adding roles *)

Lemma filter_length_le {A} (f : A -> bool) (l : list A) :
  (List.length (filter f l) <= List.length l)%nat.
Proof.
  induction l as [|x t IH]; simpl; [lia|]. destruct (f x); simpl; lia.
Qed.

Lemma filter_length_forallb {A} (f : A -> bool) (l : list A) :
  Nat.eqb (List.length (filter f l)) (List.length l) = forallb f l.
Proof.
  induction l as [|x t IH]; simpl; [reflexivity|].
  destruct (f x); simpl; [exact IH|].
  apply Nat.eqb_neq. pose proof (filter_length_le f t). lia.
Qed.

Lemma negb_forallb_negb {A} (f : A -> bool) (l : list A) :
  negb (forallb (fun x => negb (f x)) l) = existsb f l.
Proof.
  induction l as [|x t IH]; simpl; [reflexivity|].
  destruct (f x); simpl; [reflexivity | exact IH].
Qed.

Lemma find_filter_out {A} (P : A -> bool) (l : list A) :
  find P (filter (fun x => negb (P x)) l) = None.
Proof.
  induction l as [|x t IH]; simpl; [reflexivity|].
  destruct (P x) eqn:Px; simpl; [exact IH | now rewrite Px].
Qed.

Lemma find_filter_other {A} (P Q : A -> bool) (l : list A) :
  (forall x, Q x = true -> P x = false) ->
  find Q (filter (fun x => negb (P x)) l) = find Q l.
Proof.
  intro H. induction l as [|x t IH]; simpl; [reflexivity|].
  destruct (P x) eqn:Px; simpl.
  - destruct (Q x) eqn:Qx; [|exact IH]. rewrite (H x Qx) in Px. discriminate.
  - now rewrite IH.
Qed.

Lemma deleteRole_run (name : string) (lines : Lines) :
  deleteRole rt name lines
  = if existsb (sameName rt name) (listed rt lines)
    then (Ok true, filter (fun r => negb (sameName rt name r)) (listed rt lines))
    else (Ok false, lines).
Proof.
  unfold deleteRole. rewrite (rbind_run _ _ _ _ _ (listRoles_run lines)).
  rewrite filter_length_forallb, negb_forallb_negb.
  now destruct (existsb (sameName rt name) (listed rt lines)).
Qed.

(** X29.  [deleteRole] answers true exactly when a role of that name was
    listed, and otherwise leaves the file as it is.  After it the name is
    not found any more, and every other name finds what it found before. *)
Theorem deleteRole_outcomes :
  trimIdempotent rt ->
  forall (name : string) (lines : Lines),
    exists changed lines',
      deleteRole rt name lines = (Ok changed, lines')
      /\ (changed = true <->
          exists role, fst (getRoleByName rt name lines) = Ok (Some role))
      /\ (changed = false -> lines' = lines)
      /\ fst (getRoleByName rt name lines') = Ok None
      /\ (forall other, trim rt other <> trim rt name ->
                        fst (getRoleByName rt other lines')
                        = fst (getRoleByName rt other lines)).
Proof.
  intros Hidem name lines. rewrite deleteRole_run.
  destruct (existsb (sameName rt name) (listed rt lines)) eqn:Hex.
  - assert (Hwf : Forall (wellFormed rt)
                    (filter (fun r => negb (sameName rt name r)) (listed rt lines))).
    { apply Forall_forall. intros r Hr. apply filter_In in Hr.
      now apply (proj1 (Forall_forall _ _) (listed_wellFormed lines Hidem)). }
    eexists. eexists. split; [reflexivity|].
    split.
    { split; [|reflexivity]. intros _.
      destruct (find_some_existsb _ _ Hex) as [role Hf]. exists role.
      rewrite getRoleByName_run. cbn [fst]. now rewrite Hf. }
    split; [discriminate|]. split.
    + rewrite getRoleByName_run, (listed_fixed _ Hwf). cbn [fst].
      now rewrite find_filter_out.
    + intros other Hne. rewrite !getRoleByName_run, (listed_fixed _ Hwf). cbn [fst].
      rewrite find_filter_other; [reflexivity|].
      intros x Hx. unfold sameName in *. apply String.eqb_eq in Hx.
      apply String.eqb_neq. congruence.
  - pose proof (find_none_existsb _ _ Hex) as Hnone.
    eexists. eexists. split; [reflexivity|].
    split.
    { split; [discriminate|]. intros [role Hr].
      rewrite getRoleByName_run in Hr. cbn [fst] in Hr. rewrite Hnone in Hr.
      discriminate. }
    split; [reflexivity|]. split.
    + rewrite getRoleByName_run. cbn [fst]. now rewrite Hnone.
    + reflexivity.
Qed.

(** X30.  [addRole] refuses a role with a permission that is not valid
    (INVALID_ROLE_RECORD) and a role whose name is already listed
    (ROLE_ALREADY_EXISTS), writing nothing; otherwise it appends the record
    as given.  A record whose name trims to nothing is appended but never
    listed; any other is found afterwards, in normalized form. *)
Theorem addRole_outcomes :
  trimIdempotent rt ->
  forall (role : Role.Role) (lines : Lines),
    (RoleChecks.isValidRole role = false ->
     addRole rt role lines = (Throw (Error "INVALID_ROLE_RECORD"), lines))
    /\ (RoleChecks.isValidRole role = true ->
        forall existing,
          fst (getRoleByName rt (Role.name role) lines) = Ok (Some existing) ->
          addRole rt role lines = (Throw (Error "ROLE_ALREADY_EXISTS"), lines))
    /\ (RoleChecks.isValidRole role = true ->
        fst (getRoleByName rt (Role.name role) lines) = Ok None ->
        addRole rt role lines = (Ok tt, lines ++ [role])
        /\ (trim rt (Role.name role) = "" ->
            fst (listRoles rt (lines ++ [role])) = fst (listRoles rt lines))
        /\ (trim rt (Role.name role) <> "" ->
            fst (getRoleByName rt (Role.name role) (lines ++ [role]))
            = Ok (Some (Role.mkRole (trim rt (Role.name role))
                          (Role.normalizePermissions (Role.permissions role))
                          (Role.description role))))).
Proof.
  intros Hidem role lines. split; [|split].
  - intro Hv. unfold addRole. now rewrite Hv.
  - intros Hv existing H. rewrite getRoleByName_run in H. cbn [fst] in H.
    inversion H as [Hf]. unfold addRole. rewrite Hv. cbn [negb].
    rewrite (rbind_run _ _ _ _ _ (getRoleByName_run _ lines)). now rewrite Hf.
  - intros Hv H. rewrite getRoleByName_run in H. cbn [fst] in H.
    inversion H as [Hf]. split; [|split].
    + unfold addRole. rewrite Hv. cbn [negb].
      rewrite (rbind_run _ _ _ _ _ (getRoleByName_run _ lines)). now rewrite Hf.
    + intro He. rewrite !listRoles_run. cbn [fst]. f_equal.
      unfold listed. rewrite flat_map_app. cbn [flat_map].
      rewrite normalizeRoleRecord_eq, He. cbn. now rewrite !app_nil_r.
    + intro Hn. rewrite getRoleByName_run. cbn [fst]. f_equal.
      unfold listed. rewrite flat_map_app. fold (listed rt lines).
      rewrite (find_app_missing _ _ _ Hf). cbn [flat_map].
      rewrite normalizeRoleRecord_eq. apply String.eqb_neq in Hn. rewrite Hn.
      cbn [app find]. unfold sameName at 1. cbn [Role.name].
      now rewrite Hidem, String.eqb_refl.
Qed.

End RoleRepositoryFacts.

(** ** The properties beyond the claims, on concrete values *)

Lemma trailing_segments_are_ignored_witness :
  Permission.isPermission "user:read:own" = true
  /\ (forall required,
         Permission.permissionImplies "user:read:own" required
         = Permission.permissionImplies "user:read" required)
  /\ (forall grant,
         Permission.permissionImplies grant "user:read:own"
         = Permission.permissionImplies grant "user:read").
Proof.
  exact (trailing_segments_are_ignored "user:read" "own" eq_refl).
Defined.

Lemma coverage_follows_implication_witness :
  Permission.hasPermission ["user:*"] "user:read" = true
  /\ Permission.hasPermission ["auth:login"; "user:*"] "user:read" = true
  /\ (forall a b c,
         Permission.permissionImplies a b = true ->
         Permission.permissionImplies b c = true ->
         Permission.permissionImplies a c = true).
Proof.
  apply (coverage_follows_implication ["user:*"] ["auth:login"; "user:*"]
           "user:*" "user:read").
  - reflexivity.
  - reflexivity.
  - intros x [H|[]]. right. left. exact H.
Defined.

Lemma effective_permissions_are_monotone_witness :
  incl (UserDomain.getEffectivePermissions Demo.alice (Some Demo.roleCatalog))
       (UserDomain.getEffectivePermissions MoreDemo.carol (Some Demo.roleCatalog))
  /\ (forall required,
         UserCreation.userCan Demo.alice required (Some Demo.roleCatalog) = true ->
         UserCreation.userCan MoreDemo.carol required (Some Demo.roleCatalog) = true)
  /\ (forall p,
         In p (UserDomain.getEffectivePermissions Demo.alice (Some Demo.roleCatalog)) ->
         Permission.isPermission p = true).
Proof.
  apply (effective_permissions_are_monotone Demo.alice MoreDemo.carol
           (Some Demo.roleCatalog)).
  - intros x [H|[]]. left. exact H.
  - intros x [].
Defined.

Lemma session_activity_is_never_gained_witness :
  Session.isActive
    (Session.touchSession (Session.revokeSession Demo.session1 1700000100000%Z)
                          1700000200000%Z)
    1700002600001%Z = false
  /\ Session.expiresAt
       (Session.touchSession (Session.revokeSession Demo.session1 1700000100000%Z)
                             1700000200000%Z)
     = Session.expiresAt Demo.session1
  /\ Session.id
       (Session.touchSession (Session.revokeSession Demo.session1 1700000100000%Z)
                             1700000200000%Z)
     = Session.id Demo.session1
  /\ Session.userId
       (Session.touchSession (Session.revokeSession Demo.session1 1700000100000%Z)
                             1700000200000%Z)
     = Session.userId Demo.session1
  /\ Session.issuedAt
       (Session.touchSession (Session.revokeSession Demo.session1 1700000100000%Z)
                             1700000200000%Z)
     = Session.issuedAt Demo.session1
  /\ (forall when u,
         Session.isActive (Session.touchSession Demo.session1 when) u
         = Session.isActive Demo.session1 u)
  /\ (forall when,
         Session.expiresAt (Session.touchSession Demo.session1 when)
         = Session.expiresAt Demo.session1
         /\ Session.lastUsedAt (Session.touchSession Demo.session1 when) = when).
Proof.
  apply (session_activity_is_never_gained Demo.session1 _ 1700002600000%Z).
  - apply evolves_touch, evolves_revoke, evolves_refl.
  - reflexivity.
  - lia.
Defined.

Lemma listActiveSessionsByUser_after_logout_witness :
  exists active,
    Storage.listActiveSessionsByUser "u1" 1700000000000%Z
      (snd (Auth.logoutSession Demo.runtime "s1" Demo.world))
    = (Ok active, snd (Auth.logoutSession Demo.runtime "s1" Demo.world))
    /\ active
       = filter (fun s => String.eqb (Session.userId s) "u1"
                          && Session.isActive s 1700000000000%Z)
                (Auth.sessions (snd (Auth.logoutSession Demo.runtime "s1" Demo.world)))
    /\ (forall s, In s active ->
                  Session.userId s = "u1"
                  /\ Session.isActive s 1700000000000%Z = true
                  /\ Session.id s <> "s1").
Proof.
  refine (listActiveSessionsByUser_after_logout Demo.runtime "s1" Demo.world
            _ _ _ "u1" 1700000000000%Z).
  cbv. reflexivity.
Defined.

Lemma loginUser_mfa_required_witness :
  exists user,
    Auth.getUserByEmail Demo.runtime "alice@example.com" Demo.world
    = (Ok (Some user), Demo.world)
    /\ Auth.isLocked user (Env.clock Demo.runtime 0) = false
    /\ Env.bcrypt_compare Demo.runtime "S3gura!2024" (UserDomain.passHash user) = true
    /\ mfaOn user = true
    /\ Js.falsy (Auth.l_otpCode MoreDemo.passwordOnly) = true
    /\ Auth.users (snd (Auth.loginUser Demo.runtime MoreDemo.passwordOnly Demo.world))
       = Auth.users Demo.world
    /\ Auth.sessions (snd (Auth.loginUser Demo.runtime MoreDemo.passwordOnly Demo.world))
       = Auth.sessions Demo.world
    /\ (forall lines,
           In (Auth.UsersWritten lines)
              (Auth.effects
                 (snd (Auth.loginUser Demo.runtime MoreDemo.passwordOnly Demo.world))) ->
           In (Auth.UsersWritten lines) (Auth.effects Demo.world)).
Proof.
  apply (loginUser_mfa_required Demo.runtime MoreDemo.passwordOnly Demo.world
           (snd (Auth.loginUser Demo.runtime MoreDemo.passwordOnly Demo.world))).
  reflexivity.
Defined.

Lemma loginUser_success_witness :
  exists stored session at_ w',
    Auth.loginUser Demo.runtime Demo.rightLogin Demo.world
    = (Ok (Session.toPublicSession session at_, UserDomain.toPublicUser stored None), w')
    /\ Auth.users w' = replaceUser stored (Auth.users Demo.world)
    /\ Auth.sessions w' = Auth.sessions Demo.world ++ [session]
    /\ Auth.getUserByEmail Demo.runtime "alice@example.com" w' = (Ok (Some stored), w')
    /\ UserDomain.failedLoginAttempts stored = Some 0%Z
    /\ UserDomain.lockedUntil stored = Some 0%Z
    /\ UserDomain.passHash stored = UserDomain.passHash Demo.alice
    /\ UserDomain.id stored = UserDomain.id Demo.alice
    /\ UserDomain.email stored = UserDomain.email Demo.alice
    /\ UserDomain.roles stored = UserDomain.roles Demo.alice
    /\ UserDomain.extraPermissions stored = UserDomain.extraPermissions Demo.alice
    /\ UserDomain.mfaEnabled stored = UserDomain.mfaEnabled Demo.alice
    /\ UserDomain.mfaSecret stored = UserDomain.mfaSecret Demo.alice
    /\ Session.userId session = UserDomain.id Demo.alice
    /\ Session.revokedAt session = None
    /\ Session.lastUsedAt session = Session.issuedAt session
    /\ Session.expiresAt session = (Session.issuedAt session + 60 * 60000)%Z
    /\ Session.ipHash session = None
    /\ Session.userAgent session = None.
Proof.
  refine (proj1 (loginUser_success Demo.runtime Demo.rightLogin Demo.world Demo.alice
                   60%Z _ _ _ _ _) _).
  - reflexivity.
  - reflexivity.
  - reflexivity.
  - reflexivity.
  - reflexivity.
  - intros n Hn. unfold Demo.runtime, Demo.world in *.
    cbn [Env.clock Auth.tick] in *. lia.
Defined.

Lemma loginUser_locks_again_witness :
  exists w' user',
    Auth.loginUser Demo.runtime Demo.wrongPassword MoreDemo.laterWorld
    = (Throw (AuthError INVALID_CREDENTIALS), w')
    /\ Auth.getUserByEmail Demo.runtime "alice@example.com" w' = (Ok (Some user'), w')
    /\ attempts user' = 6%Z
    /\ UserDomain.lockedUntil user' = Some 1700002701000%Z
    /\ (forall t, (0 < 1700002701000)%Z -> (t < 1700002701000)%Z ->
                  Auth.isLocked user' t = true).
Proof.
  apply (loginUser_locks_again Demo.runtime Demo.wrongPassword MoreDemo.laterWorld
           Demo.lockedAlice).
  - reflexivity.
  - reflexivity.
  - reflexivity.
  - vm_compute. discriminate.
Defined.

Lemma setupMfa_suspends_mfa_witness :
  exists secret uri w1 stored res w2,
    Auth.setupMfa Demo.runtime "u1" "secureAuth" Demo.world = (Ok (secret, uri), w1)
    /\ Auth.getUserByEmail Demo.runtime "alice@example.com" w1 = (Ok (Some stored), w1)
    /\ UserDomain.mfaEnabled stored = Some false
    /\ UserDomain.mfaSecret stored = Some secret
    /\ Auth.loginUser Demo.runtime MoreDemo.passwordOnly w1 = (Ok res, w2).
Proof.
  apply (setupMfa_suspends_mfa Demo.runtime MoreDemo.passwordOnly "secureAuth"
           Demo.world Demo.alice 60%Z).
  - reflexivity.
  - reflexivity.
  - reflexivity.
  - reflexivity.
  - reflexivity.
  - intros n Hn. unfold Demo.runtime, Demo.world in *.
    cbn [Env.clock Auth.tick] in *. lia.
Defined.

Lemma registerUser_outcomes_witness :
  exists user w',
    Storage.registerUser Demo.runtime MoreDemo.newcomer Demo.world
    = (Ok (UserDomain.toPublicUser user None), w')
    /\ Auth.users w' = Auth.users Demo.world ++ [user]
    /\ Auth.sessions w' = Auth.sessions Demo.world
    /\ UserDomain.email user = "dora@example.com"
    /\ UserDomain.passHash user = "hash:S3gura!2024"
    /\ UserDomain.roles user = ["user"]
    /\ UserDomain.extraPermissions user = Some ["audit:read"]
    /\ UserDomain.mfaEnabled user = Some false
    /\ UserDomain.mfaSecret user = None
    /\ UserDomain.failedLoginAttempts user = Some 0%Z
    /\ UserDomain.lockedUntil user = Some 0%Z
    /\ UserDomain.createdAt user = UserDomain.updatedAt user.
Proof.
  refine (proj2 (proj2 (proj2
            (registerUser_outcomes Demo.runtime _ MoreDemo.newcomer Demo.world)))
            _ _ _).
  - intro s. reflexivity.
  - reflexivity.
  - reflexivity.
  - reflexivity.
Defined.

Lemma register_then_login_witness :
  exists session user w2,
    Auth.loginUser Demo.runtime MoreDemo.newcomerLogin
      (snd (Storage.registerUser Demo.runtime MoreDemo.newcomer Demo.world))
    = (Ok (session, user), w2)
    /\ UserDomain.pub_id user = "6f1c"
    /\ UserDomain.pub_email user = "dora@example.com"
    /\ UserDomain.pub_roles user = ["user"]
    /\ UserDomain.pub_permissions user
       = UserDomain.getEffectivePermissions
           (registered Demo.runtime MoreDemo.newcomer 0) None
    /\ UserDomain.pub_mfaEnabled user = false
    /\ Session.pub_userId session = "6f1c"
    /\ List.length (Auth.sessions w2) = 2%nat.
Proof.
  refine (register_then_login Demo.runtime _ _ MoreDemo.newcomer Demo.world
            _ (UserDomain.toPublicUser (registered Demo.runtime MoreDemo.newcomer 0)
                                       None)
            MoreDemo.newcomerLogin 60%Z _ _ _ _ _).
  - intro s. reflexivity.
  - intros plain salt. apply String.eqb_refl.
  - reflexivity.
  - reflexivity.
  - reflexivity.
  - reflexivity.
  - intros n Hn. unfold Demo.runtime, Demo.world in *.
    cbn [Env.clock Auth.tick] in *. lia.
Defined.

Lemma seedRolePresetsIfEmpty_outcomes_witness :
  exists seeded,
    RoleRepository.seedRolePresetsIfEmpty Demo.runtime [] = (Ok tt, seeded)
    /\ RoleRepository.listRoles Demo.runtime seeded = (Ok seeded, seeded)
    /\ map Role.name seeded = ["admin"; "security-analyst"; "support"; "user"]
    /\ (forall r, In r seeded ->
                  Role.permissions r
                  = Role.normalizePermissions
                      (Role.getPresetPermissions (Role.name r)))
    /\ (forall user,
           UserDomain.getEffectivePermissions user (Some seeded)
           = UserDomain.getEffectivePermissions user None).
Proof.
  refine (proj2 (seedRolePresetsIfEmpty_outcomes Demo.runtime _ []) _).
  - intros n _. reflexivity.
  - reflexivity.
Defined.

Lemma upsertRole_round_trip_witness :
  exists role lines',
    RoleRepository.upsertRole Demo.runtime MoreDemo.upsertAuditor MoreDemo.rolesFile
    = (Ok (Some role), lines')
    /\ Role.name role = "auditor"
    /\ Role.permissions role = Role.normalizePermissions ["session:list"]
    /\ Role.description role = Some "Reads the trail"
    /\ RoleRepository.getRoleByName Demo.runtime "auditor" lines'
       = (Ok (Some role), lines')
    /\ (forall other, other <> "auditor" ->
                      fst (RoleRepository.getRoleByName Demo.runtime other lines')
                      = fst (RoleRepository.getRoleByName Demo.runtime other
                               MoreDemo.rolesFile)).
Proof.
  refine (proj2 (upsertRole_round_trip Demo.runtime _ MoreDemo.upsertAuditor
                   MoreDemo.rolesFile) _).
  - intro s. reflexivity.
  - discriminate.
Defined.

Lemma role_permissions_updates_witness :
  exists lines',
    RoleRepository.addPermissionsToRole Demo.runtime "auditor"
      ["session:list"; "audit:read"] MoreDemo.rolesFile
    = (Ok (Some (Role.mkRole "auditor"
                   (Role.normalizePermissions
                      (Role.normalizePermissions ["audit:read"; "audit:read"; "bogus"]
                       ++ ["session:list"; "audit:read"]))
                   (Some "Reads the trail"))), lines')
    /\ RoleRepository.getRoleByName Demo.runtime "auditor" lines'
       = (Ok (Some (Role.mkRole "auditor"
                      (Role.normalizePermissions
                         (Role.normalizePermissions ["audit:read"; "audit:read"; "bogus"]
                          ++ ["session:list"; "audit:read"]))
                      (Some "Reads the trail"))), lines').
Proof.
  refine (proj1 (proj2 (role_permissions_updates Demo.runtime _ "auditor"
                          ["session:list"; "audit:read"] MoreDemo.rolesFile))
            (Role.mkRole "auditor"
               (Role.normalizePermissions ["audit:read"; "audit:read"; "bogus"])
               (Some "Reads the trail")) _).
  - intro s. reflexivity.
  - reflexivity.
Defined.

Lemma deleteRole_outcomes_witness :
  exists changed lines',
    RoleRepository.deleteRole Demo.runtime "auditor" MoreDemo.rolesFile
    = (Ok changed, lines')
    /\ (changed = true <->
        exists role,
          fst (RoleRepository.getRoleByName Demo.runtime "auditor" MoreDemo.rolesFile)
          = Ok (Some role))
    /\ (changed = false -> lines' = MoreDemo.rolesFile)
    /\ fst (RoleRepository.getRoleByName Demo.runtime "auditor" lines') = Ok None
    /\ (forall other, other <> "auditor" ->
                      fst (RoleRepository.getRoleByName Demo.runtime other lines')
                      = fst (RoleRepository.getRoleByName Demo.runtime other
                               MoreDemo.rolesFile)).
Proof.
  refine (deleteRole_outcomes Demo.runtime _ "auditor" MoreDemo.rolesFile).
  intro s. reflexivity.
Defined.

Lemma addRole_outcomes_witness :
  RoleRepository.addRole Demo.runtime MoreDemo.helpdesk MoreDemo.rolesFile
  = (Ok tt, MoreDemo.rolesFile ++ [MoreDemo.helpdesk])
  /\ ("helpdesk" = "" ->
      fst (RoleRepository.listRoles Demo.runtime
             (MoreDemo.rolesFile ++ [MoreDemo.helpdesk]))
      = fst (RoleRepository.listRoles Demo.runtime MoreDemo.rolesFile))
  /\ ("helpdesk" <> "" ->
      fst (RoleRepository.getRoleByName Demo.runtime "helpdesk"
             (MoreDemo.rolesFile ++ [MoreDemo.helpdesk]))
      = Ok (Some (Role.mkRole "helpdesk"
                    (Role.normalizePermissions ["user:read"; "user:list"]) None))).
Proof.
  refine (proj2 (proj2 (addRole_outcomes Demo.runtime _ MoreDemo.helpdesk
                          MoreDemo.rolesFile)) _ _).
  - intro s. reflexivity.
  - reflexivity.
  - reflexivity.
Defined.
